(** * STX WhatsApp payment bot: a shallow embedding of the conversation engine

    The development follows the JavaScript/TypeScript sources of the bot:
    the string utilities and validators ([lib/utils]), the services
    (state, user, contact, stacks, transaction, escrow, whatsapp), the
    payment, escrow and registration handlers and the webhook dispatcher.

    Conventions of the embedding
    - A JavaScript string is the list of its UTF-16 code units ([jsstring]).
      Case mapping is modelled for U+0000..U+00FF (Basic Latin and Latin-1
      Supplement, including the one-to-many upper-casing of U+00DF); code
      units above that range are left unchanged by the case mappings.
    - A JavaScript number is an IEEE-754 binary64 value ([spec_float] with
      precision 53 and maximal exponent 1024).
    - Dynamically typed values (service results, conversation state,
      payloads) are [JsVal]s; property access on [undefined]/[null] throws.
    - Asynchronous service code is sequential: it becomes state passing over
      a [World] (the database tables, the outbox and the chain log) with an
      exception result, in the monad [M].
    - The chain, the fee/balance API and Twilio are external: their answers
      are the fields of an environment [Env].
    - What a service call does depends on what its import is bound to, and
      three bindings of the repository are not what the callers expect.
      payment.handler.js, escrow.handler.js and api/webhook.js take
      [userService], [stateService] and [whatsappService] from the default
      export of the service modules, which is the class (the service
      object is the named export): a method call on such a binding throws a
      TypeError.  contact.service.js, transaction.service.js and
      escrow.service.js read the tables through [databaseService.client],
      where [databaseService] is the default export of database.service.js,
      the class, which has no property [client]: every table access
      throws a TypeError.  escrow.service.js takes [callReadOnlyFunction]
      from @stacks/network, which has no such export.  The state and user
      services and the registration handler use the named exports and
      [db.getClient()] and are not concerned.
      A [Linking] records these bindings.  [as_written] is the repository;
      [linked getByPhone] is the program the handlers were written
      against, in which the names stand for the service objects and
      [userService.getByPhone] for a lookup whose result the handlers can
      read.  Statements are made of [as_written], or of every linking. *)

From Stdlib Require Import ZArith NArith List Lia Bool Ascii String SpecFloat.
From stdpp Require Import gmap list.
Import ListNotations.

Set Default Proof Using "Type".
Open Scope string_scope.
Open Scope list_scope.
Open Scope stdpp_scope.

(** ** JavaScript strings *)

Module JsString.

Abbreviation jsstring := (list N).

(** Literals are written as Rocq strings of ASCII characters. *)
Definition js (s : string) : jsstring :=
  map N_of_ascii (list_ascii_of_string s).

Definition cu_eqb (a b : N) : bool := N.eqb a b.

Fixpoint str_eqb (a b : jsstring) : bool :=
  match a, b with
  | [], [] => true
  | x :: a', y :: b' => N.eqb x y && str_eqb a' b'
  | _, _ => false
  end.

(** WhiteSpace and LineTerminator code points of ECMAScript: the set
    stripped by [String.prototype.trim] and matched by [\s]. *)
Definition is_ws (c : N) : bool :=
  ((9 <=? c) && (c <=? 13) || (c =? 32) || (c =? 160) || (c =? 5760)
   || ((8192 <=? c) && (c <=? 8202)) || (c =? 8232) || (c =? 8233)
   || (c =? 8239) || (c =? 8287) || (c =? 12288) || (c =? 65279))%N.

Fixpoint trimStart (s : jsstring) : jsstring :=
  match s with
  | c :: s' => if is_ws c then trimStart s' else s
  | [] => []
  end.

Definition trimEnd (s : jsstring) : jsstring := rev (trimStart (rev s)).

Definition trim (s : jsstring) : jsstring := trimEnd (trimStart s).

(** [toLowerCase] / [toUpperCase] on one code unit. *)
Definition lower_cu (c : N) : N :=
  (if ((65 <=? c) && (c <=? 90)) || ((192 <=? c) && (c <=? 214))
      || ((216 <=? c) && (c <=? 222))
   then c + 32 else c)%N.

Definition upper_cu (c : N) : list N :=
  (if ((97 <=? c) && (c <=? 122)) || ((224 <=? c) && (c <=? 246))
      || ((248 <=? c) && (c <=? 254))
   then [c - 32]
   else if c =? 223 then [83; 83]           (* U+00DF upper-cases to "SS" *)
   else if c =? 181 then [924]              (* U+00B5 -> U+039C *)
   else if c =? 255 then [376]              (* U+00FF -> U+0178 *)
   else [c])%N.

Definition toLowerCase (s : jsstring) : jsstring := map lower_cu s.
Definition toUpperCase (s : jsstring) : jsstring := flat_map upper_cu s.

Fixpoint startsWith (s p : jsstring) : bool :=
  match p, s with
  | [], _ => true
  | x :: p', y :: s' => N.eqb x y && startsWith s' p'
  | _ :: _, [] => false
  end.

Fixpoint includes (s p : jsstring) : bool :=
  startsWith s p ||
  match s with
  | [] => false
  | _ :: s' => includes s' p
  end.

(** [s.split(sep)] for a one-code-unit separator: never the empty list. *)
Fixpoint split_on (sep : N) (s : jsstring) : list jsstring :=
  match s with
  | [] => [[]]
  | c :: s' =>
      if N.eqb c sep then [] :: split_on sep s'
      else match split_on sep s' with
           | w :: ws => (c :: w) :: ws
           | [] => [[c]]
           end
  end.

Fixpoint join (sep : N) (ws : list jsstring) : jsstring :=
  match ws with
  | [] => []
  | [w] => w
  | w :: ws' => w ++ sep :: join sep ws'
  end.

(** [charAt(0)] and [slice(1)]. *)
Definition charAt0 (s : jsstring) : jsstring :=
  match s with [] => [] | c :: _ => [c] end.
Definition slice1 (s : jsstring) : jsstring := tl s.

Definition is_ascii (c : N) : bool := (c <? 128)%N.

End JsString.
Import JsString.

(** ** contact.service.js: [normalizeContactName] *)

Definition space : N := 32%N.

(** [word.charAt(0).toUpperCase() + word.slice(1).toLowerCase()] *)
Definition titleWord (word : jsstring) : jsstring :=
  toUpperCase (charAt0 word) ++ toLowerCase (slice1 word).

Definition normalizeContactName (name : jsstring) : jsstring :=
  join space (map titleWord (split_on space (trim name))).


(** ** JavaScript numbers (IEEE-754 binary64) *)

Module JsNum.

Definition prec : Z := 53.
Definition emax : Z := 1024.

Definition num := spec_float.

Definition of_Z (z : Z) : num := binary_normalize prec emax z 0 false.

Definition add (x y : num) : num := SFadd prec emax x y.
Definition mul (x y : num) : num := SFmul prec emax x y.
Definition div (x y : num) : num := SFdiv prec emax x y.
Definition ltb (x y : num) : bool := SFltb x y.
Definition leb (x y : num) : bool := SFleb x y.
Definition eqb (x y : num) : bool := SFeqb x y.

Definition zero : num := S754_zero false.

(** The integer of a finite value with a non-negative exponent, or the
    result of [f] applied to the signed mantissa and the (negative)
    exponent. *)
Definition integral (f : Z -> Z -> Z) (x : num) : num :=
  match x with
  | S754_finite s m e =>
      if (0 <=? e)%Z then x
      else
        let n := if s then Z.neg m else Z.pos m in
        let r := f n e in
        if (r =? 0)%Z then S754_zero s else of_Z r
  | _ => x
  end.

(** [Math.floor] *)
Definition floor (x : num) : num :=
  integral (fun n e => Z.shiftr n (- e)) x.

(** [Math.round]: the nearest integer, ties towards +infinity, computed
    exactly as floor(x + 1/2) on the mantissa. *)
Definition round (x : num) : num :=
  integral (fun n e => Z.shiftr (2 * n + Z.shiftl 1 (- e)) (- e + 1)) x.

(** The correctly rounded value of the decimal [n / 10^k] (n >= 0): the
    value of a numeric literal made of digits with [k] of them after the
    point. *)
Definition of_decimal (n : Z) (k : nat) : num :=
  if (n <=? 0)%Z then zero
  else
    let d := (10 ^ Z.of_nat k)%Z in
    let sh := (64 + Z.log2 d + 1)%Z in
    let q := (Z.shiftl n sh / d)%Z in
    let sticky := if (Z.shiftl n sh mod d =? 0)%Z then 0%Z else 1%Z in
    binary_normalize prec emax (2 * q + sticky) (- sh - 1) false.

(** [parseFloat(x)] for a Number argument: the number is converted to its
    shortest round-tripping literal and parsed back, which returns the same
    value except that the sign of a zero is lost. *)
Definition parseFloat_num (x : num) : num :=
  match x with
  | S754_zero _ => zero
  | _ => x
  end.

Definition million : num := of_Z 1000000.

End JsNum.

(** ** The three STX / microSTX conversions *)

(** lib/utils/formatter.ts *)
Module Formatter.
Definition stxToMicroStx (stxAmount : JsNum.num) : JsNum.num :=
  JsNum.floor (JsNum.mul stxAmount JsNum.million).
Definition microStxToStx (microStxAmount : JsNum.num) : JsNum.num :=
  JsNum.div microStxAmount JsNum.million.
End Formatter.

(** lib/utils/validator.js *)
Module ValidatorJs.
Definition stxToMicroStx (stx : JsNum.num) : JsNum.num :=
  JsNum.round (JsNum.mul stx JsNum.million).
Definition microStxToStx (microStx : JsNum.num) : JsNum.num :=
  JsNum.div microStx JsNum.million.
End ValidatorJs.

(** The stacks service ([StacksService]), numeric arguments. *)
Module StacksNum.
Definition microStxToStx (microStx : JsNum.num) : JsNum.num :=
  JsNum.div (JsNum.parseFloat_num microStx) JsNum.million.
Definition stxToMicroStx (stx : JsNum.num) : JsNum.num :=
  JsNum.floor (JsNum.mul (JsNum.parseFloat_num stx) JsNum.million).
End StacksNum.

(** ** Regular expressions with JavaScript's backtracking semantics *)

Module Regex.

Inductive regex : Type :=
| REps
| RChr (p : N -> bool)                       (* one code unit satisfying p *)
| RSeq (a b : regex)
| RAlt (a b : regex)
| RRep (lo : nat) (hi : option nat) (greedy : bool) (r : regex)
| RGroup (i : nat) (r : regex)               (* capturing group number i *)
| RBol                                       (* ^ *)
| REol.                                      (* $ *)

Definition caps := list (nat * jsstring).

Fixpoint cap_get (i : nat) (c : caps) : option jsstring :=
  match c with
  | [] => None
  | (j, s) :: c' => if Nat.eqb i j then Some s else cap_get i c'
  end.

Definition below (n : nat) (hi : option nat) : bool :=
  match hi with
  | None => true
  | Some h => Nat.ltb n h
  end.

Definition orelse {A} (x : option A) (y : option A) : option A :=
  match x with Some _ => x | None => y end.

(** One quantifier [r{lo,hi}]: [n] iterations are done; a greedy quantifier
    tries one more iteration first, a lazy one stops first; an iteration
    beyond the minimum that consumes nothing is rejected.  [mr] matches the
    quantified expression. *)
Fixpoint rep_loop {R}
    (mr : nat -> jsstring -> caps -> (nat -> jsstring -> caps -> option R) -> option R)
    (lo : nat) (hi : option nat) (greedy : bool)
    (k : nat -> jsstring -> caps -> option R)
    (fuel n : nat) (pos : nat) (s : jsstring) (c : caps) {struct fuel} : option R :=
  let stop := if Nat.leb lo n then k pos s c else None in
  let more :=
    match fuel with
    | O => None
    | S fuel' =>
        if below n hi then
          mr pos s c (fun pos' s' c' =>
            if Nat.ltb (length s') (length s) || Nat.ltb n lo
            then rep_loop mr lo hi greedy k fuel' (S n) pos' s' c'
            else None)
        else None
    end in
  if greedy then orelse more stop else orelse stop more.

(** [rmatch r pos s caps k]: match [r] at the head of [s], which starts at
    index [pos] of the subject, and continue with [k] on what remains;
    [None] makes the matcher backtrack.  Alternatives are tried left to
    right. *)
Fixpoint rmatch {R} (r : regex) (pos : nat) (s : jsstring) (c : caps)
    (k : nat -> jsstring -> caps -> option R) {struct r} : option R :=
  match r with
  | REps => k pos s c
  | RChr p =>
      match s with
      | x :: s' => if p x then k (S pos) s' c else None
      | [] => None
      end
  | RSeq a b => rmatch a pos s c (fun pos' s' c' => rmatch b pos' s' c' k)
  | RAlt a b => orelse (rmatch a pos s c k) (rmatch b pos s c k)
  | RRep lo hi greedy r' =>
      rep_loop (rmatch r') lo hi greedy k (S (length s + lo)) O pos s c
  | RGroup i r' =>
      rmatch r' pos s c (fun pos' s' c' =>
        k pos' s' ((i, firstn (pos' - pos) s) :: c'))
  | RBol => if Nat.eqb pos 0 then k pos s c else None
  | REol => match s with [] => k pos s c | _ :: _ => None end
  end.

Record result := mkResult {
  r_index : nat;             (* where the match starts *)
  r_whole : jsstring;        (* match[0] *)
  r_caps : caps;             (* the capturing groups *)
}.

Definition match_at (r : regex) (subject : jsstring) (i : nat) : option result :=
  let s := skipn i subject in
  rmatch r i s [] (fun pos' _ c => Some (mkResult i (firstn (pos' - i) s) c)).

Fixpoint search (r : regex) (subject : jsstring) (i : nat) (fuel : nat)
  : option result :=
  match match_at r subject i with
  | Some res => Some res
  | None => match fuel with
            | O => None
            | S fuel' => search r subject (S i) fuel'
            end
  end.

(** [subject.match(r)] / [r.exec(subject)] for a regex without the g flag:
    the leftmost match. *)
Definition exec (r : regex) (subject : jsstring) : option result :=
  search r subject 0 (length subject).

(** [r.test(subject)] *)
Definition test (r : regex) (subject : jsstring) : bool :=
  match exec r subject with Some _ => true | None => false end.

Definition group (i : nat) (res : result) : jsstring :=
  match cap_get i (r_caps res) with Some s => s | None => [] end.

(** Atoms *)
Definition is_digit (c : N) : bool := ((48 <=? c) && (c <=? 57))%N.
(** [.] matches anything but the line terminators. *)
Definition is_dot (c : N) : bool :=
  negb ((c =? 10) || (c =? 13) || (c =? 8232) || (c =? 8233))%N.
(** [[0-9A-Z]] *)
Definition is_upper_alnum (c : N) : bool :=
  (((48 <=? c) && (c <=? 57)) || ((65 <=? c) && (c <=? 90)))%N.
Definition is_lit (x : N) (c : N) : bool := N.eqb x c.
(** A literal letter under the [i] flag: both cases of an ASCII letter. *)
Definition is_lit_ci (x : N) (c : N) : bool :=
  N.eqb (lower_cu x) (if (c <? 128)%N then lower_cu c else c).

Fixpoint rcat (rs : list regex) : regex :=
  match rs with
  | [] => REps
  | [r] => r
  | r :: rs' => RSeq r (rcat rs')
  end.

Definition lit (s : jsstring) : regex := rcat (map (fun x => RChr (is_lit x)) s).
Definition lit_ci (s : jsstring) : regex := rcat (map (fun x => RChr (is_lit_ci x)) s).
Definition plus (r : regex) : regex := RRep 1 None true r.
Definition lazy_plus (r : regex) : regex := RRep 1 None false r.
Definition star (r : regex) : regex := RRep 0 None true r.
Definition opt (r : regex) : regex := RRep 0 (Some 1) true r.
Definition rep (lo hi : nat) (r : regex) : regex := RRep lo (Some hi) true r.
Definition ws : regex := RChr is_ws.
Definition digit : regex := RChr is_digit.
Definition dot : regex := RChr is_dot.

End Regex.
Import Regex.

(** The amount group [(\d+(?:\.\d+)?)] of the command patterns. *)
Definition amount_token : regex :=
  RGroup 1 (rcat [plus digit; opt (rcat [RChr (is_lit 46); plus digit])]).

(** [/send\s+(\d+(?:\.\d+)?)\s*(?:stx)?\s+to\s+(.+)/i] of [handleSend] *)
Definition re_send : regex :=
  rcat [ lit_ci (js "send"); plus ws; amount_token;
        star ws; opt (lit_ci (js "stx")); plus ws; lit_ci (js "to"); plus ws;
        RGroup 2 (plus dot) ].

(** [parseFloat] / [parseInt] on a token of digits with an optional
    fraction, which is all the command patterns let through. *)
Fixpoint digits_value (acc : Z) (s : jsstring) : Z * jsstring :=
  match s with
  | c :: s' =>
      if is_digit c then digits_value (10 * acc + Z.of_N (c - 48)) s'
      else (acc, s)
  | [] => (acc, [])
  end.

Fixpoint count_digits (s : jsstring) : nat :=
  match s with
  | c :: s' => if is_digit c then S (count_digits s') else O
  | [] => O
  end.

Definition nan : JsNum.num := S754_nan.

Definition parseFloat (tok : jsstring) : JsNum.num :=
  match count_digits tok with
  | O => nan
  | S _ =>
      let '(n, rest) := digits_value 0 tok in
      match rest with
      | 46%N :: frac =>
          let '(m, _) := digits_value n frac in
          JsNum.of_decimal m (count_digits frac)
      | _ => JsNum.of_decimal n 0
      end
  end.

Definition parseInt (tok : jsstring) : JsNum.num :=
  match count_digits tok with
  | O => nan
  | S _ => JsNum.of_decimal (fst (digits_value 0 tok)) 0
  end.

(** ** lib/utils/validator.ts, lib/utils/parser.ts, lib/utils/validator.js *)

Definition re_address_body (lo hi : nat) : regex := rep lo hi (RChr is_upper_alnum).

Module ValidatorTs.

(** [/^(SP|ST)[0-9A-Z]{38,40}$/] *)
Definition stxRegex : regex :=
  rcat [RBol; RAlt (lit (js "SP")) (lit (js "ST")); re_address_body 38 40; REol].

Definition isValidSTXAddress (address : jsstring) : bool := test stxRegex address.

(** [/^\+234\d{10}$/] *)
Definition phoneRegex : regex :=
  rcat [RBol; lit (js "+234"); rep 10 10 digit; REol].

Definition isValidPhoneNumber (phone : jsstring) : bool := test phoneRegex phone.

End ValidatorTs.

Module ParserTs.

Record SendCommandResult := {
  amount : JsNum.num;
  contactName : jsstring;
  originalMessage : jsstring;
}.

(** [/^send\s+(\d+(?:\.\d+)?)\s+to\s+(.+)$/i] and
    [/^send\s+(\d+(?:\.\d+)?)\s+stx\s+to\s+(.+)$/i] *)
Definition sendPatterns : list regex :=
  [ rcat [RBol; lit_ci (js "send"); plus ws; amount_token; plus ws;
         lit_ci (js "to"); plus ws; RGroup 2 (plus dot); REol];
    rcat [RBol; lit_ci (js "send"); plus ws; amount_token; plus ws;
         lit_ci (js "stx"); plus ws; lit_ci (js "to"); plus ws;
         RGroup 2 (plus dot); REol] ].

Fixpoint first_match (ps : list regex) (subject : jsstring) : option result :=
  match ps with
  | [] => None
  | p :: ps' =>
      match exec p subject with
      | Some res => Some res
      | None => first_match ps' subject
      end
  end.

Definition parseSendCommand (message : jsstring) : option SendCommandResult :=
  match first_match sendPatterns (trim message) with
  | Some m =>
      Some {| amount := parseFloat (group 1 m);
              contactName := trim (group 2 m);
              originalMessage := trim message |}
  | None => None
  end.

(** [/(SP|ST)[0-9A-Z]{38,40}/] *)
Definition stxAddressPattern : regex :=
  rcat [RAlt (lit (js "SP")) (lit (js "ST")); re_address_body 38 40].

Definition isRegistrationMessage (message : jsstring) : option jsstring :=
  let trimmedMessage := trim message in
  if ValidatorTs.isValidSTXAddress trimmedMessage then Some trimmedMessage
  else
    match exec stxAddressPattern trimmedMessage with
    | Some m =>
        if ValidatorTs.isValidSTXAddress (r_whole m) then Some (r_whole m)
        else None
    | None => None
    end.

Definition parseYesNo (message : jsstring) : option bool :=
  let normalized := toLowerCase (trim message) in
  if existsb (str_eqb normalized)
       (map js ["yes"; "y"; "yeah"; "yep"; "sure"; "ok"; "okay"])%string
  then Some true
  else if existsb (str_eqb normalized) (map js ["no"; "n"; "nope"; "nah"])%string
  then Some false
  else None.

Definition isHelpCommand (message : jsstring) : bool :=
  let normalized := toLowerCase (trim message) in
  existsb (str_eqb normalized)
    (map js ["help"; "commands"; "what can you do"; "?"; "menu"])%string.

End ParserTs.

Module ValidatorJsAddr.

Inductive AddressCheck :=
| AddressValid
| AddressRequired
| AddressBadLength (n : nat)
| AddressBadPrefix
| AddressBadChars.

(** [/^[0-9A-Z]+$/] *)
Definition alphanumericRegex : regex :=
  rcat [RBol; plus (RChr is_upper_alnum); REol].

(** [validateStxAddress], applied to a string. *)
Definition validateStxAddress (address : jsstring) : AddressCheck :=
  match address with
  | [] => AddressRequired
  | _ =>
      let cleanAddress := trim address in
      if negb (Nat.eqb (length cleanAddress) 41) then
        AddressBadLength (length cleanAddress)
      else if negb (startsWith cleanAddress (js "SP"))
              && negb (startsWith cleanAddress (js "ST")) then
        AddressBadPrefix
      else if negb (test alphanumericRegex (skipn 2 cleanAddress)) then
        AddressBadChars
      else AddressValid
  end.

Definition valid (c : AddressCheck) : bool :=
  match c with AddressValid => true | _ => false end.

(** [validatePhone] on a string: [/^\+234\d{10}$/]. *)
Definition validatePhone (phone : jsstring) : bool :=
  match phone with
  | [] => false
  | _ => test ValidatorTs.phoneRegex phone
  end.

End ValidatorJsAddr.

(** ** Dynamically typed values *)

#[warnings="-register-all"]
Inductive JsVal : Type :=
| JUndef
| JNull
| JBool (b : bool)
| JNum (x : JsNum.num)
| JStr (s : jsstring)
| JObj (fields : list (jsstring * JsVal)).

(** Errors thrown by the services and handlers; [EWrap] is the
    [new Error(`<context>: ${error.message}`)] re-throw of a catch block. *)
Inductive Context :=
| CtxGetContact | CtxAddContact | CtxCreateTransaction | CtxSendTransaction
| CtxCreateEscrow | CtxReleaseEscrow | CtxRefundEscrow | CtxCancelEscrow
| CtxUpdateEscrowStatus | CtxGetBalance | CtxGetAccountInfo
| CtxGetContacts | CtxRecordTransaction | CtxGetTransactions
| CtxSaveEscrow | CtxGetEscrows.

Inductive Error : Type :=
| ETypeError                                 (* access through undefined/null, or a missing method *)
| ERecipientNotFound (token : jsstring)
| EMissingFields
| EInvalidStxAddress
| EContactExists (name : jsstring)
| EPrivateKeyMissing
| EInvalidSenderAddress
| EInvalidRecipientAddress
| EAmountNotPositive
| EBroadcastFailed (reason : JsVal)
| ERefundNotAllowed
| EExternal                                  (* a failure of the chain API or of the signing library *)
| EDatabase
| EWrap (ctx : Context) (e : Error).

Inductive Res (A : Type) : Type :=
| Ok (a : A)
| Throw (e : Error).
Arguments Ok {A} a.
Arguments Throw {A} e.

Fixpoint field (k : jsstring) (fs : list (jsstring * JsVal)) : JsVal :=
  match fs with
  | [] => JUndef
  | (k', v) :: fs' => if str_eqb k k' then v else field k fs'
  end.

(** [v.k]: a [TypeError] on [undefined] and [null], [undefined] for a
    missing property (and for the properties of primitives the code reads). *)
Definition get (v : JsVal) (k : string) : Res JsVal :=
  match v with
  | JUndef | JNull => Throw ETypeError
  | JObj fs => Ok (field (js k) fs)
  | _ => Ok JUndef
  end.

Definition is_nan (x : JsNum.num) : bool :=
  match x with S754_nan => true | _ => false end.
Definition is_zero (x : JsNum.num) : bool :=
  match x with S754_zero _ => true | _ => false end.

(** ToBoolean *)
Definition truthy (v : JsVal) : bool :=
  match v with
  | JUndef | JNull => false
  | JBool b => b
  | JNum x => negb (is_nan x || is_zero x)
  | JStr s => match s with [] => false | _ => true end
  | JObj _ => true
  end.

(** [a === b]; two object values are never the same reference here. *)
Definition strict_eq (a b : JsVal) : bool :=
  match a, b with
  | JUndef, JUndef => true
  | JNull, JNull => true
  | JBool x, JBool y => Bool.eqb x y
  | JNum x, JNum y => JsNum.eqb x y
  | JStr x, JStr y => str_eqb x y
  | _, _ => false
  end.

Definition obj (fs : list (string * JsVal)) : JsVal :=
  JObj (map (fun '(k, v) => (js k, v)) fs).

Definition jstr (s : string) : JsVal := JStr (js s).

(** The [i]-th argument of a call: [undefined] when it was not passed. *)
Definition arg (i : nat) (args : list JsVal) : JsVal := nth i args JUndef.

(** A parameter with a default value ([p = d]). *)
Definition default_param (d : JsVal) (v : JsVal) : JsVal :=
  match v with JUndef => d | _ => v end.

(** ** Replies *)

(** The texts sent to the user, one constructor per message template of the
    handlers (the wording is not modelled). *)
Inductive EscrowAction := ActRelease | ActRefund | ActCancel.

Inductive Reply : Type :=
| R_NeedRegister
| R_HandlerError (e : Error)                (* "Error: <message>" *)
| R_Fail (e : Error)                        (* "<message>" *)
| R_Balance (available : JsNum.num)
| R_BalanceFailed
| R_HistoryEmpty
| R_History (n : nat)
| R_HistoryFailed
| R_ContactList (n : nat)
| R_ContactsFailed
| R_AddContactFormat
| R_InvalidAddress
| R_ContactAdded (name : jsstring) (address : jsstring)
| R_SendFormat
| R_AmountNotPositive
| R_Insufficient (have need : JsNum.num)
| R_ConfirmPayment (amount : JsNum.num) (recipient : JsVal)
| R_PaymentCancelled
| R_ReplyYesNo
| R_Processing
| R_PaymentSent (amount : JsVal) (txId : JsVal)
| R_PaymentReceived (amount : JsVal) (from : jsstring)
| R_PaymentFailed (e : Error)
| R_EscrowFormat
| R_ConfirmEscrow (amount : JsNum.num) (recipient : JsVal) (timeoutBlocks : JsNum.num)
| R_ActionFormat (a : EscrowAction)
| R_EscrowNotFound (id : JsNum.num)
| R_NotFoundOrNotSender (a : EscrowAction) (id : JsNum.num)
| R_NotAuthorizedRelease
| R_EscrowNotActive (a : EscrowAction) (status : JsVal)
| R_TimeoutNotReached (id : JsNum.num)
| R_ConfirmAction (a : EscrowAction) (id : JsNum.num)
| R_StatusFormat
| R_EscrowStatus (id : JsNum.num) (status : JsVal)
| R_NoEscrows
| R_EscrowList (n : nat)
| R_ListFailed
| R_Cancelled
| R_CreatingEscrow
| R_EscrowCreated (txId : JsVal)
| R_EscrowReceived (from : jsstring)
| R_CreateFailed (e : Error)
| R_ActionInProgress (a : EscrowAction)
| R_ActionDone (a : EscrowAction) (id : JsVal) (txId : JsVal)
| R_ActionFailed (a : EscrowAction) (e : Error)
| R_Help (registered : bool)
| R_UnknownCommand
| R_SomethingWrong
| R_RegError (text : string)
| R_RegistrationPrompt
| R_Welcome (address : jsstring)
| R_RegistrationCancelled.

(** What a handler returns: [null], [{ success: true }] (possibly with a
    message) or [{ success: false, message }]. *)
Inductive HandlerResult : Type :=
| HNull
| HSuccess
| HFailure (message : Reply).

(** ** The record store, the outbox and the chain *)

Record UserRow := {
  u_phone_number : jsstring;
  u_stx_address : jsstring;
  u_created_at : Z;
}.

Record ContactRow := {
  c_id : Z;
  c_user_phone : jsstring;
  c_contact_name : jsstring;
  c_contact_stx_address : jsstring;
  c_contact_phone : JsVal;
}.

Record StateRow := {
  s_state_type : JsVal;
  s_state_data : JsVal;
  s_created_at : Z;
  s_expires_at : Z;
}.

Record EscrowRow := {
  e_id : Z;
  e_sender_phone : JsVal;
  e_sender_stx_address : JsVal;
  e_recipient_phone : JsVal;
  e_recipient_stx_address : JsVal;
  e_amount_microstx : JsVal;
  e_timeout_blocks : JsVal;
  e_memo : JsVal;
  e_tx_id : JsVal;
  e_contract_escrow_id : JsVal;
  e_status : JsVal;
  e_release_tx_id : JsVal;
}.

Record TransactionRow := {
  t_tx_id : JsVal;
  t_sender_phone : JsVal;
  t_recipient_phone : JsVal;
  t_sender_address : JsVal;
  t_recipient_address : JsVal;
  t_amount_micro_stx : JsVal;
  t_fee_micro_stx : JsVal;
  t_memo : JsVal;
  t_status : JsVal;
}.

(** A transaction handed to the network. *)
Inductive ChainTx : Type :=
| TxTransfer (senderKey recipient amount memo nonce fee : JsVal)
| TxContractCall (functionName : string) (args : list JsVal)
    (senderKey nonce : JsVal).

Record World := {
  users : list UserRow;
  contacts : list ContactRow;
  conversation_states : gmap jsstring StateRow;
  escrows : list EscrowRow;               (* newest first *)
  transactions : list TransactionRow;
  outbox : list (jsstring * Reply);         (* messages handed to Twilio *)
  chain : list ChainTx;                   (* transactions the network accepted *)
  now : Z;                                (* the clock, in milliseconds *)
}.

(** The answers of the collaborators outside the repository. *)
Record Env := {
  (* process.env.STACKS_NETWORK || 'mainnet', as read by the stacks service *)
  env_network : jsstring;
  (* GET /extended/v1/address/<a>/balances: balanceStx, or a failure *)
  env_balance : JsVal -> option JsNum.num;
  (* GET /v2/fees/transaction: estimated_cost and its value in STX *)
  env_fee : option (JsVal * JsNum.num);
  (* GET /v2/accounts/<a>: the nonce, or a failure *)
  env_nonce : JsVal -> option JsVal;
  (* makeSTXTokenTransfer / makeContractCall: false when they throw *)
  env_build : ChainTx -> bool;
  (* broadcastTransaction: the response object, or a thrown failure *)
  env_broadcast : ChainTx -> option JsVal;
  (* the read-only call can-refund: its unwrapped value, or a failure *)
  env_can_refund : JsVal -> option JsVal;
  (* whether the Twilio client accepts the message (true when simulated) *)
  env_twilio : jsstring -> bool;
  (* ToNumber on a string *)
  env_string_to_number : jsstring -> JsNum.num;
  (* Number::toString *)
  env_number_to_string : JsNum.num -> jsstring;
}.

(** ** The monad of service code: state passing with exceptions *)

Definition M (A : Type) : Type := World -> Res A * World.

Definition ret {A} (a : A) : M A := fun w => (Ok a, w).
Definition throw {A} (e : Error) : M A := fun w => (Throw e, w).
Definition bind {A B} (m : M A) (k : A -> M B) : M B :=
  fun w => match m w with
           | (Ok a, w') => k a w'
           | (Throw e, w') => (Throw e, w')
           end.
(** [try { body } catch (error) { handler }] *)
Definition try_catch {A} (body : M A) (handler : Error -> M A) : M A :=
  fun w => match body w with
           | (Ok a, w') => (Ok a, w')
           | (Throw e, w') => handler e w'
           end.
Definition lift {A} (r : Res A) : M A := fun w => (r, w).
Definition read {A} (f : World -> A) : M A := fun w => (Ok (f w), w).
Definition update (f : World -> World) : M unit := fun w => (Ok tt, f w).

Notation "'let*' x ':=' m 'in' k" := (bind m (fun x => k))
  (at level 10, x pattern, m at level 100, k at level 200).
Notation "m ';;' k" := (bind m (fun _ => k))
  (at level 100, k at level 200, right associativity).

Definition set_users (f : list UserRow -> list UserRow) (w : World) : World :=
  {| users := f (users w); contacts := contacts w;
     conversation_states := conversation_states w; escrows := escrows w;
     transactions := transactions w; outbox := outbox w; chain := chain w;
     now := now w |}.
Definition set_contacts (f : list ContactRow -> list ContactRow) (w : World) : World :=
  {| users := users w; contacts := f (contacts w);
     conversation_states := conversation_states w; escrows := escrows w;
     transactions := transactions w; outbox := outbox w; chain := chain w;
     now := now w |}.
Definition set_states (f : gmap jsstring StateRow -> gmap jsstring StateRow)
    (w : World) : World :=
  {| users := users w; contacts := contacts w;
     conversation_states := f (conversation_states w); escrows := escrows w;
     transactions := transactions w; outbox := outbox w; chain := chain w;
     now := now w |}.
Definition set_escrows (f : list EscrowRow -> list EscrowRow) (w : World) : World :=
  {| users := users w; contacts := contacts w;
     conversation_states := conversation_states w; escrows := f (escrows w);
     transactions := transactions w; outbox := outbox w; chain := chain w;
     now := now w |}.
Definition set_transactions (f : list TransactionRow -> list TransactionRow)
    (w : World) : World :=
  {| users := users w; contacts := contacts w;
     conversation_states := conversation_states w; escrows := escrows w;
     transactions := f (transactions w); outbox := outbox w; chain := chain w;
     now := now w |}.
Definition set_outbox (f : list (jsstring * Reply) -> list (jsstring * Reply))
    (w : World) : World :=
  {| users := users w; contacts := contacts w;
     conversation_states := conversation_states w; escrows := escrows w;
     transactions := transactions w; outbox := f (outbox w); chain := chain w;
     now := now w |}.
Definition set_chain (f : list ChainTx -> list ChainTx) (w : World) : World :=
  {| users := users w; contacts := contacts w;
     conversation_states := conversation_states w; escrows := escrows w;
     transactions := transactions w; outbox := outbox w; chain := f (chain w);
     now := now w |}.

(** ** The bindings of the imports *)

Record Linking := {
  (* [userService.getByPhone] in the payment and escrow handlers and in the
     webhook: the method, when the binding has one *)
  userService_getByPhone : option (World -> JsVal -> Res JsVal);
  (* whether [stateService] and [whatsappService] there have the methods
     of the services *)
  stateService_methods : bool;
  whatsappService_methods : bool;
  (* whether [databaseService.client] is a Supabase client *)
  databaseService_client : bool;
  (* whether [callReadOnlyFunction] is a function *)
  callReadOnlyFunction_defined : bool;
}.

(** The repository: the three service names are bound to classes, which
    have no static methods; [databaseService.client] and
    [callReadOnlyFunction] are [undefined]. *)
Definition as_written : Linking := {|
  userService_getByPhone := None;
  stateService_methods := false;
  whatsappService_methods := false;
  databaseService_client := false;
  callReadOnlyFunction_defined := false;
|}.

(** The names bound to the service objects, the client and the read-only
    call of @stacks/transactions, with [getByPhone] as the user lookup. *)
Definition linked (getByPhone : World -> JsVal -> Res JsVal) : Linking := {|
  userService_getByPhone := Some getByPhone;
  stateService_methods := true;
  whatsappService_methods := true;
  databaseService_client := true;
  callReadOnlyFunction_defined := true;
|}.

(** [databaseService.client.from(table)...]: the request [q] when the
    client is there, the TypeError of a property read on [undefined] when
    it is not. *)
Definition through_client {A} (L : Linking) (q : M A) : M A :=
  if databaseService_client L then q else throw ETypeError.

(** ** Services *)

(** *** whatsapp.service.js *)

Definition sendMessage (E : Env) (to : JsVal) (message : Reply) : M unit :=
  match to with
  | JStr p =>
      if test ValidatorTs.phoneRegex p then
        if env_twilio E p then update (set_outbox (fun o => o ++ [(p, message)]))
        else ret tt
      else ret tt
  | _ => ret tt                       (* [to.match] throws; the error is caught *)
  end.

(** *** state.service.js *)

Module StateService.

Definition success : JsVal := obj [("success", JBool true)].

(** [setState(phoneNumber, stateType, stateData = {})]: an upsert of the
    user's row, expiring ten minutes from now. *)
Definition setState (phoneNumber : jsstring) (stateType stateData : JsVal) : M JsVal :=
  fun w =>
    let created :=
      match conversation_states w !! phoneNumber with
      | Some r => s_created_at r
      | None => now w
      end in
    (Ok success,
     set_states (insert phoneNumber
       {| s_state_type := stateType; s_state_data := stateData;
          s_created_at := created; s_expires_at := (now w + 600000)%Z |}) w).

(** A call [stateService.setState(phoneNumber, ...args)]: the parameters
    are bound in order, surplus arguments are ignored. *)
Definition setState_call (phoneNumber : jsstring) (args : list JsVal) : M JsVal :=
  setState phoneNumber (arg 0 args) (default_param (JObj []) (arg 1 args)).

Definition active (w : World) (phoneNumber : jsstring) : option StateRow :=
  match conversation_states w !! phoneNumber with
  | Some r => if (now w <? s_expires_at r)%Z then Some r else None
  | None => None
  end.

Definition no_state : JsVal :=
  obj [("success", JBool false); ("error", jstr "No active state found")].

Definition getState (phoneNumber : jsstring) : M JsVal :=
  read (fun w =>
    match active w phoneNumber with
    | Some r =>
        obj [("success", JBool true);
             ("state", obj [("phoneNumber", JStr phoneNumber);
                            ("stateType", s_state_type r);
                            ("stateData", s_state_data r);
                            ("createdAt", JNum (JsNum.of_Z (s_created_at r)));
                            ("expiresAt", JNum (JsNum.of_Z (s_expires_at r)))])]
    | None => no_state
    end).

Definition clearState (phoneNumber : jsstring) : M JsVal :=
  fun w => (Ok success, set_states (delete phoneNumber) w).

Definition hasActiveState (phoneNumber : jsstring) : M bool :=
  let* result := getState phoneNumber in
  let* s := lift (get result "success") in
  ret (truthy s).

End StateService.

(** *** user.service.js *)

Module UserService.

Definition mapToUser (row : UserRow) : JsVal :=
  obj [("phoneNumber", JStr (u_phone_number row));
       ("stxAddress", JStr (u_stx_address row));
       ("createdAt", JNum (JsNum.of_Z (u_created_at row)));
       ("updatedAt", JNum (JsNum.of_Z (u_created_at row)))].

Definition phone_is (phoneNumber : JsVal) (row : UserRow) : bool :=
  strict_eq (JStr (u_phone_number row)) phoneNumber.

Definition address_is (stxAddress : JsVal) (row : UserRow) : bool :=
  strict_eq (JStr (u_stx_address row)) stxAddress.

Definition not_found : JsVal :=
  obj [("success", JBool false); ("error", jstr "User not found")].

(** [getByPhone]: always a result object, [{ success, user }] or
    [{ success: false, error }]. *)
Definition getByPhone (w : World) (phoneNumber : JsVal) : Res JsVal :=
  match List.filter (phone_is phoneNumber) (users w) with
  | [row] => Ok (obj [("success", JBool true); ("user", mapToUser row)])
  | _ => Ok not_found
  end.

Definition exists_ (phoneNumber : jsstring) : M bool :=
  read (fun w =>
    match List.filter (phone_is (JStr phoneNumber)) (users w) with
    | [_] => true
    | _ => false
    end).

Definition addressExists (stxAddress : jsstring) : M bool :=
  read (fun w =>
    match List.filter (address_is (JStr stxAddress)) (users w) with
    | [_] => true
    | _ => false
    end).

(** [create]: the insert fails on the unique constraints of the table. *)
Definition create (phoneNumber stxAddress : jsstring) : M JsVal :=
  fun w =>
    if existsb (phone_is (JStr phoneNumber)) (users w) then
      (Ok (obj [("success", JBool false);
                ("error", jstr "Phone number already registered")]), w)
    else if existsb (address_is (JStr stxAddress)) (users w) then
      (Ok (obj [("success", JBool false);
                ("error", jstr "STX address already registered")]), w)
    else
      let row := {| u_phone_number := phoneNumber; u_stx_address := stxAddress;
                    u_created_at := now w |} in
      (Ok (obj [("success", JBool true); ("user", mapToUser row)]),
       set_users (fun us => us ++ [row]) w).

End UserService.

(** *** stacks.service.js *)

Module StacksService.

(** [/^SP[0-9A-Z]{38,41}$/] and [/^ST[0-9A-Z]{38,41}$/] *)
Definition mainnetRegex : regex :=
  rcat [RBol; lit (js "SP"); re_address_body 38 41; REol].
Definition testnetRegex : regex :=
  rcat [RBol; lit (js "ST"); re_address_body 38 41; REol].

(** [regex.test(address)]: only a string can match, the string forms of the
    other values do not start with SP or ST. *)
Definition isValidAddress (E : Env) (address : JsVal) : bool :=
  match address with
  | JStr a =>
      if str_eqb (env_network E) (js "mainnet") then test mainnetRegex a
      else test testnetRegex a
  | _ => false
  end.

Definition getBalance (E : Env) (address : JsVal) : M JsNum.num :=
  match env_balance E address with
  | Some b => ret b
  | None => throw (EWrap CtxGetBalance EExternal)
  end.

(** [estimateFee]: (medium, mediumStx), the defaults when the API fails. *)
Definition estimateFee (E : Env) : JsVal * JsNum.num :=
  match env_fee E with
  | Some f => f
  | None => (JNum (JsNum.of_Z 250), JsNum.of_decimal 25 5)
  end.

Definition getAccountInfo_nonce (E : Env) (address : JsVal) : M JsVal :=
  match env_nonce E address with
  | Some n => ret n
  | None => throw (EWrap CtxGetAccountInfo EExternal)
  end.

End StacksService.

(** ToNumber, and [v <= 0]. *)
Definition toNumber (E : Env) (v : JsVal) : JsNum.num :=
  match v with
  | JUndef => nan
  | JNull => JsNum.zero
  | JBool b => if b then JsNum.of_Z 1 else JsNum.zero
  | JNum x => x
  | JStr s => env_string_to_number E s
  | JObj _ => nan
  end.

(** ToString, as a template literal applies it; the objects here are plain
    objects. *)
Definition to_string (E : Env) (v : JsVal) : jsstring :=
  match v with
  | JUndef => js "undefined"
  | JNull => js "null"
  | JBool b => if b then js "true" else js "false"
  | JNum x => env_number_to_string E x
  | JStr s => s
  | JObj _ => js "[object Object]"
  end.

Definition le_zero (E : Env) (v : JsVal) : bool :=
  JsNum.leb (toNumber E v) JsNum.zero.

(** [v.substring(...)] is only defined on strings. *)
Definition need_string (v : JsVal) : Res unit :=
  match v with
  | JStr _ => Ok tt
  | _ => Throw ETypeError
  end.

(** *** contact.service.js *)

Module ContactService.

Definition ci_eq (a b : N) : bool := N.eqb (lower_cu a) (lower_cu b).

(** [column ILIKE pattern]: [%] (written [*] as well in a PostgREST filter)
    stands for any run of characters, [_] for any one character, a
    backslash makes the next character literal; the comparison ignores
    case. *)
Fixpoint ilike (pattern : jsstring) : jsstring -> bool :=
  match pattern with
  | [] => fun s => match s with [] => true | _ :: _ => false end
  | c :: p' =>
      if ((c =? 37) || (c =? 42))%N then
        fix any (s : jsstring) : bool :=
          ilike p' s || match s with [] => false | _ :: s' => any s' end
      else if (c =? 95)%N then
        fun s => match s with _ :: s' => ilike p' s' | [] => false end
      else if (c =? 92)%N then
        match p' with
        | c2 :: p'' =>
            fun s => match s with
                     | x :: s' => ci_eq c2 x && ilike p'' s'
                     | [] => false
                     end
        | [] => fun _ => false
        end
      else
        fun s => match s with
                 | x :: s' => ci_eq c x && ilike p' s'
                 | [] => false
                 end
  end.

(** A pattern may not end in an unfinished escape. *)
Fixpoint pattern_ok (pattern : jsstring) : bool :=
  match pattern with
  | [] => true
  | c :: p' =>
      if (c =? 92)%N then
        match p' with
        | _ :: p'' => pattern_ok p''
        | [] => false
        end
      else pattern_ok p'
  end.

Definition contact_js (row : ContactRow) : JsVal :=
  obj [("id", JNum (JsNum.of_Z (c_id row)));
       ("user_phone", JStr (c_user_phone row));
       ("contact_name", JStr (c_contact_name row));
       ("contact_stx_address", JStr (c_contact_stx_address row));
       ("contact_phone", c_contact_phone row)].

(** [getContactByName]: [.eq('user_phone', userPhone).ilike('contact_name',
    normalizedName).single()]; no row or several rows give [null]. *)
Definition getContactByName (L : Linking) (userPhone contactName : jsstring)
  : M (option ContactRow) :=
  try_catch
    (let normalizedName := normalizeContactName contactName in
     through_client L
       (if pattern_ok normalizedName then
          read (fun w =>
            match List.filter (fun row =>
                    str_eqb (c_user_phone row) userPhone
                    && ilike normalizedName (c_contact_name row)) (contacts w) with
            | [row] => Some row
            | _ => None
            end)
        else throw EDatabase))
    (fun e => throw (EWrap CtxGetContact e)).

Definition getContacts (L : Linking) (userPhone : jsstring) : M (list ContactRow) :=
  try_catch
    (through_client L
       (read (fun w =>
          List.filter (fun row => str_eqb (c_user_phone row) userPhone) (contacts w))))
    (fun e => throw (EWrap CtxGetContacts e)).

Definition next_id (rows : list ContactRow) : Z :=
  fold_right (fun row acc => Z.max (c_id row + 1) acc) 1%Z rows.

Definition addContact (E : Env) (L : Linking)
    (userPhone contactName contactStxAddress : jsstring)
    (contactPhone : JsVal) : M ContactRow :=
  try_catch
    (match userPhone, contactName, contactStxAddress with
     | _ :: _, _ :: _, _ :: _ =>
         if negb (StacksService.isValidAddress E (JStr contactStxAddress)) then
           throw EInvalidStxAddress
         else
           let normalizedName := normalizeContactName contactName in
           let* existing := getContactByName L userPhone normalizedName in
           match existing with
           | Some _ => throw (EContactExists normalizedName)
           | None =>
               through_client L
                 (fun w =>
                    let row := {| c_id := next_id (contacts w);
                                  c_user_phone := userPhone;
                                  c_contact_name := normalizedName;
                                  c_contact_stx_address := contactStxAddress;
                                  c_contact_phone := contactPhone |} in
                    (Ok row, set_contacts (fun cs => cs ++ [row]) w))
           end
     | _, _, _ => throw EMissingFields
     end)
    (fun e => throw (EWrap CtxAddContact e)).

(** [resolveRecipient]: an address is taken as it is, anything else is
    looked up among the user's contacts. *)
Definition resolveRecipient (E : Env) (L : Linking) (userPhone nameOrAddress : jsstring)
  : M JsVal :=
  try_catch
    (if StacksService.isValidAddress E (JStr nameOrAddress) then
       ret (obj [("type", jstr "address"); ("address", JStr nameOrAddress);
                 ("name", JNull); ("isContact", JBool false)])
     else
       let* contact := getContactByName L userPhone nameOrAddress in
       match contact with
       | Some c =>
           ret (obj [("type", jstr "contact");
                     ("address", JStr (c_contact_stx_address c));
                     ("name", JStr (c_contact_name c));
                     ("phone", c_contact_phone c);
                     ("isContact", JBool true);
                     ("contactId", JNum (JsNum.of_Z (c_id c)))])
       | None => throw (ERecipientNotFound nameOrAddress)
       end)
    (fun e => throw e).

End ContactService.

(** *** The network *)

(** A broadcast response without a truthy [error] means the network took
    the transaction. *)
Definition accepted (response : JsVal) : bool :=
  match get response "error" with
  | Ok err => negb (truthy err)
  | Throw _ => false
  end.

(** [broadcastTransaction(transaction, network)] of @stacks/transactions. *)
Definition network_broadcast (E : Env) (tx : ChainTx) : M JsVal :=
  match env_broadcast E tx with
  | None => throw EExternal
  | Some response =>
      (if accepted response then update (set_chain (fun c => c ++ [tx]))
       else ret tt) ;;
      ret response
  end.

(** *** transaction.service.js *)

Module TransactionService.

Definition createTransaction (E : Env)
    (senderAddress senderKey recipientAddress amountMicroStx memo fee : JsVal)
  : M (ChainTx * JsVal) :=
  try_catch
    (if negb (StacksService.isValidAddress E senderAddress) then
       throw EInvalidSenderAddress
     else if negb (StacksService.isValidAddress E recipientAddress) then
       throw EInvalidRecipientAddress
     else if le_zero E amountMicroStx then throw EAmountNotPositive
     else
       let* nonce := StacksService.getAccountInfo_nonce E senderAddress in
       let txFee := if truthy fee then fee else fst (StacksService.estimateFee E) in
       let tx := TxTransfer senderKey recipientAddress amountMicroStx memo nonce txFee in
       if env_build E tx then ret (tx, txFee) else throw EExternal)
    (fun e => throw (EWrap CtxCreateTransaction e)).

(** [broadcastTransaction]: failures are caught and reported in the result. *)
Definition broadcastTransaction (E : Env) (tx : ChainTx) : M (Res JsVal) :=
  try_catch
    (let* response := network_broadcast E tx in
     let* err := lift (get response "error") in
     if truthy err then
       let* reason := lift (get response "reason") in
       throw (EBroadcastFailed reason)
     else
       let* txid := lift (get response "txid") in
       ret (Ok txid))
    (fun e => ret (Throw e)).

Definition recordTransaction (L : Linking) (row : TransactionRow) : M unit :=
  try_catch
    (through_client L (update (set_transactions (fun ts => ts ++ [row]))))
    (fun e => throw (EWrap CtxRecordTransaction e)).

(** [sendTransaction]: create, broadcast, record; returns the txId. *)
Definition sendTransaction (E : Env) (L : Linking)
    (senderAddress senderKey senderPhone recipientAddress recipientPhone
       amountMicroStx memo : JsVal) : M JsVal :=
  try_catch
    (let* (tx, fee) :=
       createTransaction E senderAddress senderKey recipientAddress
         amountMicroStx memo JNull in
     let* broadcastResult := broadcastTransaction E tx in
     match broadcastResult with
     | Throw e => throw e
     | Ok txId =>
         recordTransaction L
           {| t_tx_id := txId; t_sender_phone := senderPhone;
              t_recipient_phone := recipientPhone;
              t_sender_address := senderAddress;
              t_recipient_address := recipientAddress;
              t_amount_micro_stx := amountMicroStx; t_fee_micro_stx := fee;
              t_memo := memo; t_status := jstr "pending" |} ;;
         ret txId
     end)
    (fun e => throw (EWrap CtxSendTransaction e)).

Definition getTransactionsByPhone (L : Linking) (phoneNumber : jsstring) (limit : nat)
  : M (list TransactionRow) :=
  try_catch
    (through_client L
       (read (fun w =>
          firstn limit
            (List.filter (fun t =>
               strict_eq (t_sender_phone t) (JStr phoneNumber)
               || strict_eq (t_recipient_phone t) (JStr phoneNumber))
               (transactions w)))))
    (fun e => throw (EWrap CtxGetTransactions e)).

End TransactionService.

(** *** escrow.service.js *)

Module EscrowService.

(** Equality of a column with a filter value: NULL equals nothing. *)
Definition db_eq (column value : JsVal) : bool :=
  match column, value with
  | JNum x, JNum y => JsNum.eqb x y
  | JStr x, JStr y => str_eqb x y
  | JBool x, JBool y => Bool.eqb x y
  | _, _ => false
  end.

Definition next_id (rows : list EscrowRow) : Z :=
  fold_right (fun row acc => Z.max (e_id row + 1) acc) 1%Z rows.

Definition escrow_js (e : EscrowRow) : JsVal :=
  obj [("id", JNum (JsNum.of_Z (e_id e)));
       ("sender_phone", e_sender_phone e);
       ("sender_stx_address", e_sender_stx_address e);
       ("recipient_phone", e_recipient_phone e);
       ("recipient_stx_address", e_recipient_stx_address e);
       ("amount_microstx", e_amount_microstx e);
       ("timeout_blocks", e_timeout_blocks e);
       ("memo", e_memo e);
       ("tx_id", e_tx_id e);
       ("contract_escrow_id", e_contract_escrow_id e);
       ("status", e_status e);
       ("release_tx_id", e_release_tx_id e)].

(** [saveEscrowToDatabase]: the new row has no contract id yet. *)
Definition saveEscrowToDatabase (L : Linking)
    (senderPhone senderAddress recipientPhone recipientAddress amountMicroStx
       timeoutBlocks memo txId status : JsVal) : M EscrowRow :=
  try_catch
    (through_client L
       (fun w =>
          let row := {| e_id := next_id (escrows w);
                        e_sender_phone := senderPhone;
                        e_sender_stx_address := senderAddress;
                        e_recipient_phone := recipientPhone;
                        e_recipient_stx_address := recipientAddress;
                        e_amount_microstx := amountMicroStx;
                        e_timeout_blocks := timeoutBlocks;
                        e_memo := memo;
                        e_tx_id := txId;
                        e_contract_escrow_id := JNull;
                        e_status := status;
                        e_release_tx_id := JNull |} in
          (Ok row, set_escrows (fun es => row :: es) w)))
    (fun e => throw (EWrap CtxSaveEscrow e)).

Definition with_status (status txId : JsVal) (e : EscrowRow) : EscrowRow :=
  {| e_id := e_id e;
     e_sender_phone := e_sender_phone e;
     e_sender_stx_address := e_sender_stx_address e;
     e_recipient_phone := e_recipient_phone e;
     e_recipient_stx_address := e_recipient_stx_address e;
     e_amount_microstx := e_amount_microstx e;
     e_timeout_blocks := e_timeout_blocks e;
     e_memo := e_memo e;
     e_tx_id := e_tx_id e;
     e_contract_escrow_id := e_contract_escrow_id e;
     e_status := status;
     e_release_tx_id := if truthy txId then txId else e_release_tx_id e |}.

(** [updateEscrowStatus]: [update(...).eq('contract_escrow_id', id)
    .select().single()]; the request fails unless exactly one row has the
    id. *)
Definition updateEscrowStatus (L : Linking) (contractEscrowId status txId : JsVal)
  : M unit :=
  try_catch
    (through_client L
       (fun w =>
          let hit := fun e => db_eq (e_contract_escrow_id e) contractEscrowId in
          match List.filter hit (escrows w) with
          | [_] =>
              (Ok tt,
               set_escrows
                 (map (fun e => if hit e then with_status status txId e else e)) w)
          | _ => (Throw EDatabase, w)
          end))
    (fun e => throw (EWrap CtxUpdateEscrowStatus e)).

(** [canRefund]: the contract's [can-refund] through
    [callReadOnlyFunction]; [false] when the call throws, as the call of
    [undefined] does. *)
Definition canRefund (E : Env) (L : Linking) (escrowId : JsVal) : JsVal :=
  if callReadOnlyFunction_defined L then
    match env_can_refund E escrowId with
    | Some v => v
    | None => JBool false
    end
  else JBool false.

Definition createEscrow (E : Env) (L : Linking)
    (senderAddress senderKey recipientAddress amountMicroStx timeoutBlocks memo
       senderPhone recipientPhone : JsVal) : M (JsVal * Z) :=
  try_catch
    (if negb (StacksService.isValidAddress E senderAddress) then
       throw EInvalidSenderAddress
     else if negb (StacksService.isValidAddress E recipientAddress) then
       throw EInvalidRecipientAddress
     else if le_zero E amountMicroStx then throw EAmountNotPositive
     else
       let* nonce := StacksService.getAccountInfo_nonce E senderAddress in
       let tx := TxContractCall "create-escrow"
                   [recipientAddress; amountMicroStx; timeoutBlocks; memo]
                   senderKey nonce in
       if negb (env_build E tx) then throw EExternal
       else
         let* broadcastResponse := network_broadcast E tx in
         let* txId := lift (get broadcastResponse "txid") in
         let* err := lift (get broadcastResponse "error") in
         if truthy err then throw (EBroadcastFailed err)
         else
           let* escrowRecord :=
             saveEscrowToDatabase L senderPhone senderAddress
               (default_param JNull recipientPhone) recipientAddress
               amountMicroStx timeoutBlocks memo txId (jstr "pending") in
           ret (txId, e_id escrowRecord))
    (fun e => throw (EWrap CtxCreateEscrow e)).

(** The common body of [releaseEscrow], [refundEscrow] (after its check)
    and [cancelEscrow]: call the contract function, then set the status of
    the local record. *)
Definition contract_action (E : Env) (L : Linking) (functionName : string)
    (status : string)
    (contractEscrowId callerAddress callerKey : JsVal) : M JsVal :=
  let* nonce := StacksService.getAccountInfo_nonce E callerAddress in
  let tx := TxContractCall functionName [contractEscrowId] callerKey nonce in
  if negb (env_build E tx) then throw EExternal
  else
    let* broadcastResponse := network_broadcast E tx in
    let* txId := lift (get broadcastResponse "txid") in
    let* err := lift (get broadcastResponse "error") in
    if truthy err then throw (EBroadcastFailed err)
    else
      updateEscrowStatus L contractEscrowId (jstr status) txId ;;
      ret txId.

Definition releaseEscrow (E : Env) (L : Linking)
    (contractEscrowId callerAddress callerKey : JsVal) : M JsVal :=
  try_catch
    (contract_action E L "release-escrow" "released" contractEscrowId
       callerAddress callerKey)
    (fun e => throw (EWrap CtxReleaseEscrow e)).

Definition refundEscrow (E : Env) (L : Linking)
    (contractEscrowId senderAddress senderKey : JsVal) : M JsVal :=
  try_catch
    (if negb (truthy (canRefund E L contractEscrowId)) then throw ERefundNotAllowed
     else
       contract_action E L "refund-escrow" "refunded" contractEscrowId
         senderAddress senderKey)
    (fun e => throw (EWrap CtxRefundEscrow e)).

Definition cancelEscrow (E : Env) (L : Linking)
    (contractEscrowId senderAddress senderKey : JsVal) : M JsVal :=
  try_catch
    (contract_action E L "cancel-escrow" "cancelled" contractEscrowId
       senderAddress senderKey)
    (fun e => throw (EWrap CtxCancelEscrow e)).

Inductive Role := RoleAll | RoleSender | RoleRecipient.

(** [getEscrowsByPhone(phoneNumber, role)], newest first. *)
Definition getEscrowsByPhone (L : Linking) (phoneNumber : jsstring) (role : Role)
  : M (list EscrowRow) :=
  try_catch
    (through_client L
       (read (fun w =>
          List.filter (fun e =>
            match role with
            | RoleSender => db_eq (e_sender_phone e) (JStr phoneNumber)
            | RoleRecipient => db_eq (e_recipient_phone e) (JStr phoneNumber)
            | RoleAll => db_eq (e_sender_phone e) (JStr phoneNumber)
                         || db_eq (e_recipient_phone e) (JStr phoneNumber)
            end) (escrows w))))
    (fun e => throw (EWrap CtxGetEscrows e)).

End EscrowService.

(** ** Handlers *)

(** [message.split(/\s+/)] *)
Fixpoint split_ws_from (in_separator : bool) (s : jsstring) : list jsstring :=
  match s with
  | [] => [[]]
  | c :: s' =>
      if is_ws c then
        if in_separator then split_ws_from true s'
        else [] :: split_ws_from true s'
      else
        match split_ws_from false s' with
        | w :: ws => (c :: w) :: ws
        | [] => [[c]]
        end
  end.
Definition split_ws (s : jsstring) : list jsstring := split_ws_from false s.

(** [const { a, b } = v] reads properties of [v]; [v.a.substring] and the
    like are guarded by [need_string]. *)
Definition lookup_user (getByPhone : World -> JsVal -> Res JsVal)
    (phoneNumber : JsVal) : M JsVal :=
  fun w => (getByPhone w phoneNumber, w).

(** The calls [userService.getByPhone(...)], [stateService.setState(...)],
    [stateService.getState(...)], [stateService.clearState(...)] and
    [whatsappService.sendMessage(...)] of the payment and escrow handlers
    and of the webhook: the method of the service when the binding has it,
    the TypeError of calling [undefined] when it has not. *)
Module Imported.

Definition getByPhone (L : Linking) (phoneNumber : JsVal) : M JsVal :=
  match userService_getByPhone L with
  | Some f => lookup_user f phoneNumber
  | None => throw ETypeError
  end.

Definition setState (L : Linking) (phoneNumber : jsstring) (args : list JsVal)
  : M JsVal :=
  if stateService_methods L then StateService.setState_call phoneNumber args
  else throw ETypeError.

Definition getState (L : Linking) (phoneNumber : jsstring) : M JsVal :=
  if stateService_methods L then StateService.getState phoneNumber
  else throw ETypeError.

Definition clearState (L : Linking) (phoneNumber : jsstring) : M JsVal :=
  if stateService_methods L then StateService.clearState phoneNumber
  else throw ETypeError.

Definition sendMessage (E : Env) (L : Linking) (to : JsVal) (message : Reply)
  : M unit :=
  if whatsappService_methods L then sendMessage E to message
  else throw ETypeError.

End Imported.

(** *** payment.handler.js *)

Module PaymentHandler.
Section WithServices.

Variable E : Env.
Variable L : Linking.

Definition handleBalance (phoneNumber : jsstring) (user : JsVal) : M HandlerResult :=
  try_catch
    (let* stx_address := lift (get user "stx_address") in
     let* balance := StacksService.getBalance E stx_address in
     lift (need_string stx_address) ;;
     Imported.sendMessage E L (JStr phoneNumber) (R_Balance balance) ;;
     ret HSuccess)
    (fun _ => ret (HFailure R_BalanceFailed)).

Definition handleHistory (phoneNumber : jsstring) (user : JsVal) : M HandlerResult :=
  try_catch
    (let* txs := TransactionService.getTransactionsByPhone L phoneNumber 10 in
     match txs with
     | [] => Imported.sendMessage E L (JStr phoneNumber) R_HistoryEmpty ;; ret HSuccess
     | _ => Imported.sendMessage E L (JStr phoneNumber) (R_History (length txs)) ;;
            ret HSuccess
     end)
    (fun _ => ret (HFailure R_HistoryFailed)).

Definition handleListContacts (phoneNumber : jsstring) : M HandlerResult :=
  try_catch
    (let* cs := ContactService.getContacts L phoneNumber in
     Imported.sendMessage E L (JStr phoneNumber) (R_ContactList (length cs)) ;;
     ret HSuccess)
    (fun _ => ret (HFailure R_ContactsFailed)).

Definition handleAddContact (phoneNumber message : jsstring) : M HandlerResult :=
  try_catch
    (let parts := split_ws message in
     if Nat.ltb (length parts) 4 then ret (HFailure R_AddContactFormat)
     else
       let contactName := nth 2 parts [] in
       let contactAddress := nth 3 parts [] in
       if negb (StacksService.isValidAddress E (JStr contactAddress)) then
         ret (HFailure R_InvalidAddress)
       else
         ContactService.addContact E L phoneNumber contactName contactAddress JNull ;;
         let normalized := normalizeContactName contactName in
         Imported.sendMessage E L (JStr phoneNumber) (R_ContactAdded normalized contactAddress) ;;
         ret HSuccess)
    (fun e => ret (HFailure (R_Fail e))).

Definition handleSend (phoneNumber message : jsstring) (user : JsVal)
  : M HandlerResult :=
  try_catch
    (match exec re_send message with
     | None => ret (HFailure R_SendFormat)
     | Some sendMatch =>
         let amount := parseFloat (group 1 sendMatch) in
         let recipientInput := trim (group 2 sendMatch) in
         if JsNum.leb amount JsNum.zero then ret (HFailure R_AmountNotPositive)
         else
           let* stx_address := lift (get user "stx_address") in
           let* balance := StacksService.getBalance E stx_address in
           let fees := StacksService.estimateFee E in
           let totalNeeded := JsNum.add amount (snd fees) in
           if JsNum.ltb balance totalNeeded then
             ret (HFailure (R_Insufficient balance totalNeeded))
           else
             let* resolved :=
               try_catch
                 (let* r := ContactService.resolveRecipient E L phoneNumber
                              recipientInput in
                  ret (Ok r))
                 (fun e => ret (Throw e)) in
             match resolved with
             | Throw e => ret (HFailure (R_Fail e))
             | Ok recipient =>
                 Imported.setState L phoneNumber
                   [jstr "payment"; jstr "confirm_send";
                    obj [("amount", JNum amount);
                         ("amountMicroStx", JNum (StacksNum.stxToMicroStx amount));
                         ("recipient", recipient);
                         ("senderAddress", stx_address);
                         ("fee", fst fees);
                         ("feeStx", JNum (snd fees))]] ;;
                 let* address := lift (get recipient "address") in
                 lift (need_string address) ;;
                 Imported.sendMessage E L (JStr phoneNumber) (R_ConfirmPayment amount recipient) ;;
                 ret HSuccess
             end
     end)
    (fun e => ret (HFailure (R_Fail e))).

Definition executeSend (phoneNumber : jsstring) (state : JsVal) : M HandlerResult :=
  try_catch
    (let* data := lift (get state "data") in
     let* amount := lift (get data "amount") in
     let* amountMicroStx := lift (get data "amountMicroStx") in
     let* recipient := lift (get data "recipient") in
     let* senderAddress := lift (get data "senderAddress") in
     let* user := Imported.getByPhone L (JStr phoneNumber) in
     let* isContact := lift (get recipient "isContact") in
     let* phone := if truthy isContact then lift (get recipient "phone")
                   else ret JUndef in
     let recipientPhone :=
       if truthy isContact && truthy phone then phone else JNull in
     Imported.sendMessage E L (JStr phoneNumber) R_Processing ;;
     let* senderKey := lift (get user "private_key") in
     if negb (truthy senderKey) then throw EPrivateKeyMissing
     else
       let* recipientAddress := lift (get recipient "address") in
       let* txId :=
         TransactionService.sendTransaction E L senderAddress senderKey
           (JStr phoneNumber) recipientAddress recipientPhone amountMicroStx
           (jstr "Payment via WhatsApp") in
       Imported.clearState L phoneNumber ;;
       lift (need_string txId) ;;
       Imported.sendMessage E L (JStr phoneNumber) (R_PaymentSent amount txId) ;;
       (if truthy recipientPhone then
          let* recipientUser := Imported.getByPhone L recipientPhone in
          if truthy recipientUser then
            Imported.sendMessage E L recipientPhone (R_PaymentReceived amount phoneNumber)
          else ret tt
        else ret tt) ;;
       ret HSuccess)
    (fun e =>
       Imported.clearState L phoneNumber ;;
       ret (HFailure (R_PaymentFailed e))).

Definition handleStateFlow (phoneNumber message : jsstring) (state : JsVal)
  : M HandlerResult :=
  try_catch
    (let normalizedMessage := trim (toLowerCase message) in
     let* step := lift (get state "step") in
     if strict_eq step (jstr "confirm_send") then
       if str_eqb normalizedMessage (js "yes") then executeSend phoneNumber state
       else if str_eqb normalizedMessage (js "no") then
         Imported.clearState L phoneNumber ;;
         Imported.sendMessage E L (JStr phoneNumber) R_PaymentCancelled ;;
         ret HSuccess
       else
         Imported.sendMessage E L (JStr phoneNumber) R_ReplyYesNo ;;
         ret HSuccess
     else ret HNull)
    (fun e =>
       Imported.clearState L phoneNumber ;;
       ret (HFailure (R_Fail e))).

(** [state && state.handler === 'payment'] *)
Definition owns_state (owner : string) (state : JsVal) : bool :=
  truthy state &&
  match get state "handler" with
  | Ok h => strict_eq h (jstr owner)
  | Throw _ => false
  end.

Definition handleMessage (phoneNumber message : jsstring) : M HandlerResult :=
  try_catch
    (let normalizedMessage := trim (toLowerCase message) in
     let* user := Imported.getByPhone L (JStr phoneNumber) in
     if negb (truthy user) then ret (HFailure R_NeedRegister)
     else
       let* state := Imported.getState L phoneNumber in
       if owns_state "payment" state then handleStateFlow phoneNumber message state
       else if str_eqb normalizedMessage (js "balance") then
         handleBalance phoneNumber user
       else if str_eqb normalizedMessage (js "history")
               || startsWith normalizedMessage (js "history") then
         handleHistory phoneNumber user
       else if str_eqb normalizedMessage (js "contacts")
               || str_eqb normalizedMessage (js "list contacts") then
         handleListContacts phoneNumber
       else if startsWith normalizedMessage (js "add contact") then
         handleAddContact phoneNumber message
       else if startsWith normalizedMessage (js "send") then
         handleSend phoneNumber message user
       else ret HNull)
    (fun e => ret (HFailure (R_HandlerError e))).

End WithServices.
End PaymentHandler.

(** *** escrow.handler.js *)

Module EscrowHandler.

(** [/escrow\s+(\d+(?:\.\d+)?)\s+to\s+(.+?)\s+for\s+(\d+)\s+(hour|hours|day|days)/i] *)
Definition re_escrow : regex :=
  rcat [ lit_ci (js "escrow"); plus ws; amount_token; plus ws;
        lit_ci (js "to"); plus ws; RGroup 2 (lazy_plus dot); plus ws;
        lit_ci (js "for"); plus ws; RGroup 3 (plus digit); plus ws;
        RGroup 4 (RAlt (lit_ci (js "hour"))
                   (RAlt (lit_ci (js "hours"))
                      (RAlt (lit_ci (js "day")) (lit_ci (js "days"))))) ].

(** [/release\s+escrow\s+#?(\d+)/i] and its siblings. *)
Definition re_action (verb : string) : regex :=
  rcat [ lit_ci (js verb); plus ws; lit_ci (js "escrow"); plus ws;
        opt (RChr (is_lit 35)); RGroup 1 (plus digit) ].

(** [/escrow\s+status\s+#?(\d+)/i] *)
Definition re_status : regex :=
  rcat [ lit_ci (js "escrow"); plus ws; lit_ci (js "status"); plus ws;
        opt (RChr (is_lit 35)); RGroup 1 (plus digit) ].

(** [escrows.find(e => e.contract_escrow_id === escrowId)] *)
Definition find_escrow (escrowId : JsNum.num) (rows : list EscrowRow)
  : option EscrowRow :=
  List.find (fun e => strict_eq (e_contract_escrow_id e) (JNum escrowId)) rows.

Section WithServices.

Variable E : Env.
Variable L : Linking.

Definition handleCreateEscrow (phoneNumber message : jsstring) (user : JsVal)
  : M HandlerResult :=
  try_catch
    (match exec re_escrow message with
     | None => ret (HFailure R_EscrowFormat)
     | Some escrowMatch =>
         let amount := parseFloat (group 1 escrowMatch) in
         let recipientInput := trim (group 2 escrowMatch) in
         let timeValue := parseInt (group 3 escrowMatch) in
         let timeUnit := toLowerCase (group 4 escrowMatch) in
         if JsNum.leb amount JsNum.zero then ret (HFailure R_AmountNotPositive)
         else
           let timeoutBlocks :=
             if startsWith timeUnit (js "hour")
             then JsNum.mul timeValue (JsNum.of_Z 6)
             else JsNum.mul timeValue (JsNum.of_Z 144) in
           let plural :=
             if JsNum.ltb (JsNum.of_Z 1) timeValue then js "s" else [] in
           let timeDescription :=
             if startsWith timeUnit (js "hour")
             then to_string E (JNum timeValue) ++ js " hour" ++ plural
             else to_string E (JNum timeValue) ++ js " day" ++ plural in
           let* stx_address := lift (get user "stx_address") in
           let* balance := StacksService.getBalance E stx_address in
           let fees := StacksService.estimateFee E in
           let totalNeeded := JsNum.add amount (snd fees) in
           if JsNum.ltb balance totalNeeded then
             ret (HFailure (R_Insufficient balance totalNeeded))
           else
             let* resolved :=
               try_catch
                 (let* r := ContactService.resolveRecipient E L phoneNumber
                              recipientInput in
                  ret (Ok r))
                 (fun e => ret (Throw e)) in
             match resolved with
             | Throw e => ret (HFailure (R_Fail e))
             | Ok recipient =>
                 Imported.setState L phoneNumber
                   [jstr "escrow"; jstr "confirm_create";
                    obj [("amount", JNum amount);
                         ("amountMicroStx", JNum (StacksNum.stxToMicroStx amount));
                         ("recipient", recipient);
                         ("senderAddress", stx_address);
                         ("timeoutBlocks", JNum timeoutBlocks);
                         ("timeDescription", JStr timeDescription);
                         ("fee", fst fees);
                         ("feeStx", JNum (snd fees))]] ;;
                 let* address := lift (get recipient "address") in
                 lift (need_string address) ;;
                 Imported.sendMessage E L (JStr phoneNumber)
                   (R_ConfirmEscrow amount recipient timeoutBlocks) ;;
                 ret HSuccess
             end
     end)
    (fun e => ret (HFailure (R_Fail e))).

Definition handleReleaseEscrow (phoneNumber message : jsstring) (user : JsVal)
  : M HandlerResult :=
  try_catch
    (match exec (re_action "release") message with
     | None => ret (HFailure (R_ActionFormat ActRelease))
     | Some m =>
         let escrowId := parseInt (group 1 m) in
         let* rows := EscrowService.getEscrowsByPhone L phoneNumber EscrowService.RoleAll in
         match find_escrow escrowId rows with
         | None => ret (HFailure (R_EscrowNotFound escrowId))
         | Some escrow =>
             let isSender := strict_eq (e_sender_phone escrow) (JStr phoneNumber) in
             let isRecipient := strict_eq (e_recipient_phone escrow) (JStr phoneNumber) in
             if negb isSender && negb isRecipient then
               ret (HFailure R_NotAuthorizedRelease)
             else if negb (strict_eq (e_status escrow) (jstr "active")) then
               ret (HFailure (R_EscrowNotActive ActRelease (e_status escrow)))
             else
               let* stx_address := lift (get user "stx_address") in
               Imported.setState L phoneNumber
                 [jstr "escrow"; jstr "confirm_release";
                  obj [("escrowId", JNum escrowId);
                       ("escrow", EscrowService.escrow_js escrow);
                       ("userAddress", stx_address)]] ;;
               Imported.sendMessage E L (JStr phoneNumber) (R_ConfirmAction ActRelease escrowId) ;;
               ret HSuccess
         end
     end)
    (fun e => ret (HFailure (R_Fail e))).

Definition handleRefundEscrow (phoneNumber message : jsstring) (user : JsVal)
  : M HandlerResult :=
  try_catch
    (match exec (re_action "refund") message with
     | None => ret (HFailure (R_ActionFormat ActRefund))
     | Some m =>
         let escrowId := parseInt (group 1 m) in
         let* rows := EscrowService.getEscrowsByPhone L phoneNumber EscrowService.RoleSender in
         match find_escrow escrowId rows with
         | None => ret (HFailure (R_NotFoundOrNotSender ActRefund escrowId))
         | Some escrow =>
             if negb (strict_eq (e_status escrow) (jstr "active")) then
               ret (HFailure (R_EscrowNotActive ActRefund (e_status escrow)))
             else
               let canRefund := EscrowService.canRefund E L (JNum escrowId) in
               if negb (truthy canRefund) then
                 ret (HFailure (R_TimeoutNotReached escrowId))
               else
                 let* stx_address := lift (get user "stx_address") in
                 Imported.setState L phoneNumber
                   [jstr "escrow"; jstr "confirm_refund";
                    obj [("escrowId", JNum escrowId);
                         ("escrow", EscrowService.escrow_js escrow);
                         ("senderAddress", stx_address)]] ;;
                 Imported.sendMessage E L (JStr phoneNumber) (R_ConfirmAction ActRefund escrowId) ;;
                 ret HSuccess
         end
     end)
    (fun e => ret (HFailure (R_Fail e))).

Definition handleCancelEscrow (phoneNumber message : jsstring) (user : JsVal)
  : M HandlerResult :=
  try_catch
    (match exec (re_action "cancel") message with
     | None => ret (HFailure (R_ActionFormat ActCancel))
     | Some m =>
         let escrowId := parseInt (group 1 m) in
         let* rows := EscrowService.getEscrowsByPhone L phoneNumber EscrowService.RoleSender in
         match find_escrow escrowId rows with
         | None => ret (HFailure (R_NotFoundOrNotSender ActCancel escrowId))
         | Some escrow =>
             if negb (strict_eq (e_status escrow) (jstr "active")) then
               ret (HFailure (R_EscrowNotActive ActCancel (e_status escrow)))
             else
               let* stx_address := lift (get user "stx_address") in
               Imported.setState L phoneNumber
                 [jstr "escrow"; jstr "confirm_cancel";
                  obj [("escrowId", JNum escrowId);
                       ("escrow", EscrowService.escrow_js escrow);
                       ("senderAddress", stx_address)]] ;;
               Imported.sendMessage E L (JStr phoneNumber) (R_ConfirmAction ActCancel escrowId) ;;
               ret HSuccess
         end
     end)
    (fun e => ret (HFailure (R_Fail e))).

(** [phone || address.substring(0, 10) + '...'] *)
Definition party (phone address : JsVal) : Res unit :=
  if truthy phone then Ok tt else need_string address.

Definition handleEscrowStatus (phoneNumber message : jsstring) : M HandlerResult :=
  try_catch
    (match exec re_status message with
     | None => ret (HFailure R_StatusFormat)
     | Some m =>
         let escrowId := parseInt (group 1 m) in
         let* rows := EscrowService.getEscrowsByPhone L phoneNumber EscrowService.RoleAll in
         match find_escrow escrowId rows with
         | None => ret (HFailure (R_EscrowNotFound escrowId))
         | Some escrow =>
             lift (party (e_sender_phone escrow) (e_sender_stx_address escrow)) ;;
             lift (party (e_recipient_phone escrow) (e_recipient_stx_address escrow)) ;;
             (if truthy (e_tx_id escrow) then lift (need_string (e_tx_id escrow))
              else ret tt) ;;
             Imported.sendMessage E L (JStr phoneNumber) (R_EscrowStatus escrowId (e_status escrow)) ;;
             ret HSuccess
         end
     end)
    (fun e => ret (HFailure (R_Fail e))).

Fixpoint list_parties (phoneNumber : jsstring) (rows : list EscrowRow) : Res unit :=
  match rows with
  | [] => Ok tt
  | escrow :: rows' =>
      let r :=
        if strict_eq (e_sender_phone escrow) (JStr phoneNumber)
        then party (e_recipient_phone escrow) (e_recipient_stx_address escrow)
        else party (e_sender_phone escrow) (e_sender_stx_address escrow) in
      match r with
      | Ok _ => list_parties phoneNumber rows'
      | Throw e => Throw e
      end
  end.

Definition handleListEscrows (phoneNumber : jsstring) : M HandlerResult :=
  try_catch
    (let* rows := EscrowService.getEscrowsByPhone L phoneNumber EscrowService.RoleAll in
     match rows with
     | [] => Imported.sendMessage E L (JStr phoneNumber) R_NoEscrows ;; ret HSuccess
     | _ =>
         lift (list_parties phoneNumber rows) ;;
         Imported.sendMessage E L (JStr phoneNumber) (R_EscrowList (length rows)) ;;
         ret HSuccess
     end)
    (fun _ => ret (HFailure R_ListFailed)).

Definition executeCreateEscrow (phoneNumber : jsstring) (state : JsVal)
  : M HandlerResult :=
  try_catch
    (let* data := lift (get state "data") in
     let* amount := lift (get data "amount") in
     let* amountMicroStx := lift (get data "amountMicroStx") in
     let* recipient := lift (get data "recipient") in
     let* senderAddress := lift (get data "senderAddress") in
     let* timeoutBlocks := lift (get data "timeoutBlocks") in
     let* timeDescription := lift (get data "timeDescription") in
     let* user := Imported.getByPhone L (JStr phoneNumber) in
     let* senderKey := lift (get user "private_key") in
     if negb (truthy senderKey) then throw EPrivateKeyMissing
     else
       Imported.sendMessage E L (JStr phoneNumber) R_CreatingEscrow ;;
       let* recipientAddress := lift (get recipient "address") in
       let* phone := lift (get recipient "phone") in
       let* result :=
         EscrowService.createEscrow E L senderAddress senderKey recipientAddress
           amountMicroStx timeoutBlocks
           (JStr (js "Escrow via WhatsApp - " ++ to_string E timeDescription))
           (JStr phoneNumber)
           (if truthy phone then phone else JNull) in
       Imported.clearState L phoneNumber ;;
       lift (need_string (fst result)) ;;
       Imported.sendMessage E L (JStr phoneNumber) (R_EscrowCreated (fst result)) ;;
       (if truthy phone then
          let* recipientUser := Imported.getByPhone L phone in
          if truthy recipientUser then
            Imported.sendMessage E L phone (R_EscrowReceived phoneNumber)
          else ret tt
        else ret tt) ;;
       ret HSuccess)
    (fun e =>
       Imported.clearState L phoneNumber ;;
       ret (HFailure (R_CreateFailed e))).

(** The three executions on an existing escrow differ in the property that
    holds the caller's address, the service function and the texts. *)
Definition executeAction (a : EscrowAction) (addressKey : string)
    (service : JsVal -> JsVal -> JsVal -> M JsVal)
    (phoneNumber : jsstring) (state : JsVal) : M HandlerResult :=
  try_catch
    (let* data := lift (get state "data") in
     let* escrowId := lift (get data "escrowId") in
     let* address := lift (get data addressKey) in
     let* user := Imported.getByPhone L (JStr phoneNumber) in
     let* key := lift (get user "private_key") in
     if negb (truthy key) then throw EPrivateKeyMissing
     else
       Imported.sendMessage E L (JStr phoneNumber) (R_ActionInProgress a) ;;
       let* txId := service escrowId address key in
       Imported.clearState L phoneNumber ;;
       lift (need_string txId) ;;
       Imported.sendMessage E L (JStr phoneNumber) (R_ActionDone a escrowId txId) ;;
       ret HSuccess)
    (fun e =>
       Imported.clearState L phoneNumber ;;
       ret (HFailure (R_ActionFailed a e))).

Definition executeReleaseEscrow : jsstring -> JsVal -> M HandlerResult :=
  executeAction ActRelease "userAddress" (EscrowService.releaseEscrow E L).
Definition executeRefundEscrow : jsstring -> JsVal -> M HandlerResult :=
  executeAction ActRefund "senderAddress" (EscrowService.refundEscrow E L).
Definition executeCancelEscrow : jsstring -> JsVal -> M HandlerResult :=
  executeAction ActCancel "senderAddress" (EscrowService.cancelEscrow E L).

Definition handleStateFlow (phoneNumber message : jsstring) (state : JsVal)
  : M HandlerResult :=
  try_catch
    (let normalizedMessage := trim (toLowerCase message) in
     if negb (str_eqb normalizedMessage (js "yes"))
        && negb (str_eqb normalizedMessage (js "no")) then
       Imported.sendMessage E L (JStr phoneNumber) R_ReplyYesNo ;;
       ret HSuccess
     else if str_eqb normalizedMessage (js "no") then
       Imported.clearState L phoneNumber ;;
       Imported.sendMessage E L (JStr phoneNumber) R_Cancelled ;;
       ret HSuccess
     else
       let* step := lift (get state "step") in
       if strict_eq step (jstr "confirm_create") then
         executeCreateEscrow phoneNumber state
       else if strict_eq step (jstr "confirm_release") then
         executeReleaseEscrow phoneNumber state
       else if strict_eq step (jstr "confirm_refund") then
         executeRefundEscrow phoneNumber state
       else if strict_eq step (jstr "confirm_cancel") then
         executeCancelEscrow phoneNumber state
       else ret HNull)
    (fun e =>
       Imported.clearState L phoneNumber ;;
       ret (HFailure (R_Fail e))).

Definition handleMessage (phoneNumber message : jsstring) : M HandlerResult :=
  try_catch
    (let normalizedMessage := trim (toLowerCase message) in
     let* user := Imported.getByPhone L (JStr phoneNumber) in
     if negb (truthy user) then ret (HFailure R_NeedRegister)
     else
       let* state := Imported.getState L phoneNumber in
       if PaymentHandler.owns_state "escrow" state then
         handleStateFlow phoneNumber message state
       else if startsWith normalizedMessage (js "escrow")
               && negb (includes normalizedMessage (js "status")) then
         handleCreateEscrow phoneNumber message user
       else if startsWith normalizedMessage (js "release escrow") then
         handleReleaseEscrow phoneNumber message user
       else if startsWith normalizedMessage (js "refund escrow") then
         handleRefundEscrow phoneNumber message user
       else if startsWith normalizedMessage (js "cancel escrow") then
         handleCancelEscrow phoneNumber message user
       else if includes normalizedMessage (js "escrow status") then
         handleEscrowStatus phoneNumber message
       else if str_eqb normalizedMessage (js "my escrows")
               || str_eqb normalizedMessage (js "escrows") then
         handleListEscrows phoneNumber
       else ret HNull)
    (fun e => ret (HFailure (R_HandlerError e))).

End WithServices.
End EscrowHandler.

(** *** registration.handler.js *)

Module RegistrationHandler.

Inductive Failure :=
| InvalidPhoneNumber
| UserAlreadyRegistered
| InvalidAddress (c : ValidatorJsAddr.AddressCheck)
| AddressAlreadyRegistered
| CreateFailed
| HandlerFailed (e : Error).

Inductive Result :=
| RegistrationStarted
| RegistrationCompleted (address : jsstring)
| RegistrationFailed (f : Failure).

Section WithEnv.
Variable E : Env.

Definition sendErrorMessage (to : jsstring) (text : string) : M unit :=
  sendMessage E (JStr to) (R_RegError text).

Definition startRegistration (phoneNumber : jsstring) : M Result :=
  let* t := read now in
  StateService.setState_call phoneNumber
    [jstr "registration";
     obj [("step", JNum (JsNum.of_Z 1)); ("awaitingAddress", JBool true);
          ("startedAt", JNum (JsNum.of_Z t))]] ;;
  sendMessage E (JStr phoneNumber) R_RegistrationPrompt ;;
  ret RegistrationStarted.

Definition completeRegistration (phoneNumber stxAddress : jsstring) : M Result :=
  let cleanAddress := trim stxAddress in
  let addressValidation := ValidatorJsAddr.validateStxAddress cleanAddress in
  if negb (ValidatorJsAddr.valid addressValidation) then
    sendErrorMessage phoneNumber "Invalid STX address" ;;
    ret (RegistrationFailed (InvalidAddress addressValidation))
  else
    let* addressExists := UserService.addressExists cleanAddress in
    if addressExists then
      sendErrorMessage phoneNumber
        "This STX address is already registered to another account." ;;
      StateService.clearState phoneNumber ;;
      ret (RegistrationFailed AddressAlreadyRegistered)
    else
      let* createResult := UserService.create phoneNumber cleanAddress in
      let* ok := lift (get createResult "success") in
      if negb (truthy ok) then
        sendErrorMessage phoneNumber "Registration failed. Please try again later." ;;
        StateService.clearState phoneNumber ;;
        ret (RegistrationFailed CreateFailed)
      else
        StateService.clearState phoneNumber ;;
        sendMessage E (JStr phoneNumber) (R_Welcome cleanAddress) ;;
        ret (RegistrationCompleted cleanAddress).

Definition handleRegistration (phoneNumber messageBody : jsstring) : M Result :=
  try_catch
    (if negb (ValidatorJsAddr.validatePhone phoneNumber) then
       sendErrorMessage phoneNumber "Invalid phone number format" ;;
       ret (RegistrationFailed InvalidPhoneNumber)
     else
       let* userExists := UserService.exists_ phoneNumber in
       if userExists then
         sendErrorMessage phoneNumber
           "You are already registered. Type help for available commands." ;;
         ret (RegistrationFailed UserAlreadyRegistered)
       else
         let* stateResult := StateService.getState phoneNumber in
         let* ok := lift (get stateResult "success") in
         if negb (truthy ok) then startRegistration phoneNumber
         else completeRegistration phoneNumber messageBody)
    (fun e =>
       sendErrorMessage phoneNumber "Registration failed. Please try again." ;;
       ret (RegistrationFailed (HandlerFailed e))).

End WithEnv.
End RegistrationHandler.

(** *** api/webhook.ts (the WhatsApp entry point) *)

Module Webhook.
Section WithServices.

Variable E : Env.
Variable L : Linking.

Definition sendHelpMessage (phoneNumber : jsstring) : M unit :=
  try_catch
    (let* user := Imported.getByPhone L (JStr phoneNumber) in
     if negb (truthy user) then Imported.sendMessage E L (JStr phoneNumber) (R_Help false)
     else
       let* stx_address := lift (get user "stx_address") in
       lift (need_string stx_address) ;;
       Imported.sendMessage E L (JStr phoneNumber) (R_Help true))
    (fun _ => ret tt).

Definition sendUnknownCommandMessage (phoneNumber : jsstring) : M unit :=
  Imported.sendMessage E L (JStr phoneNumber) R_UnknownCommand.

Definition is_escrow_command (normalizedMessage : jsstring) : bool :=
  startsWith normalizedMessage (js "escrow")
  || startsWith normalizedMessage (js "release escrow")
  || startsWith normalizedMessage (js "refund escrow")
  || startsWith normalizedMessage (js "cancel escrow")
  || includes normalizedMessage (js "escrow status")
  || str_eqb normalizedMessage (js "my escrows")
  || str_eqb normalizedMessage (js "escrows").

(** [if (result === null) ... else if (result && result.message) ...] *)
Definition deliver (phoneNumber : jsstring) (result : HandlerResult) : M unit :=
  match result with
  | HNull => sendUnknownCommandMessage phoneNumber
  | HFailure message => Imported.sendMessage E L (JStr phoneNumber) message
  | HSuccess => ret tt
  end.

(** The registration handler exports no [handleMessage]: the call
    [registrationHandler.handleMessage(...)] throws a TypeError. *)
Definition registrationHandler_handleMessage (phoneNumber messageText : jsstring)
  : M HandlerResult :=
  throw ETypeError.

Definition processMessage (phoneNumber messageText : jsstring) : M unit :=
  try_catch
    (let normalizedMessage := trim (toLowerCase messageText) in
     if str_eqb normalizedMessage (js "help")
        || str_eqb normalizedMessage (js "menu") then
       sendHelpMessage phoneNumber
     else
       let* user := Imported.getByPhone L (JStr phoneNumber) in
       if negb (truthy user) || startsWith normalizedMessage (js "register") then
         let* result := registrationHandler_handleMessage phoneNumber messageText in
         deliver phoneNumber result
       else if is_escrow_command normalizedMessage then
         let* result := EscrowHandler.handleMessage E L phoneNumber messageText in
         deliver phoneNumber result
       else
         let* result := PaymentHandler.handleMessage E L phoneNumber messageText in
         deliver phoneNumber result)
    (fun _ => Imported.sendMessage E L (JStr phoneNumber) R_SomethingWrong).

End WithServices.

(** One inbound message: the clock has advanced to [t]. *)
Record Inbound := {
  in_env : Env;
  in_time : Z;
  in_from : jsstring;
  in_body : jsstring;
}.

Definition at_time (t : Z) (w : World) : World :=
  {| users := users w; contacts := contacts w;
     conversation_states := conversation_states w; escrows := escrows w;
     transactions := transactions w; outbox := outbox w; chain := chain w;
     now := Z.max (now w) t |}.

Definition step (L : Linking) (w : World) (i : Inbound) : World :=
  snd (processMessage (in_env i) L (in_from i) (in_body i)
         (at_time (in_time i) w)).

(** The webhook run on a sequence of inbound messages. *)
Definition run (L : Linking) (w : World) (msgs : list Inbound) : World :=
  fold_left (step L) msgs w.

End Webhook.


(** * Notions used in the statements *)

(** ** Strings *)

Definition starts_clean (s : jsstring) : Prop :=
  match s with
  | [] => True
  | c :: _ => is_ws c = false
  end.

Definition trimmed (s : jsstring) : Prop :=
  starts_clean s /\ starts_clean (rev s).





(** ** The declarative meaning of a regular expression *)

(** A matcher configuration: the position, the rest of the subject and the
    captures recorded so far. *)
Abbreviation cfg := (nat * list N * caps)%type.

(** [n] iterations done, some more follow, between [lo] and [hi] in all. *)
Inductive Iter (R : cfg -> cfg -> Prop) (lo : nat) (hi : option nat)
  : nat -> cfg -> cfg -> Prop :=
| IterStop n st : lo <= n -> Iter R lo hi n st st
| IterMore n st st1 st2 :
    below n hi = true -> R st st1 -> Iter R lo hi (S n) st1 st2 ->
    Iter R lo hi n st st2.

(** [sem r a b]: [r] can take the matcher from [a] to [b]. *)
Fixpoint sem (r : regex) : cfg -> cfg -> Prop :=
  match r with
  | REps => fun a b => a = b
  | RChr p => fun a b =>
      exists x s', snd (fst a) = x :: s' /\ p x = true
                   /\ b = (S (fst (fst a)), s', snd a)
  | RSeq r1 r2 => fun a b => exists m, sem r1 a m /\ sem r2 m b
  | RAlt r1 r2 => fun a b => sem r1 a b \/ sem r2 a b
  | RRep lo hi _ r' => Iter (sem r') lo hi 0
  | RGroup i r' => fun a b =>
      exists m, sem r' a m
                /\ b = (fst (fst m), snd (fst m),
                        (i, firstn (fst (fst m) - fst (fst a)) (snd (fst a))) :: snd m)
  | RBol => fun a b => fst (fst a) = 0 /\ b = a
  | REol => fun a b => snd (fst a) = [] /\ b = a
  end.

Fixpoint no_groups (r : regex) : bool :=
  match r with
  | RSeq a b | RAlt a b => no_groups a && no_groups b
  | RRep _ _ _ r' => no_groups r'
  | RGroup _ _ => false
  | _ => true
  end.

(** Digits, then possibly a point and digits: the shape of [\d+(?:\.\d+)?]. *)
Definition number_token (tok : jsstring) : Prop :=
  exists ds frac,
    tok = ds ++ frac /\ ds <> [] /\ Forall (fun c => is_digit c = true) ds
    /\ (frac = [] \/ exists fs, frac = 46%N :: fs /\ fs <> []
                                /\ Forall (fun c => is_digit c = true) fs).

(** No capturing group number [i] inside. *)
Fixpoint avoids (i : nat) (r : regex) : bool :=
  match r with
  | RSeq a b | RAlt a b => avoids i a && avoids i b
  | RRep _ _ _ r' => avoids i r'
  | RGroup j r' => negb (Nat.eqb i j) && avoids i r'
  | _ => true
  end.

(** ** Numbers *)

(** Rounding gives a zero, a finite value or an infinity of the given sign. *)
Definition signed (sx : bool) (x : spec_float) : Prop :=
  match x with
  | S754_zero s | S754_infinity s | S754_finite s _ _ => s = sx
  | S754_nan => False
  end.

(** ** Effects of a computation *)

(** [m] leaves the component [f] of the world as it was. *)
Definition keeps {A X} (f : World -> X) (m : M A) : Prop :=
  forall w, f (snd (m w)) = f w.

(** [m] changes the conversation states. *)
Definition stages {A} (m : M A) (w : World) : Prop :=
  conversation_states (snd (m w)) <> conversation_states w.


(** [m] hands at most one transaction to the network. *)
Definition at_most_once {A} (m : M A) : Prop :=
  forall w, exists l, chain (snd (m w)) = chain w ++ l /\ length l <= 1.



(** The conversation state of a user, and its absence. *)
Definition state_of (phoneNumber : jsstring) (w : World) : option StateRow :=
  conversation_states w !! phoneNumber.

Definition cleared (phoneNumber : jsstring) (w : World) : Prop :=
  state_of phoneNumber w = None.

(** ** A small world for the examples *)

Definition example_phone : jsstring := js "+2349012345678".
Definition example_address_A : jsstring := js "SP2J6ZY48GV1EZ5V2V5RB9MP66SW86PYKKNRV9EJ7".
Definition example_address_U : jsstring := js "SP3FBR2AGK5H9QBDH3EEN6DF8EK8JY7RX8QJ5SVTE".

(** The decimal digits of a natural number, and [Number::toString] on the
    non-negative integers, which is all the examples need. *)
Fixpoint digits_of (fuel : nat) (n : N) (acc : jsstring) : jsstring :=
  match fuel with
  | O => acc
  | S fuel' =>
      let acc' := (48 + n mod 10)%N :: acc in
      if (n <? 10)%N then acc' else digits_of fuel' (n / 10)%N acc'
  end.

Definition integer_text (x : JsNum.num) : jsstring :=
  match x with
  | S754_zero _ => js "0"
  | S754_finite false m e =>
      if (0 <=? e)%Z then digits_of 400 (Z.to_N (Z.shiftl (Z.pos m) e)) []
      else if (Z.pos m mod 2 ^ (- e) =? 0)%Z
      then digits_of 400 (Z.to_N (Z.shiftr (Z.pos m) (- e))) []
      else js "NaN"
  | _ => js "NaN"
  end.

Definition is_string (v : JsVal) : bool :=
  match v with JStr _ => true | _ => false end.

(** Mainnet, a balance of 10 STX for every address (the API fails for what
    is not a string), the default fees, a network that accepts every
    transaction, [can-refund] false. *)
Definition example_env : Env := {|
  env_network := js "mainnet";
  env_balance := fun a => if is_string a then Some (JsNum.of_Z 10) else None;
  env_fee := None;
  env_nonce := fun a => if is_string a then Some (JNum (JsNum.of_Z 0)) else None;
  env_build := fun _ => true;
  env_broadcast := fun _ => Some (obj [("txid", jstr "0xabc")]);
  env_can_refund := fun _ => Some (JBool false);
  env_twilio := fun _ => true;
  env_string_to_number := parseFloat;
  env_number_to_string := integer_text;
|}.

Definition example_escrow (id : Z) (status : string) : EscrowRow := {|
  e_id := id;
  e_sender_phone := JStr example_phone;
  e_sender_stx_address := JStr example_address_U;
  e_recipient_phone := JNull;
  e_recipient_stx_address := JStr example_address_A;
  e_amount_microstx := JNum (JsNum.of_Z 5000000);
  e_timeout_blocks := JNum (JsNum.of_Z 144);
  e_memo := jstr "Escrow via WhatsApp";
  e_tx_id := jstr "0x111";
  e_contract_escrow_id := JNum (JsNum.of_Z id);
  e_status := jstr status;
  e_release_tx_id := JNull;
|}.

(** One registered user with the contact John and the escrow number 3. *)
Definition example_world : World := {|
  users := [ {| u_phone_number := example_phone;
                u_stx_address := example_address_U; u_created_at := 0 |} ];
  contacts := [ {| c_id := 1; c_user_phone := example_phone;
                   c_contact_name := js "John";
                   c_contact_stx_address := example_address_A;
                   c_contact_phone := JNull |} ];
  conversation_states := ∅;
  escrows := [ example_escrow 3 "active" ];
  transactions := [];
  outbox := [];
  chain := [];
  now := 1000;
|}.

(** An object with the properties the handlers read from a user. *)
Definition example_user : JsVal :=
  obj [("phone_number", JStr example_phone);
       ("stx_address", JStr example_address_U);
       ("private_key", jstr "key")].

Definition example_inbound (E : Env) (t : Z) (body : string) : Webhook.Inbound :=
  {| Webhook.in_env := E; Webhook.in_time := t;
     Webhook.in_from := example_phone; Webhook.in_body := js body |}.

(** A user lookup of the kind the handlers read: its result has the
    properties [stx_address] and [private_key].  The repository has no such
    lookup: [UserService.getByPhone] returns [{ success, user }], and a user
    has a phone number and an address only.  It serves to show what the
    handlers do once they are given a user. *)
Definition example_lookup : World -> JsVal -> Res JsVal :=
  fun _ _ => Ok example_user.

(** A staged payment as [handleStateFlow] reads it. *)
Definition example_state : JsVal :=
  obj [("step", jstr "confirm_send");
       ("data",
        obj [("amount", JNum (JsNum.of_Z 5));
             ("amountMicroStx", JNum (JsNum.of_Z 5000000));
             ("recipient",
              obj [("type", jstr "address"); ("address", JStr example_address_A);
                   ("name", JNull); ("isContact", JBool false)]);
             ("senderAddress", JStr example_address_U)])].



(** The example world with a payment confirmation stored for the user,
    ten minutes to live. *)
Definition example_world_staged : World :=
  set_states
    (insert example_phone
       {| s_state_type := jstr "payment"; s_state_data := example_state;
          s_created_at := 1000; s_expires_at := 601000 |})
    example_world.

(** The webhook after the user's "send 5 to John", and after the next
    message of the user. *)
Definition after_send (L : Linking) : World :=
  Webhook.run L example_world [example_inbound example_env 2000 "send 5 to John"].

Definition after_answer (L : Linking) (body : string) : World :=
  Webhook.run L (after_send L) [example_inbound example_env 3000 body].

(** The webhook on one message of the user who has the confirmation
    stored. *)
Definition answer_staged (L : Linking) (body : string) : World :=
  Webhook.run L example_world_staged [example_inbound example_env 3000 body].

(** The escrows a user sent, as [getEscrowsByPhone(phoneNumber, 'sender')]
    returns them. *)
Definition sender_escrows (w : World) (phoneNumber : jsstring) : list EscrowRow :=
  List.filter (fun e => EscrowService.db_eq (e_sender_phone e) (JStr phoneNumber))
    (escrows w).

(** ** Address formats *)

(** The two address prefixes: the rest of a string that starts with SP or ST. *)
Definition address_rest (s : jsstring) : option jsstring :=
  match s with
  | 83%N :: 80%N :: r => Some r
  | 83%N :: 84%N :: r => Some r
  | _ => None
  end.

(** [a] is SP or ST followed by between [lo] and [hi] characters [0-9A-Z]. *)
Definition address_shaped (lo hi : nat) (a : jsstring) : Prop :=
  exists r, address_rest a = Some r /\ lo <= length r <= hi
            /\ Forall (fun c => is_upper_alnum c = true) r.

(** [s] contains SP or ST followed by at least 38 characters [0-9A-Z]. *)
Definition contains_address (s : jsstring) : Prop :=
  exists pre a post, s = pre ++ a ++ post /\ address_shaped 38 38 a.

(** The reading of the candidate rule with a total length of exactly 41. *)
Definition contains_address_41 (s : jsstring) : Prop :=
  exists pre a post, s = pre ++ a ++ post /\ address_shaped 38 40 a /\ length a = 41.

Definition within (n : nat) (hi : option nat) : Prop :=
  match hi with
  | None => True
  | Some h => n <= h
  end.

(** SP and 38 more characters: 40 in all. *)
Definition example_address_40 : jsstring := js "SP00000000000000000000000000000000000000".

(** * The escrow contract (Clarity)

    [escrow.clar], the contract the escrow service calls.  A [uint] is a
    natural number below 2^128 and arithmetic that leaves the range aborts
    the transaction.  A public function that returns an [err] response, or
    that is aborted, leaves the storage and the balances as they were.  The
    arguments of a call are values of the parameter types: a call with an
    argument that is not one (a number that is no [uint], a memo of more than
    256 characters) does not reach the contract. *)

Module EscrowContract.

(** The principals: the contract itself ([as-contract tx-sender]) and all
    the others. *)
Inductive principal : Type :=
| Standard (a : N)
| ThisContract.

#[global] Instance principal_eq_dec : EqDecision principal.
Proof. solve_decision. Defined.

Definition uint_max : N := 2 ^ 128 - 1.

(** The error constants of the contract. *)
Definition err_owner_only : N := 100.
Definition err_not_found : N := 101.
Definition err_already_exists : N := 102.
Definition err_not_authorized : N := 103.
Definition err_invalid_amount : N := 104.
Definition err_escrow_locked : N := 105.
Definition err_escrow_released : N := 106.
Definition err_timeout_not_reached : N := 107.
Definition err_already_released : N := 108.
Definition err_already_refunded : N := 109.

(** The value of the map [escrows]. *)
Record escrow : Type := {
  sender : principal;
  recipient : principal;
  amount : N;
  timeout_height : N;
  status : string;
  memo : list N;
  created_at : N;
}.

(** The data variable, the data map and the STX balances. *)
Record storage : Type := {
  escrow_nonce : N;
  escrows : gmap N escrow;
  stx : principal -> N;
}.

Inductive response (A : Type) : Type :=
| ok (v : A)
| err (code : N).
Arguments ok {A} v.
Arguments err {A} code.

(** Evaluation of an expression: a value, an early return of [(err code)]
    from the enclosing function ([asserts!], [unwrap!], [try!]), or a
    runtime error. *)
Inductive eval (A : Type) : Type :=
| Value (a : A)
| Return (code : N)
| Abort.
Arguments Value {A} a.
Arguments Return {A} code.
Arguments Abort {A}.

Definition C (A : Type) : Type := storage -> eval A * storage.

Definition pure {A} (a : A) : C A := fun s => (Value a, s).
Definition seq {A B} (m : C A) (k : A -> C B) : C B :=
  fun s => match m s with
           | (Value a, s') => k a s'
           | (Return c, s') => (Return c, s')
           | (Abort, s') => (Abort, s')
           end.

Declare Scope clarity_scope.
Delimit Scope clarity_scope with clarity.
Notation "'let!' x ':=' m 'in' k" := (seq m (fun x => k))
  (at level 10, x pattern, m at level 100, k at level 200) : clarity_scope.
Notation "m ';!' k" := (seq m (fun _ => k))
  (at level 100, k at level 200, right associativity) : clarity_scope.
Open Scope clarity_scope.

(** [(asserts! b code)], [(unwrap! o code)], [(try! r)] *)
Definition asserts (b : bool) (code : N) : C bool :=
  fun s => if b then (Value true, s) else (Return code, s).
Definition unwrap {A} (o : option A) (code : N) : C A :=
  fun s => match o with Some a => (Value a, s) | None => (Return code, s) end.
Definition try {A} (r : response A) : C A :=
  fun s => match r with ok v => (Value v, s) | err c => (Return c, s) end.

(** [(+ a b)] on [uint]. *)
Definition uadd (a b : N) : C N :=
  fun s => if (a + b <=? uint_max)%N then (Value (a + b)%N, s) else (Abort, s).

Definition set_nonce (n : N) (s : storage) : storage :=
  {| escrow_nonce := n; escrows := escrows s; stx := stx s |}.
Definition set_escrows (f : gmap N escrow -> gmap N escrow) (s : storage) : storage :=
  {| escrow_nonce := escrow_nonce s; escrows := f (escrows s); stx := stx s |}.
Definition set_stx (f : principal -> N) (s : storage) : storage :=
  {| escrow_nonce := escrow_nonce s; escrows := escrows s; stx := f |}.

(** [(map-set escrows { escrow-id: id } e)] *)
Definition map_set (id : N) (e : escrow) : C bool :=
  fun s => (Value true, set_escrows (insert id e) s).

(** [(merge escrow { status: st })] *)
Definition with_status (st : string) (e : escrow) : escrow :=
  {| sender := sender e; recipient := recipient e; amount := amount e;
     timeout_height := timeout_height e; status := st; memo := memo e;
     created_at := created_at e |}.

(** The balances after [amount] has moved. *)
Definition moved (amount : N) (from to : principal) (bal : principal -> N)
  : principal -> N :=
  fun p => if decide (p = from) then (bal p - amount)%N
           else if decide (p = to) then (bal p + amount)%N
           else bal p.

(** [(stx-transfer? amount from to)] evaluated with the given [tx-sender]:
    [(err u3)] for an amount of zero, [(err u2)] when the two principals are
    the same, [(err u4)] when [from] is not the [tx-sender], [(err u1)] when
    the balance of [from] is too small. *)
Definition stx_transfer (amount : N) (from to tx_sender : principal)
  : C (response bool) :=
  fun s =>
    if (amount =? 0)%N then (Value (err 3%N), s)
    else if decide (from = to) then (Value (err 2%N), s)
    else if decide (from = tx_sender) then
      if (stx s from <? amount)%N then (Value (err 1%N), s)
      else if (stx s to + amount <=? uint_max)%N
      then (Value (ok true), set_stx (moved amount from to (stx s)) s)
      else (Abort, s)
    else (Value (err 4%N), s).

(** [get-next-escrow-id] *)
Definition get_next_escrow_id : C N :=
  fun s =>
    let current_nonce := escrow_nonce s in
    match uadd current_nonce 1 s with
    | (Value n, s') => (Value current_nonce, set_nonce n s')
    | (Return c, s') => (Return c, s')
    | (Abort, s') => (Abort, s')
    end.

Section Call.
(** The context of a call. *)
Variable tx_sender : principal.
Variable block_height : N.

Definition create_escrow (recipient : principal) (amount timeout_blocks : N)
    (memo : list N) : C (response N) :=
  let! escrow_id := get_next_escrow_id in
  let! timeout_height := uadd block_height timeout_blocks in
  asserts (0 <? amount)%N err_invalid_amount ;!
  (let! r := stx_transfer amount tx_sender ThisContract tx_sender in try r) ;!
  map_set escrow_id
    {| sender := tx_sender; recipient := recipient; amount := amount;
       timeout_height := timeout_height; status := "active"; memo := memo;
       created_at := block_height |} ;!
  pure (ok escrow_id).

Definition release_escrow (escrow_id : N) : C (response bool) :=
  fun s =>
    (let! escrow := unwrap (escrows s !! escrow_id) err_not_found in
     asserts (bool_decide (tx_sender = sender escrow)
              || bool_decide (tx_sender = recipient escrow)) err_not_authorized ;!
     asserts (String.eqb (status escrow) "active") err_already_released ;!
     map_set escrow_id (with_status "released" escrow) ;!
     stx_transfer (amount escrow) ThisContract (recipient escrow) ThisContract) s.

Definition refund_escrow (escrow_id : N) : C (response bool) :=
  fun s =>
    (let! escrow := unwrap (escrows s !! escrow_id) err_not_found in
     asserts (bool_decide (tx_sender = sender escrow)) err_not_authorized ;!
     asserts (String.eqb (status escrow) "active") err_already_refunded ;!
     asserts (timeout_height escrow <=? block_height)%N err_timeout_not_reached ;!
     map_set escrow_id (with_status "refunded" escrow) ;!
     stx_transfer (amount escrow) ThisContract (sender escrow) ThisContract) s.

Definition cancel_escrow (escrow_id : N) : C (response bool) :=
  fun s =>
    (let! escrow := unwrap (escrows s !! escrow_id) err_not_found in
     asserts (bool_decide (tx_sender = sender escrow)) err_not_authorized ;!
     asserts (String.eqb (status escrow) "active") err_already_released ;!
     map_set escrow_id (with_status "cancelled" escrow) ;!
     stx_transfer (amount escrow) ThisContract (sender escrow) ThisContract) s.

(** The read-only functions.  [can-refund] and [get-status] wrap the
    constant [err-not-found], itself an [err], in a second [err]. *)
Definition get_escrow (escrow_id : N) (s : storage) : option escrow :=
  escrows s !! escrow_id.

Definition get_escrow_nonce (s : storage) : response N := ok (escrow_nonce s).

Definition can_refund (escrow_id : N) (s : storage) : option bool :=
  match escrows s !! escrow_id with
  | Some escrow =>
      Some (String.eqb (status escrow) "active"
            && (timeout_height escrow <=? block_height)%N)
  | None => None
  end.

Definition get_status (escrow_id : N) (s : storage) : option string :=
  match escrows s !! escrow_id with
  | Some escrow => Some (status escrow)
  | None => None
  end.

End Call.

(** The result of a transaction that calls a public function: the response
    and the storage, which changes only with an [ok]. *)
Inductive outcome (A : Type) : Type :=
| Responded (r : response A)
| Aborted.
Arguments Responded {A} r.
Arguments Aborted {A}.

Definition call_public {A} (body : C (response A)) (s : storage)
  : outcome A * storage :=
  match body s with
  | (Value (ok v), s') => (Responded (ok v), s')
  | (Value (err c), _) => (Responded (err c), s)
  | (Return c, _) => (Responded (err c), s)
  | (Abort, _) => (Aborted, s)
  end.

(** The transactions that call the contract. *)
Inductive call : Type :=
| CreateEscrow (recipient : principal) (amount timeout_blocks : N) (memo : list N)
| ReleaseEscrow (escrow_id : N)
| RefundEscrow (escrow_id : N)
| CancelEscrow (escrow_id : N).

Record tx : Type := {
  tx_caller : principal;
  tx_height : N;
  tx_call : call;
}.

(** The storage after a transaction. *)
Definition exec (s : storage) (t : tx) : storage :=
  match tx_call t with
  | CreateEscrow r a b m =>
      snd (call_public (create_escrow (tx_caller t) (tx_height t) r a b m) s)
  | ReleaseEscrow i => snd (call_public (release_escrow (tx_caller t) i) s)
  | RefundEscrow i =>
      snd (call_public (refund_escrow (tx_caller t) (tx_height t) i) s)
  | CancelEscrow i => snd (call_public (cancel_escrow (tx_caller t) i) s)
  end.

Definition run (s : storage) (txs : list tx) : storage := fold_left exec txs s.

(** The contract as deployed. *)
Definition deployed (balances : principal -> N) : storage :=
  {| escrow_nonce := 0; escrows := ∅; stx := balances |}.

(** *** Notions used in the statements *)

Definition active (e : escrow) : bool := String.eqb (status e) "active".

(** What the contract holds for an escrow, and for all of them. *)
Definition held (e : escrow) : N := if active e then amount e else 0%N.
Definition locked (m : gmap N escrow) : N :=
  map_fold (fun _ e acc => (held e + acc)%N) 0%N m.

(** The terms of an escrow, which no function changes. *)
Definition same_terms (e e' : escrow) : Prop :=
  sender e' = sender e /\ recipient e' = recipient e /\ amount e' = amount e
  /\ timeout_height e' = timeout_height e /\ memo e' = memo e
  /\ created_at e' = created_at e.

(** The storage after an escrow is settled with the status [st] and its
    amount is paid to [to]. *)
Definition settled (st : string) (i : N) (e : escrow) (to : principal) (s : storage)
  : storage :=
  {| escrow_nonce := escrow_nonce s;
     escrows := <[i := with_status st e]> (escrows s);
     stx := moved (amount e) ThisContract to (stx s) |}.

(** One transaction: the storage is unchanged, or an escrow was created
    under the next id, or an active escrow was settled. *)
Inductive effect (s : storage) : storage -> Prop :=
| NoEffect : effect s s
| Created c r a th m h :
    (0 < a)%N -> c <> ThisContract -> (a <= stx s c)%N ->
    effect s {| escrow_nonce := escrow_nonce s + 1;
                escrows := <[escrow_nonce s :=
                             {| sender := c; recipient := r; amount := a;
                                timeout_height := th; status := "active";
                                memo := m; created_at := h |}]> (escrows s);
                stx := moved a c ThisContract (stx s) |}
| Settled st i e to :
    escrows s !! i = Some e -> active e = true ->
    In st ["released"; "refunded"; "cancelled"] ->
    to <> ThisContract -> (amount e <= stx s ThisContract)%N ->
    effect s (settled st i e to s).

(** [a] has moved from [from] to [to] and no other balance has changed. *)
Definition pays (a : N) (from to : principal) (s s' : storage) : Prop :=
  (a <= stx s from)%N
  /\ stx s' from = (stx s from - a)%N
  /\ stx s' to = (stx s to + a)%N
  /\ forall p, p <> from -> p <> to -> stx s' p = stx s p.

(** The statuses an escrow ends in, and the ways a record changes. *)
Definition terminal (st : string) : Prop :=
  In st ["released"; "refunded"; "cancelled"].

Definition evolves (e e' : escrow) : Prop :=
  e' = e \/ (same_terms e e' /\ active e = true /\ terminal (status e')).

Record consistent (s : storage) : Prop := {
  ids_below_nonce : forall id e, escrows s !! id = Some e -> (id < escrow_nonce s)%N;
  ids_all_used : forall id, (id < escrow_nonce s)%N -> is_Some (escrows s !! id);
  amounts_positive : forall id e, escrows s !! id = Some e -> (0 < amount e)%N;
  senders_standard : forall id e, escrows s !! id = Some e -> sender e <> ThisContract;
  statuses_known : forall id e, escrows s !! id = Some e ->
    In (status e) ["active"; "released"; "refunded"; "cancelled"];
  solvent : (locked (escrows s) <= stx s ThisContract)%N;
}.

(** *** An example: the first wallet has 10 STX and puts 5 STX in escrow
    for the second one at height 100, with a time-out of 144 blocks. *)

Definition wallet_1 : principal := Standard 1.
Definition wallet_2 : principal := Standard 2.
Definition wallet_3 : principal := Standard 3.

Definition example_balances (p : principal) : N :=
  if decide (p = wallet_1) then 10000000%N else 0%N.

Definition example_record (st : string) : escrow :=
  {| sender := wallet_1; recipient := wallet_2; amount := 5000000;
     timeout_height := 244; status := st; memo := []; created_at := 100 |}.

Definition example_create : tx :=
  {| tx_caller := wallet_1; tx_height := 100;
     tx_call := CreateEscrow wallet_2 5000000 144 [] |}.

Definition example_tx (caller : principal) (height : N) (c : call) : tx :=
  {| tx_caller := caller; tx_height := height; tx_call := c |}.

(** The storage once the escrow is created. *)
Definition example_created : storage := run (deployed example_balances) [example_create].

Close Scope clarity_scope.

End EscrowContract.

(** * The rest of the state service and of the registration handler *)

(** ** state.service.js *)

(** [getStateType]: the type of the active state, or [null]. *)
Definition getStateType (phoneNumber : jsstring) : M JsVal :=
  let* result := StateService.getState phoneNumber in
  let* ok := lift (get result "success") in
  if truthy ok then
    let* state := lift (get result "state") in
    lift (get state "stateType")
  else ret JNull.

(** [cleanExpiredStates]: [delete().lt('expires_at', now).select(...)];
    the number of the rows deleted. *)
Definition cleanExpiredStates : M nat :=
  fun w =>
    (Ok (size (filter (fun kr => (s_expires_at kr.2 < now w)%Z)
                 (conversation_states w))),
     set_states (filter (fun kr => ~ (s_expires_at kr.2 < now w)%Z)) w).

(** ** registration.handler.js *)

Module RegistrationCommands.

(** What [initiateRegistration] returns: the result of [startRegistration],
    or the failure "Already registered". *)
Inductive InitiateResult :=
| Initiated (r : RegistrationHandler.Result)
| AlreadyRegistered.

Record RegistrationStatus := {
  registered : bool;
  inProgress : JsVal;
  state : JsVal;
}.

Section WithEnv.
Variable E : Env.

Definition initiateRegistration (phoneNumber : jsstring) : M InitiateResult :=
  let* userExists := UserService.exists_ phoneNumber in
  if userExists then
    RegistrationHandler.sendErrorMessage E phoneNumber
      "You are already registered. Type help for available commands." ;;
    ret AlreadyRegistered
  else
    let* r := RegistrationHandler.startRegistration E phoneNumber in
    ret (Initiated r).

(** [cancelRegistration]: whether it reports success. *)
Definition cancelRegistration (phoneNumber : jsstring) : M bool :=
  let* cleared := StateService.clearState phoneNumber in
  let* ok := lift (get cleared "success") in
  if truthy ok then
    sendMessage E (JStr phoneNumber) R_RegistrationCancelled ;;
    ret true
  else ret false.

(** [getRegistrationStatus]; [a && b] is [a] when [a] is falsy. *)
Definition getRegistrationStatus (phoneNumber : jsstring) : M RegistrationStatus :=
  let* userExists := UserService.exists_ phoneNumber in
  let* stateResult := StateService.getState phoneNumber in
  let* ok := lift (get stateResult "success") in
  if truthy ok then
    let* st := lift (get stateResult "state") in
    let* stateType := lift (get st "stateType") in
    ret {| registered := userExists;
           inProgress := JBool (strict_eq stateType (jstr "registration"));
           state := st |}
  else
    ret {| registered := userExists; inProgress := ok; state := JNull |}.

End WithEnv.
End RegistrationCommands.

(** * Further notions used in the statements *)

(** What follows the prefix [p] in [s]. *)
Fixpoint after_prefix (p s : jsstring) : option jsstring :=
  match p with
  | [] => Some s
  | x :: p' =>
      match s with
      | y :: s' => if N.eqb x y then after_prefix p' s' else None
      | [] => None
      end
  end.

(** [p] is +234 followed by exactly ten digits. *)
Definition phone_shaped (p : jsstring) : Prop :=
  exists d, p = js "+234" ++ d /\ length d = 10
            /\ Forall (fun c => is_digit c = true) d.

(** The prefix of the addresses of the configured network. *)
Definition network_prefix (E : Env) : jsstring :=
  if str_eqb (env_network E) (js "mainnet") then js "SP" else js "ST".

(** No user has the phone number, or the address. *)
Definition phone_unused (w : World) (phoneNumber : jsstring) : Prop :=
  Forall (fun u => u_phone_number u <> phoneNumber) (users w).
Definition address_unused (w : World) (stxAddress : jsstring) : Prop :=
  Forall (fun u => u_stx_address u <> stxAddress) (users w).

(** The world when the next message arrives, at the time [t]: the clock
    has advanced, everything else is as [w] left it. *)
Definition later (t : Z) (w : World) : World := Webhook.at_time t w.

(** What [getState] returns for an active state. *)
Definition state_result (phoneNumber : jsstring) (r : StateRow) : JsVal :=
  obj [("success", JBool true);
       ("state", obj [("phoneNumber", JStr phoneNumber);
                      ("stateType", s_state_type r);
                      ("stateData", s_state_data r);
                      ("createdAt", JNum (JsNum.of_Z (s_created_at r)));
                      ("expiresAt", JNum (JsNum.of_Z (s_expires_at r)))])].

(** The world in which the next message of a user who has just sent [m1]
    to [handleRegistration] is handled, at the time [t]. *)
Definition registering (E : Env) (phoneNumber m1 : jsstring) (t : Z) (w : World)
  : World :=
  later t (snd (RegistrationHandler.handleRegistration E phoneNumber m1 w)).

(** Every message that [m] hands to Twilio goes to a number made of +234
    and ten digits. *)
Definition polite {A} (m : M A) : Prop :=
  forall w, exists l,
    outbox (snd (m w)) = outbox w ++ l
    /\ Forall (fun e => phone_shaped (fst e)) l.

(** What [resolveRecipient] returns for an address. *)
Definition address_recipient (address : jsstring) : JsVal :=
  obj [("type", jstr "address"); ("address", JStr address);
       ("name", JNull); ("isContact", JBool false)].

(** [m] sends at most one message, and to [phoneNumber]. *)
Definition answers {A} (phoneNumber : jsstring) (m : M A) : Prop :=
  forall w,
    outbox (snd (m w)) = outbox w
    \/ exists reply, outbox (snd (m w)) = outbox w ++ [(phoneNumber, reply)].

(** [m] changes no table, hands nothing to the network and leaves the clock
    alone. *)
Definition reads_only {A} (m : M A) : Prop :=
  keeps users m /\ keeps contacts m /\ keeps conversation_states m
  /\ keeps escrows m /\ keeps transactions m /\ keeps chain m /\ keeps now m.

(** * Properties *)

(** ** Strings *)

Lemma str_eqb_eq (a b : jsstring) : str_eqb a b = true <-> a = b.
Proof.
  revert b; induction a as [|x a IH]; intros [|y b]; simpl; split; try easy.
  - intros H. apply andb_true_iff in H as [H1 H2].
    apply N.eqb_eq in H1. apply IH in H2. congruence.
  - intros H. inversion H; subst. rewrite N.eqb_refl. simpl. now apply IH.
Qed.

Lemma str_eqb_refl (a : jsstring) : str_eqb a a = true.
Proof. now apply str_eqb_eq. Qed.

Lemma str_eqb_neq (a b : jsstring) : str_eqb a b = false <-> a <> b.
Proof.
  split.
  - intros H Heq. apply str_eqb_eq in Heq. congruence.
  - intros H. destruct (str_eqb a b) eqn:Heq; [|reflexivity].
    apply str_eqb_eq in Heq. contradiction.
Qed.

(** *** Trimming *)

Lemma trimStart_clean (s : jsstring) : starts_clean (trimStart s).
Proof.
  induction s as [|c s IH]; simpl; [exact I|].
  destruct (is_ws c) eqn:Hc; [exact IH|]. simpl. exact Hc.
Qed.

Lemma trimStart_id (s : jsstring) : starts_clean s -> trimStart s = s.
Proof. destruct s as [|c s]; simpl; [reflexivity|]. now intros ->. Qed.

Lemma trimStart_snoc (a : jsstring) (h : N) :
  is_ws h = false -> trimStart (a ++ [h]) = trimStart a ++ [h].
Proof.
  intros Hh. induction a as [|c a IH]; simpl.
  - now rewrite Hh.
  - destruct (is_ws c); [exact IH|reflexivity].
Qed.

Lemma trimEnd_keeps_head (s : jsstring) :
  starts_clean s -> starts_clean (trimEnd s).
Proof.
  destruct s as [|h s]; [intros _; exact I|].
  simpl. intros Hh. unfold trimEnd. simpl.
  rewrite trimStart_snoc by exact Hh.
  rewrite rev_app_distr. simpl. exact Hh.
Qed.

Lemma trim_trimmed (s : jsstring) : trimmed (trim s).
Proof.
  unfold trim. split.
  - apply trimEnd_keeps_head, trimStart_clean.
  - unfold trimEnd. rewrite rev_involutive. apply trimStart_clean.
Qed.

Lemma trim_id (s : jsstring) : trimmed s -> trim s = s.
Proof.
  intros [H1 H2]. unfold trim, trimEnd.
  rewrite (trimStart_id s H1), (trimStart_id (rev s) H2).
  apply rev_involutive.
Qed.






(** *** [normalizeContactName] as a scan *)






(** *** Code units with a one-to-one upper-casing *)








(** ** STX / microSTX conversions *)

(** [validator.js] rounds to the nearest integer: the round trip holds on
    the amounts below 0.002 STX (checked by evaluation). *)
Lemma validatorjs_round_trip_small :
  forallb (fun x =>
    JsNum.eqb (ValidatorJs.stxToMicroStx (ValidatorJs.microStxToStx (JsNum.of_Z x)))
      (JsNum.of_Z x))
    (map Z.of_nat (seq 0 2000)) = true.
Proof. vm_compute. reflexivity. Qed.

(** C7: the round trip fails for the conversions that truncate.  At
    x = 249 microSTX, [microStxToStx] gives 0.000249, whose product with
    1000000 is 248.99999999999997: [formatter.ts] and the stacks service
    ([Math.floor]) return 248, [validator.js] ([Math.round]) returns 249.
    In the other direction the literal 0.000249 comes back as 0.000248. *)
Theorem C7_floor_breaks_round_trip :
  Formatter.stxToMicroStx (Formatter.microStxToStx (JsNum.of_Z 249)) = JsNum.of_Z 248
  /\ StacksNum.stxToMicroStx (StacksNum.microStxToStx (JsNum.of_Z 249)) = JsNum.of_Z 248
  /\ ValidatorJs.stxToMicroStx (ValidatorJs.microStxToStx (JsNum.of_Z 249)) = JsNum.of_Z 249
  /\ JsNum.eqb (Formatter.stxToMicroStx (Formatter.microStxToStx (JsNum.of_Z 249)))
       (JsNum.of_Z 249) = false
  /\ Formatter.microStxToStx (Formatter.stxToMicroStx (JsNum.of_decimal 249 6))
     = JsNum.of_decimal 248 6.
Proof. vm_compute. repeat split; reflexivity. Qed.

(** ** The regular expression engine *)

Lemma orelse_some {A} (x y : option A) (v : A) :
  orelse x y = Some v -> x = Some v \/ y = Some v.
Proof. destruct x; simpl; auto. Qed.

(** Whatever the quantifier loop returns was returned by the continuation
    after some iterations. *)
Lemma rep_loop_sound {R}
    (mr : nat -> jsstring -> caps -> (nat -> jsstring -> caps -> option R) -> option R)
    (Rel : cfg -> cfg -> Prop) (lo : nat) (hi : option nat) (greedy : bool)
    (k : nat -> jsstring -> caps -> option R) :
  (forall pos s c k' res, mr pos s c k' = Some res ->
     exists pos' s' c', Rel (pos, s, c) (pos', s', c') /\ k' pos' s' c' = Some res) ->
  forall fuel n pos s c res,
    rep_loop mr lo hi greedy k fuel n pos s c = Some res ->
    exists pos' s' c',
      Iter Rel lo hi n (pos, s, c) (pos', s', c') /\ k pos' s' c' = Some res.
Proof.
  intros Hmr. induction fuel as [|fuel IH]; intros n pos s c res H.
  - simpl in H.
    assert (Hstop : (if Nat.leb lo n then k pos s c else None) = Some res).
    { destruct greedy; simpl in H; [exact H|].
      destruct (if Nat.leb lo n then k pos s c else None); simpl in H; congruence. }
    destruct (Nat.leb lo n) eqn:Hlo; [|discriminate].
    exists pos, s, c. split; [|exact Hstop].
    apply IterStop. now apply Nat.leb_le.
  - cbn [rep_loop] in H.
    assert (Hcases :
      (if Nat.leb lo n then k pos s c else None) = Some res
      \/ (if below n hi then
            mr pos s c (fun pos' s' c' =>
              if Nat.ltb (length s') (length s) || Nat.ltb n lo
              then rep_loop mr lo hi greedy k fuel (S n) pos' s' c'
              else None)
          else None) = Some res).
    { destruct greedy; apply orelse_some in H; tauto. }
    destruct Hcases as [Hstop|Hmore].
    + destruct (Nat.leb lo n) eqn:Hlo; [|discriminate].
      exists pos, s, c. split; [|exact Hstop].
      apply IterStop. now apply Nat.leb_le.
    + destruct (below n hi) eqn:Hb; [|discriminate].
      apply Hmr in Hmore as (pos1 & s1 & c1 & Hrel & Hk).
      destruct (Nat.ltb (length s1) (length s) || Nat.ltb n lo); [|discriminate].
      apply IH in Hk as (pos' & s' & c' & Hit & Hk).
      exists pos', s', c'. split; [|exact Hk].
      eapply IterMore; eauto.
Qed.

(** Soundness of the matcher: a result comes from the continuation, applied
    to a configuration that the expression can reach. *)
Lemma rmatch_sound {R} (r : regex) :
  forall pos s c (k : nat -> jsstring -> caps -> option R) res,
    rmatch r pos s c k = Some res ->
    exists pos' s' c',
      sem r (pos, s, c) (pos', s', c') /\ k pos' s' c' = Some res.
Proof.
  induction r as [|p|a IHa b IHb|a IHa b IHb|lo hi greedy r IHr|i r IHr| |];
    intros pos s c k res H; cbn [rmatch] in H.
  - exists pos, s, c. split; [reflexivity|exact H].
  - destruct s as [|x s']; [discriminate|].
    destruct (p x) eqn:Hp; [|discriminate].
    exists (S pos), s', c. split; [|exact H].
    simpl. exists x, s'. auto.
  - apply IHa in H as (p1 & s1 & c1 & Ha & H).
    apply IHb in H as (p2 & s2 & c2 & Hb & H).
    exists p2, s2, c2. split; [|exact H]. simpl. eauto.
  - apply orelse_some in H as [H|H].
    + apply IHa in H as (p1 & s1 & c1 & Ha & H).
      exists p1, s1, c1. split; [left; exact Ha|exact H].
    + apply IHb in H as (p1 & s1 & c1 & Hb & H).
      exists p1, s1, c1. split; [right; exact Hb|exact H].
  - eapply rep_loop_sound in H; [|exact IHr]. exact H.
  - apply IHr in H as (p1 & s1 & c1 & Hr & H).
    eexists _, _, _. split; [|exact H].
    simpl. exists (p1, s1, c1). split; [exact Hr|reflexivity].
  - destruct (Nat.eqb pos 0) eqn:Hp; [|discriminate].
    exists pos, s, c. split; [|exact H].
    simpl. split; [now apply Nat.eqb_eq|reflexivity].
  - destruct s; [|discriminate].
    exists pos, [], c. split; [|exact H]. simpl. auto.
Qed.

Lemma search_some (r : regex) (subject : jsstring) (fuel i : nat) (res : result) :
  search r subject i fuel = Some res ->
  exists j, i <= j <= i + fuel /\ match_at r subject j = Some res.
Proof.
  revert i. induction fuel as [|fuel IH]; intros i H; simpl in H.
  - destruct (match_at r subject i) eqn:Hm; [|discriminate].
    exists i. split; [lia|congruence].
  - destruct (match_at r subject i) eqn:Hm.
    + exists i. split; [lia|congruence].
    + apply IH in H as (j & Hj & H). exists j. split; [lia|exact H].
Qed.

(** A match of [exec]: the expression takes the subject from some index
    [i] to the end of [match[0]], leaving the captures of the result. *)
Lemma exec_sound (r : regex) (subject : jsstring) (res : result) :
  exec r subject = Some res ->
  exists i pos' s',
    i <= length subject
    /\ sem r (i, skipn i subject, []) (pos', s', r_caps res)
    /\ r_index res = i
    /\ r_whole res = firstn (pos' - i) (skipn i subject).
Proof.
  intros H. apply search_some in H as (i & Hi & H).
  unfold match_at in H. apply rmatch_sound in H as (pos' & s' & c' & Hsem & H).
  inversion H; subst. simpl. exists i, pos', s'. repeat split; auto. lia.
Qed.

(** What an expression consumes is a prefix of the subject, and the position
    advances by its length. *)
Lemma iter_frame (Rel : cfg -> cfg -> Prop) (lo : nat) (hi : option nat) :
  (forall a b, Rel a b ->
     exists u, snd (fst a) = u ++ snd (fst b) /\ fst (fst b) = fst (fst a) + length u) ->
  forall n a b, Iter Rel lo hi n a b ->
    exists u, snd (fst a) = u ++ snd (fst b) /\ fst (fst b) = fst (fst a) + length u.
Proof.
  intros HR n a b H. induction H as [n st Hn|n st st1 st2 Hb Hr Hit IH].
  - exists []. simpl. split; [reflexivity|lia].
  - apply HR in Hr as (u1 & Hu1 & Hp1). destruct IH as (u2 & Hu2 & Hp2).
    exists (u1 ++ u2). rewrite Hu1, Hu2, <- app_assoc, length_app.
    split; [reflexivity|lia].
Qed.

Lemma sem_frame (r : regex) :
  forall a b, sem r a b ->
    exists u, snd (fst a) = u ++ snd (fst b) /\ fst (fst b) = fst (fst a) + length u.
Proof.
  induction r as [|p|r1 IH1 r2 IH2|r1 IH1 r2 IH2|lo hi greedy r IHr|i r IHr| |];
    intros a b H; simpl in H.
  - subst. exists []. simpl. split; [reflexivity|lia].
  - destruct H as (x & s' & Hs & _ & ->). exists [x]. simpl. split; [exact Hs|lia].
  - destruct H as (m & Ha & Hb).
    apply IH1 in Ha as (u1 & Hu1 & Hp1). apply IH2 in Hb as (u2 & Hu2 & Hp2).
    exists (u1 ++ u2). rewrite Hu1, Hu2, <- app_assoc, length_app.
    split; [reflexivity|lia].
  - destruct H as [H|H]; [apply IH1 in H|apply IH2 in H]; exact H.
  - eapply iter_frame; eauto.
  - destruct H as (m & Hr & ->). apply IHr in Hr. simpl. exact Hr.
  - destruct H as [_ ->]. exists []. simpl. split; [reflexivity|lia].
  - destruct H as [_ ->]. exists []. simpl. split; [reflexivity|lia].
Qed.

(** An expression without groups leaves the captures alone. *)
Lemma iter_caps (Rel : cfg -> cfg -> Prop) (lo : nat) (hi : option nat) :
  (forall a b, Rel a b -> snd b = snd a) ->
  forall n a b, Iter Rel lo hi n a b -> snd b = snd a.
Proof.
  intros HR n a b H. induction H as [|n st st1 st2 Hb Hr Hit IH]; [reflexivity|].
  rewrite IH. now apply HR.
Qed.

Lemma sem_no_groups (r : regex) :
  no_groups r = true -> forall a b, sem r a b -> snd b = snd a.
Proof.
  induction r as [|p|r1 IH1 r2 IH2|r1 IH1 r2 IH2|lo hi greedy r IHr|i r IHr| |];
    simpl; intros Hng a b H.
  - now subst.
  - destruct H as (x & s' & _ & _ & ->). reflexivity.
  - apply andb_true_iff in Hng as [H1 H2]. destruct H as (m & Ha & Hb).
    rewrite (IH2 H2 _ _ Hb). now apply IH1.
  - apply andb_true_iff in Hng as [H1 H2]. destruct H as [H|H]; auto.
  - eapply iter_caps; eauto.
  - discriminate.
  - now destruct H as [_ ->].
  - now destruct H as [_ ->].
Qed.

(** The group of a capturing group is what the group consumed. *)
Lemma sem_group (i : nat) (r : regex) (a b : cfg) :
  sem (RGroup i r) a b ->
  exists u c', snd (fst a) = u ++ snd (fst b)
               /\ fst (fst b) = fst (fst a) + length u
               /\ sem r a (fst (fst b), snd (fst b), c')
               /\ snd b = (i, u) :: c'.
Proof.
  simpl. intros (m & Hr & ->). destruct m as [[pm sm] cm]. simpl.
  pose proof (sem_frame r _ _ Hr) as (u & Hu & Hp). simpl in *.
  exists u, cm. repeat split; auto.
  rewrite Hp, Hu. replace (fst (fst a) + length u - fst (fst a)) with (length u) by lia.
  now rewrite firstn_app, Nat.sub_diag, firstn_all, app_nil_r.
Qed.

(** Iterating a one-character class consumes characters of the class. *)
Lemma iter_chr (p : N -> bool) (lo : nat) (hi : option nat) :
  forall n a b, Iter (sem (RChr p)) lo hi n a b ->
    exists u, snd (fst a) = u ++ snd (fst b)
              /\ Forall (fun c => p c = true) u
              /\ lo <= n + length u /\ snd b = snd a
              /\ fst (fst b) = fst (fst a) + length u.
Proof.
  intros n a b H. induction H as [n st Hn|n st st1 st2 Hb Hr Hit IH].
  - exists []. simpl. repeat split; auto; lia.
  - destruct Hr as (x & s' & Hs & Hp & ->). destruct IH as (u & Hu & Hall & Hlo & Hc & Hpos).
    simpl in *. exists (x :: u). rewrite Hs, Hu. simpl.
    repeat split; auto; lia.
Qed.

(** ** The amount token *)

Lemma sem_rcat_cons (r : regex) (rs : list regex) (a b : cfg) :
  sem (rcat (r :: rs)) a b <-> exists m, sem r a m /\ sem (rcat rs) m b.
Proof.
  destruct rs as [|r' rs].
  - simpl. split.
    + intros H. exists b. auto.
    + intros (m & H & ->). exact H.
  - reflexivity.
Qed.

Lemma iter_avoids (Rel : cfg -> cfg -> Prop) (lo : nat) (hi : option nat) (i : nat) :
  (forall a b, Rel a b -> cap_get i (snd b) = cap_get i (snd a)) ->
  forall n a b, Iter Rel lo hi n a b -> cap_get i (snd b) = cap_get i (snd a).
Proof.
  intros HR n a b H. induction H as [|n st st1 st2 Hb Hr Hit IH]; [reflexivity|].
  rewrite IH. now apply HR.
Qed.

Lemma sem_avoids (i : nat) (r : regex) :
  avoids i r = true ->
  forall a b, sem r a b -> cap_get i (snd b) = cap_get i (snd a).
Proof.
  induction r as [|p|r1 IH1 r2 IH2|r1 IH1 r2 IH2|lo hi greedy r IHr|j r IHr| |];
    simpl; intros Hav a b H.
  - now subst.
  - destruct H as (x & s' & _ & _ & ->). reflexivity.
  - apply andb_true_iff in Hav as [H1 H2]. destruct H as (m & Ha & Hb).
    rewrite (IH2 H2 _ _ Hb). now apply IH1.
  - apply andb_true_iff in Hav as [H1 H2]. destruct H as [H|H]; auto.
  - eapply iter_avoids; eauto.
  - apply andb_true_iff in Hav as [H1 H2]. destruct H as (m & Hr & ->).
    simpl. apply negb_true_iff in H1. rewrite H1. now apply IHr.
  - now destruct H as [_ ->].
  - now destruct H as [_ ->].
Qed.

Lemma sem_plus_chr (p : N -> bool) (a b : cfg) :
  sem (plus (RChr p)) a b ->
  exists u, snd (fst a) = u ++ snd (fst b) /\ u <> []
            /\ Forall (fun c => p c = true) u /\ snd b = snd a.
Proof.
  intros H. apply iter_chr in H as (u & Hu & Hall & Hlo & Hc & _).
  exists u. repeat split; auto. destruct u; simpl in *; [lia|easy].
Qed.

(** The first group of a match of [amount_token] is a number token. *)
Lemma sem_amount_token (a b : cfg) :
  sem amount_token a b ->
  exists tok, number_token tok /\ snd b = (1, tok) :: snd a.
Proof.
  intros H. apply sem_group in H as (u & c' & Hu & _ & Hin & Hcaps).
  exists u. rewrite Hcaps.
  change (sem (RSeq (plus digit)
                 (opt (RSeq (RChr (is_lit 46)) (plus digit)))) a
            (fst (fst b), snd (fst b), c')) in Hin.
  destruct Hin as (m & Hds & Hopt).
  apply sem_plus_chr in Hds as (ds & Hds & Hne & Hall & Hc1).
  assert (Hfrac : exists frac,
             snd (fst m) = frac ++ snd (fst b) /\ c' = snd m
             /\ (frac = [] \/ exists fs, frac = 46%N :: fs /\ fs <> []
                   /\ Forall (fun c => is_digit c = true) fs)).
  { change (Iter (sem (RSeq (RChr (is_lit 46)) (plus digit))) 0 (Some 1) 0 m
              (fst (fst b), snd (fst b), c')) in Hopt.
    inversion Hopt as [n st Hn|n st st1 st2 Hb Hr Hit]; subst.
    - exists []. simpl. auto.
    - destruct Hr as (m1 & (x & s' & Hs & Hx & ->) & Hfs).
      unfold is_lit in Hx. apply N.eqb_eq in Hx. subst x.
      apply sem_plus_chr in Hfs as (fs & Hfs & Hfne & Hfall & Hc2).
      inversion Hit as [n st Hn|n st st1' st2' Hb' Hr' Hit']; subst.
      + cbn [fst snd] in *. exists (46%N :: fs). rewrite Hs, Hfs.
        split; [reflexivity|]. split; [congruence|]. right.
        exists fs. auto.
      + simpl in Hb'. discriminate. }
  destruct Hfrac as (frac & Hfrac & Hc & Hshape).
  split.
  - exists ds, frac. repeat split; auto.
    rewrite Hds, Hfrac, app_assoc in Hu. now apply app_inv_tail in Hu.
  - congruence.
Qed.

(** In a pattern [pre ; amount_token ; post] where only the token has the
    group number 1, that group of a match is a number token. *)
Lemma rcat_amount_group (pre post : list regex) (a b : cfg) :
  no_groups (rcat pre) = true -> avoids 1 (rcat post) = true ->
  sem (rcat (pre ++ amount_token :: post)) a b ->
  exists tok, number_token tok /\ cap_get 1 (snd b) = Some tok.
Proof.
  intros Hpre Hpost. revert a. induction pre as [|r pre IH]; intros a H.
  - simpl app in H. apply sem_rcat_cons in H as (m & Htok & Hrest).
    apply sem_amount_token in Htok as (tok & Htok & Hc).
    exists tok. split; [exact Htok|].
    rewrite (sem_avoids 1 _ Hpost _ _ Hrest), Hc. reflexivity.
  - change ((r :: pre) ++ amount_token :: post)
      with (r :: (pre ++ amount_token :: post)) in H.
    apply sem_rcat_cons in H as (m & Hr & Hrest).
    apply IH in Hrest; [exact Hrest|].
    destruct pre; [reflexivity|]. simpl in Hpre.
    now apply andb_true_iff in Hpre as [_ ?].
Qed.

Lemma exec_amount_group (pre post : list regex) (subject : jsstring) (m : result) :
  no_groups (rcat pre) = true -> avoids 1 (rcat post) = true ->
  exec (rcat (pre ++ amount_token :: post)) subject = Some m ->
  number_token (group 1 m).
Proof.
  intros Hpre Hpost H. apply exec_sound in H as (i & pos' & s' & _ & Hsem & _).
  eapply rcat_amount_group in Hsem as (tok & Htok & Hget); eauto.
  simpl in Hget. unfold group. now rewrite Hget.
Qed.

Lemma re_send_group1 (message : jsstring) (m : result) :
  exec re_send message = Some m -> number_token (group 1 m).
Proof.
  apply (exec_amount_group [lit_ci (js "send"); plus ws]
           [star ws; opt (lit_ci (js "stx")); plus ws; lit_ci (js "to");
            plus ws; RGroup 2 (plus dot)]); reflexivity.
Qed.

Lemma re_escrow_group1 (message : jsstring) (m : result) :
  exec EscrowHandler.re_escrow message = Some m -> number_token (group 1 m).
Proof.
  apply (exec_amount_group [lit_ci (js "escrow"); plus ws]
           [plus ws; lit_ci (js "to"); plus ws; RGroup 2 (lazy_plus dot); plus ws;
            lit_ci (js "for"); plus ws; RGroup 3 (plus digit); plus ws;
            RGroup 4 (RAlt (lit_ci (js "hour"))
                        (RAlt (lit_ci (js "hours"))
                           (RAlt (lit_ci (js "day")) (lit_ci (js "days")))))]);
    reflexivity.
Qed.

Lemma first_match_some (ps : list regex) (subject : jsstring) (m : result) :
  ParserTs.first_match ps subject = Some m ->
  exists p, In p ps /\ exec p subject = Some m.
Proof.
  induction ps as [|p ps IH]; simpl; [discriminate|].
  destruct (exec p subject) eqn:Hp.
  - intros [= ->]. exists p. auto.
  - intros H. apply IH in H as (p' & Hin & H). exists p'. auto.
Qed.

(** ** Numbers *)

Lemma shr_1_nonneg (mrs : shr_record) :
  (0 <= shr_m mrs)%Z -> (0 <= shr_m (shr_1 mrs))%Z.
Proof.
  destruct mrs as [m r s]. simpl. intros H.
  destruct m as [|p|p]; [simpl; lia| |lia].
  destruct p; simpl; lia.
Qed.

Lemma iter_pos_nonneg (p : positive) (mrs : shr_record) :
  (0 <= shr_m mrs)%Z -> (0 <= shr_m (SpecFloat.iter_pos shr_1 p mrs))%Z.
Proof.
  revert mrs. induction p as [p IH|p IH|]; intros mrs H; simpl.
  - apply IH, IH, shr_1_nonneg, H.
  - apply IH, IH, H.
  - apply shr_1_nonneg, H.
Qed.

Lemma shr_fexp_nonneg (prec emax m e : Z) (l : location) :
  (0 <= m)%Z -> (0 <= shr_m (fst (shr_fexp prec emax m e l)))%Z.
Proof.
  intros H. unfold shr_fexp, shr.
  assert (H0 : (0 <= shr_m (shr_record_of_loc m l))%Z).
  { destruct l as [|[]]; simpl; exact H. }
  destruct (fexp prec emax (Zdigits2 m + e) - e)%Z; simpl; auto.
  now apply iter_pos_nonneg.
Qed.

Lemma round_nearest_even_nonneg (mx : Z) (lx : location) :
  (0 <= mx)%Z -> (0 <= round_nearest_even mx lx)%Z.
Proof.
  intros H. destruct lx as [|[]]; simpl; try lia.
  destruct (Z.even mx); lia.
Qed.

Lemma binary_round_aux_signed (prec emax : Z) (sx : bool) (mx ex : Z) (lx : location) :
  (0 <= mx)%Z -> signed sx (binary_round_aux prec emax sx mx ex lx).
Proof.
  intros H. unfold binary_round_aux.
  pose proof (shr_fexp_nonneg prec emax mx ex lx H) as H1.
  destruct (shr_fexp prec emax mx ex lx) as [mrs' e']. simpl in H1.
  pose proof (round_nearest_even_nonneg (shr_m mrs') (loc_of_shr_record mrs') H1) as H2.
  pose proof (shr_fexp_nonneg prec emax _ e' loc_Exact H2) as H3.
  destruct (shr_fexp prec emax
              (round_nearest_even (shr_m mrs') (loc_of_shr_record mrs')) e' loc_Exact)
    as [mrs'' e'']. simpl in H3.
  destruct (shr_m mrs'') as [|p|p]; simpl; [reflexivity| |lia].
  destruct (e'' <=? emax - prec)%Z; reflexivity.
Qed.

Lemma of_decimal_signed (n : Z) (k : nat) : signed false (JsNum.of_decimal n k).
Proof.
  unfold JsNum.of_decimal. destruct (n <=? 0)%Z eqn:Hn; [reflexivity|].
  apply Z.leb_gt in Hn. unfold binary_normalize.
  destruct (2 * (Z.shiftl n (64 + Z.log2 (10 ^ Z.of_nat k) + 1) / 10 ^ Z.of_nat k)
            + (if Z.shiftl n (64 + Z.log2 (10 ^ Z.of_nat k) + 1) mod 10 ^ Z.of_nat k =? 0
               then 0 else 1))%Z as [|p|p] eqn:Hm.
  - reflexivity.
  - unfold binary_round.
    destruct (shl_align p _ _) as [mz ez]. now apply binary_round_aux_signed.
  - exfalso.
    assert (0 <= Z.shiftl n (64 + Z.log2 (10 ^ Z.of_nat k) + 1) / 10 ^ Z.of_nat k)%Z.
    { apply Z.div_pos; [|lia]. apply Z.shiftl_nonneg. lia. }
    destruct (_ =? 0)%Z in Hm; lia.
Qed.

Lemma count_digits_number (tok : jsstring) :
  number_token tok -> count_digits tok <> 0.
Proof.
  intros (ds & frac & -> & Hne & Hall & _).
  destruct ds as [|d ds]; [contradiction|].
  inversion Hall as [|? ? Hd _]; subst. simpl. now rewrite Hd.
Qed.

Lemma parseFloat_signed (tok : jsstring) :
  count_digits tok <> 0 -> signed false (parseFloat tok).
Proof.
  intros H. unfold parseFloat. destruct (count_digits tok) as [|k]; [contradiction|].
  destruct (digits_value 0 tok) as [v rest].
  destruct rest as [|c frac]; [apply of_decimal_signed|].
  destruct c as [|p]; [apply of_decimal_signed|].
  do 6 (destruct p as [p|p|]; try apply of_decimal_signed).
  destruct (digits_value v frac). apply of_decimal_signed.
Qed.

(** A number that is not [<= 0] and not NaN is [> 0]. *)
Lemma positive_of_not_le (x : JsNum.num) :
  signed false x -> JsNum.leb x JsNum.zero = false ->
  JsNum.ltb JsNum.zero x = true.
Proof.
  destruct x as [s|s| |s m e]; simpl; intros Hs H; subst; try discriminate;
    try contradiction; reflexivity.
Qed.

Lemma amount_positive (tok : jsstring) :
  number_token tok -> JsNum.leb (parseFloat tok) JsNum.zero = false ->
  JsNum.ltb JsNum.zero (parseFloat tok) = true.
Proof.
  intros Htok. apply positive_of_not_le, parseFloat_signed, count_digits_number, Htok.
Qed.

(** ** Amount validation before staging (C4) *)

Lemma handleSend_stages (E : Env) (L : Linking) (phoneNumber message : jsstring) (user : JsVal)
    (w : World) :
  stages (PaymentHandler.handleSend E L phoneNumber message user) w ->
  exists m, exec re_send message = Some m
            /\ JsNum.leb (parseFloat (group 1 m)) JsNum.zero = false.
Proof.
  unfold stages, PaymentHandler.handleSend, try_catch.
  destruct (exec re_send message) as [m|] eqn:Hm.
  - destruct (JsNum.leb (parseFloat (group 1 m)) JsNum.zero) eqn:Hle.
    + simpl. intros H. now contradiction H.
    + intros _. eauto.
  - simpl. intros H. now contradiction H.
Qed.

Lemma handleCreateEscrow_stages (E : Env) (L : Linking) (phoneNumber message : jsstring)
    (user : JsVal) (w : World) :
  stages (EscrowHandler.handleCreateEscrow E L phoneNumber message user) w ->
  exists m, exec EscrowHandler.re_escrow message = Some m
            /\ JsNum.leb (parseFloat (group 1 m)) JsNum.zero = false.
Proof.
  unfold stages, EscrowHandler.handleCreateEscrow, try_catch.
  destruct (exec EscrowHandler.re_escrow message) as [m|] eqn:Hm.
  - destruct (JsNum.leb (parseFloat (group 1 m)) JsNum.zero) eqn:Hle.
    + simpl. intros H. now contradiction H.
    + intros _. eauto.
  - simpl. intros H. now contradiction H.
Qed.

Lemma sendPatterns_group1 (p : regex) (subject : jsstring) (m : result) :
  In p ParserTs.sendPatterns -> exec p subject = Some m -> number_token (group 1 m).
Proof.
  intros [<-|[<-|[]]].
  - apply (exec_amount_group [RBol; lit_ci (js "send"); plus ws]
             [plus ws; lit_ci (js "to"); plus ws; RGroup 2 (plus dot); REol]);
      reflexivity.
  - apply (exec_amount_group [RBol; lit_ci (js "send"); plus ws]
             [plus ws; lit_ci (js "stx"); plus ws; lit_ci (js "to"); plus ws;
              RGroup 2 (plus dot); REol]);
      reflexivity.
Qed.

(** A message that does not match, or whose amount is [<= 0], is answered
    with the format or the amount error and leaves the world as it was. *)
Lemma rejected_before_staging (E : Env) (L : Linking) (phoneNumber message : jsstring)
    (user : JsVal) (w : World) :
  (exec re_send message = None ->
   PaymentHandler.handleSend E L phoneNumber message user w
   = (Ok (HFailure R_SendFormat), w))
  /\ (forall m, exec re_send message = Some m ->
        JsNum.leb (parseFloat (group 1 m)) JsNum.zero = true ->
        PaymentHandler.handleSend E L phoneNumber message user w
        = (Ok (HFailure R_AmountNotPositive), w))
  /\ (exec EscrowHandler.re_escrow message = None ->
      EscrowHandler.handleCreateEscrow E L phoneNumber message user w
      = (Ok (HFailure R_EscrowFormat), w))
  /\ (forall m, exec EscrowHandler.re_escrow message = Some m ->
        JsNum.leb (parseFloat (group 1 m)) JsNum.zero = true ->
        EscrowHandler.handleCreateEscrow E L phoneNumber message user w
        = (Ok (HFailure R_AmountNotPositive), w)).
Proof.
  unfold PaymentHandler.handleSend, EscrowHandler.handleCreateEscrow, try_catch.
  repeat split.
  - intros ->. reflexivity.
  - intros m -> ->. reflexivity.
  - intros ->. reflexivity.
  - intros m -> ->. reflexivity.
Qed.

(** C4: [handleSend] and [handleCreateEscrow] change the conversation states
    only for a message that matches their pattern with an amount token made
    of digits (with an optional fraction) whose value is greater than 0; a
    message that does not match, or whose amount is [<= 0], gets the format
    or the amount error and changes nothing; [parseSendCommand] matches only
    numeric tokens.  So no confirmation is staged for a non-numeric or
    non-positive amount. *)
Theorem C4_staging_needs_positive_amount (E : Env) (L : Linking)
    (phoneNumber message : jsstring) (user : JsVal) (w : World) :
  (stages (PaymentHandler.handleSend E L phoneNumber message user) w ->
   exists m, exec re_send message = Some m
             /\ number_token (group 1 m)
             /\ JsNum.ltb JsNum.zero (parseFloat (group 1 m)) = true)
  /\ (stages (EscrowHandler.handleCreateEscrow E L phoneNumber message user) w ->
      exists m, exec EscrowHandler.re_escrow message = Some m
                /\ number_token (group 1 m)
                /\ JsNum.ltb JsNum.zero (parseFloat (group 1 m)) = true)
  /\ (forall r, ParserTs.parseSendCommand message = Some r ->
        exists tok, number_token tok /\ ParserTs.amount r = parseFloat tok)
  /\ (exec re_send message = None ->
      PaymentHandler.handleSend E L phoneNumber message user w
      = (Ok (HFailure R_SendFormat), w))
  /\ (forall m, exec re_send message = Some m ->
        JsNum.leb (parseFloat (group 1 m)) JsNum.zero = true ->
        PaymentHandler.handleSend E L phoneNumber message user w
        = (Ok (HFailure R_AmountNotPositive), w))
  /\ (exec EscrowHandler.re_escrow message = None ->
      EscrowHandler.handleCreateEscrow E L phoneNumber message user w
      = (Ok (HFailure R_EscrowFormat), w))
  /\ (forall m, exec EscrowHandler.re_escrow message = Some m ->
        JsNum.leb (parseFloat (group 1 m)) JsNum.zero = true ->
        EscrowHandler.handleCreateEscrow E L phoneNumber message user w
        = (Ok (HFailure R_AmountNotPositive), w)).
Proof.
  split; [|split; [|split; [|apply rejected_before_staging]]].
  - intros H. apply handleSend_stages in H as (m & Hm & Hle).
    pose proof (re_send_group1 _ _ Hm) as Htok.
    exists m. auto using amount_positive.
  - intros H. apply handleCreateEscrow_stages in H as (m & Hm & Hle).
    pose proof (re_escrow_group1 _ _ Hm) as Htok.
    exists m. auto using amount_positive.
  - intros r H. unfold ParserTs.parseSendCommand in H.
    destruct (ParserTs.first_match ParserTs.sendPatterns (trim message)) as [m|] eqn:Hm;
      [|discriminate].
    inversion H; subst. simpl.
    apply first_match_some in Hm as (p & Hin & Hp).
    exists (group 1 m). split; [|reflexivity].
    eapply sendPatterns_group1; eauto.
Qed.

Lemma states_differ (m m' : gmap jsstring StateRow) (k : jsstring) :
  m !! k <> m' !! k -> m <> m'.
Proof. intros H Heq. apply H. now rewrite Heq. Qed.

Lemma C4_staging_needs_positive_amount_witness :
  stages (PaymentHandler.handleSend example_env (linked UserService.getByPhone)
            example_phone
            (js "send 5 to John") example_user) example_world
  /\ exists m, exec re_send (js "send 5 to John") = Some m
               /\ number_token (group 1 m)
               /\ JsNum.ltb JsNum.zero (parseFloat (group 1 m)) = true.
Proof.
  assert (H : stages (PaymentHandler.handleSend example_env (linked UserService.getByPhone)
            example_phone
                        (js "send 5 to John") example_user) example_world).
  { apply (states_differ _ _ example_phone). vm_compute. discriminate. }
  split; [exact H|].
  exact (proj1 (C4_staging_needs_positive_amount example_env
                  (linked UserService.getByPhone) example_phone
                  (js "send 5 to John") example_user example_world) H).
Defined.

(** ** Refunds (C5) *)

Lemma strict_eq_str (v : JsVal) (s : jsstring) :
  strict_eq v (JStr s) = true -> v = JStr s.
Proof.
  destruct v; simpl; try discriminate. intros H. apply str_eqb_eq in H. now subst.
Qed.

Lemma db_eq_str (v : JsVal) (s : jsstring) :
  EscrowService.db_eq v (JStr s) = true -> v = JStr s.
Proof.
  destruct v; simpl; try discriminate. intros H. apply str_eqb_eq in H. now subst.
Qed.

Lemma find_escrow_some (id : JsNum.num) (rows : list EscrowRow) (e : EscrowRow) :
  EscrowHandler.find_escrow id rows = Some e ->
  In e rows /\ strict_eq (e_contract_escrow_id e) (JNum id) = true.
Proof. unfold EscrowHandler.find_escrow. apply List.find_some. Qed.

Lemma sender_escrows_in (w : World) (phoneNumber : jsstring) (e : EscrowRow) :
  In e (sender_escrows w phoneNumber) ->
  In e (escrows w) /\ e_sender_phone e = JStr phoneNumber.
Proof.
  unfold sender_escrows. intros H. apply List.filter_In in H as [H1 H2].
  split; [exact H1|]. now apply db_eq_str.
Qed.

(** With a database client, the request of an active escrow whose time-out
    is not reached is answered with "timeout not reached". *)
Lemma handleRefundEscrow_rejects (E : Env) (L : Linking) (phoneNumber message : jsstring)
    (user : JsVal) (w : World) (m : result) (e : EscrowRow) :
  databaseService_client L = true ->
  exec (EscrowHandler.re_action "refund") message = Some m ->
  EscrowHandler.find_escrow (parseInt (group 1 m)) (sender_escrows w phoneNumber) = Some e ->
  e_status e = jstr "active" ->
  truthy (EscrowService.canRefund E L (JNum (parseInt (group 1 m)))) = false ->
  EscrowHandler.handleRefundEscrow E L phoneNumber message user w
  = (Ok (HFailure (R_TimeoutNotReached (parseInt (group 1 m)))), w).
Proof.
  intros Hdb Hm Hfind Hst Hcan.
  assert (Hs : strict_eq (e_status e) (jstr "active") = true)
    by (rewrite Hst; apply str_eqb_refl).
  unfold EscrowHandler.handleRefundEscrow, try_catch, bind,
    EscrowService.getEscrowsByPhone, through_client, try_catch, read.
  rewrite Hm, Hdb. cbn beta iota. fold (sender_escrows w phoneNumber).
  rewrite Hfind, Hs. cbn [negb].
  rewrite Hcan. reflexivity.
Qed.

(** Without one, the request of the escrows fails and the handler answers
    with that failure, whatever the escrow and the time-out are. *)
Lemma handleRefundEscrow_as_written (E : Env) (phoneNumber message : jsstring)
    (user : JsVal) (w : World) (m : result) :
  exec (EscrowHandler.re_action "refund") message = Some m ->
  EscrowHandler.handleRefundEscrow E as_written phoneNumber message user w
  = (Ok (HFailure (R_Fail (EWrap CtxGetEscrows ETypeError))), w).
Proof.
  intros Hm. unfold EscrowHandler.handleRefundEscrow, try_catch. rewrite Hm.
  reflexivity.
Qed.

Lemma handleRefundEscrow_stages (E : Env) (L : Linking) (phoneNumber message : jsstring)
    (user : JsVal) (w : World) :
  stages (EscrowHandler.handleRefundEscrow E L phoneNumber message user) w ->
  databaseService_client L = true
  /\ stateService_methods L = true
  /\ exists m e,
       exec (EscrowHandler.re_action "refund") message = Some m
       /\ EscrowHandler.find_escrow (parseInt (group 1 m)) (sender_escrows w phoneNumber)
          = Some e
       /\ e_status e = jstr "active"
       /\ truthy (EscrowService.canRefund E L (JNum (parseInt (group 1 m)))) = true.
Proof.
  unfold stages, EscrowHandler.handleRefundEscrow, try_catch, bind,
    EscrowService.getEscrowsByPhone, through_client, try_catch, read.
  destruct (exec (EscrowHandler.re_action "refund") message) as [m|] eqn:Hm;
    [|simpl; intros H; now contradiction H].
  destruct (databaseService_client L);
    [|simpl; intros H; now contradiction H].
  cbn beta iota. fold (sender_escrows w phoneNumber).
  destruct (EscrowHandler.find_escrow (parseInt (group 1 m))
              (sender_escrows w phoneNumber)) as [e|] eqn:Hfind;
    [|simpl; intros H; now contradiction H].
  destruct (strict_eq (e_status e) (jstr "active")) eqn:Hst;
    [|simpl; intros H; now contradiction H].
  cbn [negb].
  destruct (truthy (EscrowService.canRefund E L (JNum (parseInt (group 1 m))))) eqn:Hcan;
    [|simpl; intros H; now contradiction H].
  cbn [negb]. cbv iota.
  destruct (get user "stx_address") as [a|err];
    [|simpl; intros H; now contradiction H].
  cbn beta iota. unfold Imported.setState.
  destruct (stateService_methods L);
    [|simpl; intros H; now contradiction H].
  intros _. split; [reflexivity|]. split; [reflexivity|].
  exists m, e. repeat split; auto. now apply strict_eq_str.
Qed.

(** C5.  Escrow number 3 is active, its time-out is not reached, and its
    sender writes "refund escrow #3".  The claim expects the reply that the
    time-out is not reached.  The handler never gets that far: its first
    request, [getEscrowsByPhone], reads [databaseService.client], which is
    [undefined], and the reply is the failure of that request, for every
    message that has the form of the command; through the router the call
    [userService.getByPhone] fails before, and through the webhook the user
    gets no reply at all.  Nothing is staged and no record changes, as the
    claim says.  [canRefund] answers false whatever the contract says, for
    it calls [callReadOnlyFunction], which is [undefined].  The path the
    claim describes is in the handler: with a database client the same
    request is answered with "timeout not reached", and whatever the
    imports are bound to a refund confirmation is staged only for an active
    escrow found among those the user sent, and only when [canRefund]
    reports true. *)
Theorem C5_refund_fails_before_timeout_check :
  (map e_status (sender_escrows example_world example_phone) = [jstr "active"]
   /\ EscrowHandler.handleRefundEscrow example_env as_written example_phone
        (js "refund escrow #3") example_user example_world
      = (Ok (HFailure (R_Fail (EWrap CtxGetEscrows ETypeError))), example_world)
   /\ EscrowHandler.handleMessage example_env as_written example_phone
        (js "refund escrow #3") example_world
      = (Ok (HFailure (R_HandlerError ETypeError)), example_world)
   /\ Webhook.processMessage example_env as_written example_phone
        (js "refund escrow #3") example_world
      = (Throw ETypeError, example_world))
  /\ (forall E phoneNumber message user w m,
        exec (EscrowHandler.re_action "refund") message = Some m ->
        EscrowHandler.handleRefundEscrow E as_written phoneNumber message user w
        = (Ok (HFailure (R_Fail (EWrap CtxGetEscrows ETypeError))), w))
  /\ (forall E escrowId, EscrowService.canRefund E as_written escrowId = JBool false)
  /\ (forall E L phoneNumber message user w m e,
        databaseService_client L = true ->
        exec (EscrowHandler.re_action "refund") message = Some m ->
        EscrowHandler.find_escrow (parseInt (group 1 m)) (sender_escrows w phoneNumber)
        = Some e ->
        e_status e = jstr "active" ->
        truthy (EscrowService.canRefund E L (JNum (parseInt (group 1 m)))) = false ->
        EscrowHandler.handleRefundEscrow E L phoneNumber message user w
        = (Ok (HFailure (R_TimeoutNotReached (parseInt (group 1 m)))), w))
  /\ (forall E L phoneNumber message user w,
        stages (EscrowHandler.handleRefundEscrow E L phoneNumber message user) w ->
        databaseService_client L = true
        /\ stateService_methods L = true
        /\ exists m e,
             exec (EscrowHandler.re_action "refund") message = Some m
             /\ In e (escrows w)
             /\ e_sender_phone e = JStr phoneNumber
             /\ strict_eq (e_contract_escrow_id e) (JNum (parseInt (group 1 m))) = true
             /\ e_status e = jstr "active"
             /\ truthy (EscrowService.canRefund E L (JNum (parseInt (group 1 m))))
                = true).
Proof.
  split; [|split; [|split; [|split]]].
  - repeat split; vm_compute; reflexivity.
  - intros E phoneNumber message user w m Hm.
    now apply handleRefundEscrow_as_written with (m := m).
  - reflexivity.
  - intros E L phoneNumber message user w m e Hdb Hm Hfind Hst Hcan.
    now apply handleRefundEscrow_rejects with (e := e).
  - intros E L phoneNumber message user w H.
    apply handleRefundEscrow_stages in H as (Hdb & Hst & m & e & Hm & Hfind & Hact & Hcan).
    split; [exact Hdb|]. split; [exact Hst|].
    apply find_escrow_some in Hfind as [Hin Hid].
    apply sender_escrows_in in Hin as [Hin Hsender].
    exists m, e. auto 10.
Qed.

(** ** Address validation (C9) *)

(** *** Repetition of a one-character class *)

Lemma iter_chr_within (p : N -> bool) (lo : nat) (hi : option nat) :
  forall n a b, Iter (sem (RChr p)) lo hi n a b ->
    within n hi ->
    exists u, snd (fst a) = u ++ snd (fst b) /\ within (n + length u) hi.
Proof.
  intros n a b H. induction H as [n st Hn|n st st1 st2 Hb Hr Hit IH]; intros Hw.
  - exists []. simpl. rewrite Nat.add_0_r. auto.
  - destruct Hr as (x & s' & Hs & Hp & ->).
    destruct IH as (u & Hu & Hwu).
    { destruct hi as [h|]; simpl in *; [|exact I]. apply Nat.ltb_lt in Hb. lia. }
    simpl in *. exists (x :: u). rewrite Hs, Hu. simpl.
    split; [reflexivity|]. now rewrite Nat.add_succ_r.
Qed.

(** Completeness for a greedy quantifier over a class: when [j] more
    characters of the class lead to a configuration that the continuation
    accepts, the loop finds a match. *)
Lemma rep_chr_complete {R} (p : N -> bool) (lo : nat) (hi : option nat)
    (k : nat -> jsstring -> caps -> option R) (c : caps) :
  forall j fuel n pos s,
    j < fuel -> lo <= n + j -> within (n + j) hi -> j <= length s ->
    Forall (fun x => p x = true) (firstn j s) ->
    k (pos + j) (skipn j s) c <> None ->
    rep_loop (rmatch (RChr p)) lo hi true k fuel n pos s c <> None.
Proof.
  induction j as [|j IH]; intros fuel n pos s Hf Hlo Hhi Hlen Hall Hk.
  - rewrite Nat.add_0_r in *. simpl in Hk.
    destruct fuel as [|fuel]; [lia|]. cbn [rep_loop].
    apply Nat.leb_le in Hlo. rewrite Hlo.
    unfold orelse.
    match goal with |- match ?a with _ => _ end <> None => destruct a end;
      [discriminate|exact Hk].
  - destruct fuel as [|fuel]; [lia|]. cbn [rep_loop].
    destruct s as [|x s]; [simpl in Hlen; lia|].
    cbn [firstn] in Hall. apply Forall_cons in Hall as [Hx Hall'].
    cbn [skipn] in Hk. cbn [length] in Hlen.
    assert (Hb : below n hi = true).
    { destruct hi as [h|]; simpl in Hhi |- *; [|reflexivity]. apply Nat.ltb_lt. lia. }
    rewrite Hb. cbn [rmatch]. rewrite Hx.
    assert (Hlt : Nat.ltb (length s) (length (x :: s)) = true)
      by (apply Nat.ltb_lt; simpl; lia).
    rewrite Hlt. cbn [orb].
    assert (Hrec : rep_loop (rmatch (RChr p)) lo hi true k fuel (S n) (S pos) s c <> None).
    { apply (IH fuel (S n) (S pos) s); try lia; auto.
      - destruct hi; simpl in Hhi |- *; [lia|exact I].
      - replace (S pos + j) with (pos + S j) by lia. exact Hk. }
    unfold orelse.
    match goal with |- match ?a with _ => _ end <> None =>
      change a with (rep_loop (rmatch (RChr p)) lo hi true k fuel (S n) (S pos) s c)
    end.
    destruct (rep_loop (rmatch (RChr p)) lo hi true k fuel (S n) (S pos) s c);
      [discriminate|contradiction].
Qed.

(** What a match of the quantifier gives to the continuation. *)
Lemma rep_chr_sound {R} (p : N -> bool) (lo : nat) (hi : option nat) (greedy : bool)
    (k : nat -> jsstring -> caps -> option R) (c : caps) (pos : nat) (s : jsstring)
    (res : R) :
  rmatch (RRep lo hi greedy (RChr p)) pos s c k = Some res ->
  exists u s', s = u ++ s' /\ Forall (fun x => p x = true) u
               /\ lo <= length u /\ within (length u) hi
               /\ k (pos + length u) s' c = Some res.
Proof.
  intros H. apply rmatch_sound in H as (pos' & s' & c' & Hsem & Hk).
  change (Iter (sem (RChr p)) lo hi 0 (pos, s, c) (pos', s', c')) in Hsem.
  pose proof (iter_chr _ _ _ _ _ _ Hsem) as (u & Hu & Hall & Hlo & Hc & Hpos).
  assert (Hw0 : within 0 hi) by (destruct hi; simpl; [lia|exact I]).
  pose proof (iter_chr_within _ _ _ _ _ _ Hsem Hw0) as (u' & Hu' & Hw).
  simpl in *. assert (u' = u) by (rewrite Hu in Hu'; now apply app_inv_tail in Hu').
  subst u' c' pos'. exists u, s'. auto.
Qed.

(** *** The address prefix *)

Lemma rmatch_address_prefix {R} (pos : nat) (s : jsstring) (c : caps)
    (k : nat -> jsstring -> caps -> option R) :
  rmatch (RAlt (lit (js "SP")) (lit (js "ST"))) pos s c k
  = match address_rest s with
    | Some r => k (S (S pos)) r c
    | None => None
    end.
Proof.
  destruct s as [|a [|b r]].
  - reflexivity.
  - destruct a as [|q]; [reflexivity|].
    do 7 (destruct q as [q|q|]; try reflexivity).
  - destruct a as [|q]; [reflexivity|].
    do 7 (destruct q as [q|q|]; try reflexivity).
    destruct b as [|q]; [reflexivity|].
    do 7 (destruct q as [q|q|]; try reflexivity);
      cbn; destruct (k (S (S pos)) r c); reflexivity.
Qed.

Lemma address_rest_some (s r : jsstring) :
  address_rest s = Some r -> s = js "SP" ++ r \/ s = js "ST" ++ r.
Proof.
  destruct s as [|a [|b s]]; simpl.
  - discriminate.
  - destruct a as [|q]; [discriminate|].
    do 7 (destruct q as [q|q|]; try discriminate).
  - destruct a as [|q]; [discriminate|].
    do 7 (destruct q as [q|q|]; try discriminate).
    destruct b as [|q]; [discriminate|].
    do 7 (destruct q as [q|q|]; try discriminate); intros [= ->]; auto.
Qed.

Lemma address_rest_length (s r : jsstring) :
  address_rest s = Some r -> length s = 2 + length r.
Proof. intros H. apply address_rest_some in H as [->| ->]; reflexivity. Qed.

Lemma address_rest_app (s r t : jsstring) :
  address_rest s = Some r -> address_rest (s ++ t) = Some (r ++ t).
Proof. intros H. apply address_rest_some in H as [->| ->]; reflexivity. Qed.

Lemma address_shaped_weaken (lo hi lo' hi' : nat) (a : jsstring) :
  lo' <= lo -> hi <= hi' -> address_shaped lo hi a -> address_shaped lo' hi' a.
Proof. intros Hl Hh (r & Hr & Hlen & Hall). exists r. repeat split; auto; lia. Qed.

(** A quantified class of exactly-bounded length, as a whole. *)
Lemma rmatch_body_complete {R} (lo hi j pos : nat) (s : jsstring) (c : caps)
    (k : nat -> jsstring -> caps -> option R) :
  lo <= j <= hi -> j <= length s ->
  Forall (fun x => is_upper_alnum x = true) (firstn j s) ->
  k (pos + j) (skipn j s) c <> None ->
  rmatch (re_address_body lo hi) pos s c k <> None.
Proof.
  intros Hj Hlen Hall Hk. unfold re_address_body, rep. cbn [rmatch].
  apply (rep_chr_complete _ _ _ _ _ j); simpl; auto; lia.
Qed.

Lemma rmatch_body_sound {R} (lo hi pos : nat) (s : jsstring) (c : caps)
    (k : nat -> jsstring -> caps -> option R) (res : R) :
  rmatch (re_address_body lo hi) pos s c k = Some res ->
  exists u s', s = u ++ s' /\ Forall (fun x => is_upper_alnum x = true) u
               /\ lo <= length u <= hi /\ k (pos + length u) s' c = Some res.
Proof.
  intros H. apply rep_chr_sound in H as (u & s' & Hs & Hall & Hlo & Hhi & Hk).
  simpl in Hhi. exists u, s'. auto.
Qed.

(** *** Anchored patterns match at index 0 only *)

Lemma search_bol (r : regex) (subject : jsstring) (fuel i : nat) :
  search (RSeq RBol r) subject (S i) fuel = None.
Proof.
  revert i. induction fuel as [|fuel IH]; intros i; simpl; [reflexivity|apply IH].
Qed.

Lemma exec_bol (r : regex) (subject : jsstring) :
  exec (RSeq RBol r) subject = match_at (RSeq RBol r) subject 0.
Proof.
  unfold exec. destruct (length subject) as [|n]; simpl search.
  - destruct (match_at _ _ 0); reflexivity.
  - rewrite search_bol. destruct (match_at _ _ 0); reflexivity.
Qed.

Lemma search_complete (r : regex) (subject : jsstring) (fuel i j : nat) :
  i <= j <= i + fuel -> match_at r subject j <> None ->
  search r subject i fuel <> None.
Proof.
  revert i. induction fuel as [|fuel IH]; intros i Hj Hm; simpl.
  - assert (j = i) by lia. subst j. destruct (match_at r subject i); congruence.
  - destruct (match_at r subject i) eqn:Hi; [discriminate|].
    apply IH; [|exact Hm]. destruct (Nat.eq_dec i j) as [->|Hne]; [congruence|lia].
Qed.

(** *** The two address formats *)

Lemma exec_stxRegex (s : jsstring) :
  exec ValidatorTs.stxRegex s =
  match address_rest s with
  | Some r =>
      rmatch (re_address_body 38 40) 2 r []
        (fun pos' s' c' =>
           match s' with
           | [] => Some (mkResult 0 (firstn (pos' - 0) s) c')
           | _ :: _ => None
           end)
  | None => None
  end.
Proof.
  unfold ValidatorTs.stxRegex. cbn [rcat]. rewrite exec_bol. unfold match_at.
  remember (RAlt (lit (js "SP")) (lit (js "ST"))) as alt eqn:Halt.
  remember (re_address_body 38 40) as body eqn:Hbody.
  cbn [rmatch Nat.eqb skipn]. subst alt. rewrite rmatch_address_prefix.
  reflexivity.
Qed.

(** [isValidSTXAddress]: SP or ST and 38 to 40 characters of [0-9A-Z],
    so 40 to 42 characters in all. *)
Lemma isValidSTXAddress_spec (s : jsstring) :
  ValidatorTs.isValidSTXAddress s = true <-> address_shaped 38 40 s.
Proof.
  unfold ValidatorTs.isValidSTXAddress, test. rewrite exec_stxRegex. split.
  - intros H. destruct (address_rest s) as [r|] eqn:Hr; [|discriminate].
    destruct (rmatch _ _ _ _ _) as [res|] eqn:Hm; [|discriminate].
    apply rmatch_body_sound in Hm as (u & s' & Hs & Hall & Hlen & Hk).
    destruct s'; [|discriminate]. rewrite app_nil_r in Hs. subst u.
    exists r. auto.
  - intros (r & Hr & Hlen & Hall). rewrite Hr.
    match goal with |- match ?a with _ => _ end = true =>
      assert (Hne : a <> None); [|destruct a; [reflexivity|contradiction]] end.
    apply (rmatch_body_complete 38 40 (length r)); [lia|lia| |].
    + now rewrite firstn_all.
    + rewrite skipn_all. discriminate.
Qed.

(** What [stxAddressPattern] finds, and where. *)
Lemma match_at_stxAddressPattern (s : jsstring) (i : nat) (res : result) :
  match_at ParserTs.stxAddressPattern s i = Some res ->
  exists post, skipn i s = r_whole res ++ post /\ address_shaped 38 40 (r_whole res).
Proof.
  unfold match_at, ParserTs.stxAddressPattern. cbn [rcat].
  remember (RAlt (lit (js "SP")) (lit (js "ST"))) as alt eqn:Halt.
  remember (re_address_body 38 40) as body eqn:Hbody.
  cbn [rmatch]. subst alt. rewrite rmatch_address_prefix.
  destruct (address_rest (skipn i s)) as [r|] eqn:Hr; [|discriminate].
  subst body. intros Hm.
  apply rmatch_body_sound in Hm as (u & s' & Hs & Hall & Hlen & Hk).
  injection Hk as <-. cbn [r_whole].
  apply address_rest_some in Hr as Hsk.
  replace (S (S (i + length u)) - i) with (2 + length u) by lia.
  exists s'. subst r.
  assert (Hcut : forall p : jsstring, length p = 2 ->
            firstn (2 + length u) (p ++ u ++ s') = p ++ u).
  { intros p Hp. rewrite app_assoc, firstn_app, length_app, Hp, Nat.sub_diag.
    rewrite firstn_0, app_nil_r. apply firstn_all2. rewrite length_app. lia. }
  destruct Hsk as [Hsk|Hsk]; rewrite Hsk, Hcut by reflexivity;
    (split; [reflexivity|]); exists u; simpl; auto.
Qed.

Lemma exec_stxAddressPattern_found (s pre a post : jsstring) :
  s = pre ++ a ++ post -> address_shaped 38 38 a ->
  exec ParserTs.stxAddressPattern s <> None.
Proof.
  intros -> (r & Hr & Hlen & Hall). unfold exec.
  apply (search_complete _ _ _ 0 (length pre)).
  { rewrite !length_app. lia. }
  unfold match_at, ParserTs.stxAddressPattern. cbn [rcat].
  remember (RAlt (lit (js "SP")) (lit (js "ST"))) as alt eqn:Halt.
  remember (re_address_body 38 40) as body eqn:Hbody.
  cbn [rmatch]. subst alt. rewrite rmatch_address_prefix.
  assert (Hsk : skipn (length pre) (pre ++ a ++ post) = a ++ post)
    by (rewrite skipn_app, skipn_all, Nat.sub_diag; reflexivity).
  rewrite Hsk.
  rewrite (address_rest_app _ _ post Hr). subst body.
  apply (rmatch_body_complete 38 40 38); [lia|rewrite length_app; lia| |discriminate].
  rewrite firstn_app. replace (38 - length r) with 0 by lia.
  rewrite firstn_0, app_nil_r, firstn_all2 by lia. exact Hall.
Qed.

Lemma address_shaped_prefix (a : jsstring) :
  address_shaped 38 40 a ->
  exists a' post, a = a' ++ post /\ address_shaped 38 38 a'.
Proof.
  intros (r & Hr & Hlen & Hall).
  apply address_rest_some in Hr as Ha.
  exists (firstn 40 a), (skipn 40 a). split; [now rewrite firstn_skipn|].
  exists (firstn 38 r). repeat split.
  - destruct Ha as [-> | ->]; reflexivity.
  - rewrite length_firstn. lia.
  - rewrite length_firstn. lia.
  - rewrite <- (firstn_skipn 38 r) in Hall. now apply Forall_app in Hall as [H _].
Qed.

(** [isRegistrationMessage] finds a candidate exactly when the trimmed
    message contains SP or ST followed by 38 characters of [0-9A-Z]. *)
Lemma isRegistrationMessage_spec (m : jsstring) :
  ParserTs.isRegistrationMessage m <> None <-> contains_address (trim m).
Proof.
  unfold ParserTs.isRegistrationMessage. split.
  - destruct (ValidatorTs.isValidSTXAddress (trim m)) eqn:Hv.
    + intros _. apply isValidSTXAddress_spec in Hv.
      apply address_shaped_prefix in Hv as (a & post & Hs & Ha).
      exists [], a, post. auto.
    + destruct (exec ParserTs.stxAddressPattern (trim m)) as [res|] eqn:He;
        [|congruence]. intros _.
      apply search_some in He as (i & Hi & Hm).
      apply match_at_stxAddressPattern in Hm as (post & Hsk & Ha).
      apply address_shaped_prefix in Ha as (a & post' & Hs & Ha).
      exists (firstn i (trim m)), a, (post' ++ post). split; [|exact Ha].
      rewrite <- (firstn_skipn i (trim m)) at 1. rewrite Hsk, Hs.
      now rewrite <- !app_assoc.
  - intros (pre & a & post & Hs & Ha).
    destruct (ValidatorTs.isValidSTXAddress (trim m)); [discriminate|].
    pose proof (exec_stxAddressPattern_found _ _ _ _ Hs Ha) as Hne.
    destruct (exec ParserTs.stxAddressPattern (trim m)) as [res|] eqn:He;
      [|contradiction].
    apply search_some in He as (i & Hi & Hm).
    apply match_at_stxAddressPattern in Hm as (post' & _ & Hw).
    apply isValidSTXAddress_spec in Hw. rewrite Hw. discriminate.
Qed.

(** *** The address-entry step *)

Lemma rmatch_plus_chr_complete {R} (p : N -> bool) (pos : nat) (s : jsstring)
    (c : caps) (k : nat -> jsstring -> caps -> option R) :
  s <> [] -> Forall (fun x => p x = true) s ->
  k (pos + length s) [] c <> None ->
  rmatch (plus (RChr p)) pos s c k <> None.
Proof.
  intros Hne Hall Hk. unfold plus. cbn [rmatch].
  apply (rep_chr_complete _ _ _ _ _ (length s)); simpl; auto; try lia;
    try (destruct s; [contradiction|simpl; lia]);
    try (now rewrite firstn_all); try (now rewrite skipn_all).
Qed.

Lemma test_alphanumericRegex (t : jsstring) :
  test ValidatorJsAddr.alphanumericRegex t = true
  <-> t <> [] /\ Forall (fun x => is_upper_alnum x = true) t.
Proof.
  unfold test, ValidatorJsAddr.alphanumericRegex. cbn [rcat]. rewrite exec_bol.
  unfold match_at.
  remember (plus (RChr is_upper_alnum)) as body eqn:Hbody.
  cbn [rmatch Nat.eqb skipn]. subst body. split.
  - intros H. destruct (rmatch _ _ _ _ _) as [res|] eqn:Hm; [|discriminate].
    apply rep_chr_sound in Hm as (u & s' & Hs & Hall & Hlo & _ & Hk).
    destruct s'; [|discriminate]. rewrite app_nil_r in Hs. subst u.
    split; [|exact Hall]. destruct t; [simpl in Hlo; lia|discriminate].
  - intros [Hne Hall].
    match goal with |- match ?a with _ => _ end = true =>
      assert (H : a <> None); [|destruct a; [reflexivity|contradiction]] end.
    apply rmatch_plus_chr_complete; auto.
Qed.

Lemma address_rest_startsWith (s : jsstring) :
  negb (startsWith s (js "SP")) && negb (startsWith s (js "ST"))
  = match address_rest s with Some _ => false | None => true end.
Proof.
  destruct s as [|a [|b r]].
  - reflexivity.
  - destruct a as [|q]; [reflexivity|].
    do 7 (destruct q as [q|q|]; try reflexivity).
  - destruct a as [|q]; [reflexivity|].
    do 7 (destruct q as [q|q|]; try reflexivity).
    destruct b as [|q]; [reflexivity|].
    do 7 (destruct q as [q|q|]; try reflexivity); destruct r; reflexivity.
Qed.

Lemma address_rest_skipn (s r : jsstring) :
  address_rest s = Some r -> skipn 2 s = r.
Proof. intros H. apply address_rest_some in H as [->| ->]; reflexivity. Qed.

(** [validateStxAddress] accepts exactly the strings whose trimmed form is
    SP or ST followed by 39 characters of [0-9A-Z]: 41 characters in all. *)
Lemma validateStxAddress_spec (s : jsstring) :
  ValidatorJsAddr.validateStxAddress s = ValidatorJsAddr.AddressValid
  <-> s <> [] /\ address_shaped 39 39 (trim s).
Proof.
  destruct s as [|x s].
  { split; [discriminate|intros [H _]; contradiction]. }
  unfold ValidatorJsAddr.validateStxAddress. cbv zeta.
  set (t := trim (x :: s)). rewrite address_rest_startsWith.
  split.
  - intros H. split; [discriminate|].
    destruct (Nat.eqb_spec (length t) 41) as [Hlen|]; [|discriminate].
    destruct (address_rest t) as [r|] eqn:Hr; [|discriminate].
    destruct (test ValidatorJsAddr.alphanumericRegex (skipn 2 t)) eqn:Ht;
      [|discriminate].
    apply test_alphanumericRegex in Ht as [_ Hall].
    rewrite (address_rest_skipn _ _ Hr) in Hall.
    apply address_rest_length in Hr as Hl.
    exists r. repeat split; auto; lia.
  - intros [_ (r & Hr & Hlen & Hall)].
    apply address_rest_length in Hr as Hl.
    replace (Nat.eqb (length t) 41) with true by (symmetry; apply Nat.eqb_eq; lia).
    rewrite Hr. cbn [negb].
    rewrite (address_rest_skipn _ _ Hr).
    assert (Ht : test ValidatorJsAddr.alphanumericRegex r = true).
    { apply test_alphanumericRegex. split; [|exact Hall].
      destruct r; [simpl in Hlen; lia|discriminate]. }
    rewrite Ht. reflexivity.
Qed.

(** *** Frames of the monad *)

Section Keeps.
Context {X : Type} (f : World -> X).

Lemma keeps_ret {A} (a : A) : keeps f (ret a).
Proof. intros w. reflexivity. Qed.

Lemma keeps_throw {A} (e : Error) : keeps f (@throw A e).
Proof. intros w. reflexivity. Qed.

Lemma keeps_lift {A} (r : Res A) : keeps f (lift r).
Proof. intros w. reflexivity. Qed.

Lemma keeps_read {A} (g : World -> A) : keeps f (read g).
Proof. intros w. reflexivity. Qed.

Lemma keeps_update (g : World -> World) :
  (forall w, f (g w) = f w) -> keeps f (update g).
Proof. intros H w. apply H. Qed.

Lemma keeps_bind {A B} (m : M A) (k : A -> M B) :
  keeps f m -> (forall a, keeps f (k a)) -> keeps f (bind m k).
Proof.
  intros Hm Hk w. unfold bind. specialize (Hm w).
  destruct (m w) as [[a|e] w']; simpl in *; [|exact Hm].
  now rewrite Hk.
Qed.

Lemma keeps_try_catch {A} (body : M A) (handler : Error -> M A) :
  keeps f body -> (forall e, keeps f (handler e)) -> keeps f (try_catch body handler).
Proof.
  intros Hm Hk w. unfold try_catch. specialize (Hm w).
  destruct (body w) as [[a|e] w']; simpl in *; [exact Hm|].
  now rewrite Hk.
Qed.

Lemma keeps_sendMessage (E : Env) (to : JsVal) (message : Reply) :
  (forall g w, f (set_outbox g w) = f w) -> keeps f (sendMessage E to message).
Proof.
  intros H. unfold sendMessage. destruct to; try apply keeps_ret.
  destruct (test _ _); [|apply keeps_ret].
  destruct (env_twilio E s); [|apply keeps_ret].
  apply keeps_update. intros w. apply H.
Qed.

End Keeps.

Lemma sendMessage_returns (E : Env) (to : JsVal) (message : Reply) (w : World) :
  fst (sendMessage E to message w) = Ok tt.
Proof.
  unfold sendMessage. destruct to; try reflexivity.
  destruct (test _ _); [|reflexivity].
  destruct (env_twilio E s); reflexivity.
Qed.

Lemma bind_returns {A B} (m : M A) (k : A -> M B) (a : A) (w : World) :
  fst (m w) = Ok a -> bind m k w = k a (snd (m w)).
Proof. unfold bind. destruct (m w) as [[a'|e] w']; simpl; congruence. Qed.

(** *** Registration (C9) *)

Lemma isRegistrationMessage_shape (m a : jsstring) :
  ParserTs.isRegistrationMessage m = Some a -> address_shaped 38 40 a.
Proof.
  unfold ParserTs.isRegistrationMessage.
  destruct (ValidatorTs.isValidSTXAddress (trim m)) eqn:Hv.
  - intros [= <-]. now apply isValidSTXAddress_spec.
  - destruct (exec ParserTs.stxAddressPattern (trim m)) as [res|]; [|discriminate].
    destruct (ValidatorTs.isValidSTXAddress (r_whole res)) eqn:Hw; [|discriminate].
    intros [= <-]. now apply isValidSTXAddress_spec.
Qed.

(** A string that fails the format check is answered with the format error
    and no user is added, whether or not the address is registered. *)
Lemma completeRegistration_invalid (E : Env) (phoneNumber stxAddress : jsstring)
    (w : World) :
  ValidatorJsAddr.valid (ValidatorJsAddr.validateStxAddress (trim stxAddress)) = false ->
  fst (RegistrationHandler.completeRegistration E phoneNumber stxAddress w)
  = Ok (RegistrationHandler.RegistrationFailed
          (RegistrationHandler.InvalidAddress
             (ValidatorJsAddr.validateStxAddress (trim stxAddress))))
  /\ users (snd (RegistrationHandler.completeRegistration E phoneNumber stxAddress w))
     = users w.
Proof.
  intros Hv. unfold RegistrationHandler.completeRegistration. cbv zeta.
  rewrite Hv. cbn [negb]. unfold RegistrationHandler.sendErrorMessage.
  rewrite (bind_returns _ _ tt) by apply sendMessage_returns.
  split; [reflexivity|]. unfold ret. cbn [snd].
  now apply (keeps_sendMessage users).
Qed.

(** The duplicate check comes second: it is reached by well-formed addresses
    only. *)
Lemma completeRegistration_duplicate (E : Env) (phoneNumber stxAddress : jsstring)
    (w : World) :
  ValidatorJsAddr.valid (ValidatorJsAddr.validateStxAddress (trim stxAddress)) = true ->
  fst (UserService.addressExists (trim stxAddress) w) = Ok true ->
  fst (RegistrationHandler.completeRegistration E phoneNumber stxAddress w)
  = Ok (RegistrationHandler.RegistrationFailed
          RegistrationHandler.AddressAlreadyRegistered).
Proof.
  intros Hv Hex. unfold RegistrationHandler.completeRegistration. cbv zeta.
  rewrite Hv. cbn [negb].
  rewrite (bind_returns _ _ true) by exact Hex. cbv beta iota.
  unfold RegistrationHandler.sendErrorMessage.
  rewrite (bind_returns _ _ tt) by apply sendMessage_returns.
  reflexivity.
Qed.

(** C9, as the code has it.  [isRegistrationMessage] finds a candidate
    exactly when the trimmed message contains SP or ST followed by at least
    38 characters of 0-9 and A-Z, and the candidate it returns is SP or ST
    followed by 38 to 40 such characters, so 40 to 42 characters in all (the
    format of [isValidSTXAddress]), not 41 exactly.  The address-entry step
    [completeRegistration] accepts through [validateStxAddress] exactly the
    strings whose trimmed form is SP or ST followed by 39 such characters,
    41 in all; a string that fails this check gets the format error and adds
    no user whether or not the address is registered, and the duplicate
    check is made for well-formed addresses only. *)
Theorem C9_registration_address_formats (E : Env) (phoneNumber message : jsstring)
    (w : World) :
  (ParserTs.isRegistrationMessage message <> None <-> contains_address (trim message))
  /\ (forall a, ParserTs.isRegistrationMessage message = Some a ->
        address_shaped 38 40 a)
  /\ (ValidatorTs.isValidSTXAddress message = true <-> address_shaped 38 40 message)
  /\ (ValidatorJsAddr.validateStxAddress message = ValidatorJsAddr.AddressValid
      <-> message <> [] /\ address_shaped 39 39 (trim message))
  /\ (ValidatorJsAddr.valid (ValidatorJsAddr.validateStxAddress (trim message)) = false ->
      fst (RegistrationHandler.completeRegistration E phoneNumber message w)
      = Ok (RegistrationHandler.RegistrationFailed
              (RegistrationHandler.InvalidAddress
                 (ValidatorJsAddr.validateStxAddress (trim message))))
      /\ users (snd (RegistrationHandler.completeRegistration E phoneNumber message w))
         = users w)
  /\ (ValidatorJsAddr.valid (ValidatorJsAddr.validateStxAddress (trim message)) = true ->
      fst (UserService.addressExists (trim message) w) = Ok true ->
      fst (RegistrationHandler.completeRegistration E phoneNumber message w)
      = Ok (RegistrationHandler.RegistrationFailed
              RegistrationHandler.AddressAlreadyRegistered)).
Proof.
  split; [apply isRegistrationMessage_spec|].
  split; [intros a; apply isRegistrationMessage_shape|].
  split; [apply isValidSTXAddress_spec|].
  split; [apply validateStxAddress_spec|].
  split; [apply completeRegistration_invalid|apply completeRegistration_duplicate].
Qed.

(** SP and 38 zeros, 40 characters: a registration candidate, which the
    address-entry step rejects for its length; the registered address of the
    example user, sent by another number, reaches the duplicate check. *)
Lemma C9_registration_address_formats_witness :
  (fst (RegistrationHandler.completeRegistration example_env example_phone
          example_address_40 example_world)
   = Ok (RegistrationHandler.RegistrationFailed
           (RegistrationHandler.InvalidAddress (ValidatorJsAddr.AddressBadLength 40)))
   /\ users (snd (RegistrationHandler.completeRegistration example_env example_phone
                    example_address_40 example_world))
      = users example_world)
  /\ fst (RegistrationHandler.completeRegistration example_env (js "+2348000000000")
            example_address_U example_world)
     = Ok (RegistrationHandler.RegistrationFailed
             RegistrationHandler.AddressAlreadyRegistered).
Proof.
  split.
  - exact (proj1 (proj2 (proj2 (proj2 (proj2
             (C9_registration_address_formats example_env example_phone
                example_address_40 example_world)))))
             eq_refl).
  - exact (proj2 (proj2 (proj2 (proj2 (proj2
             (C9_registration_address_formats example_env (js "+2348000000000")
                example_address_U example_world)))))
             eq_refl eq_refl).
Defined.

(** The reading with a total length of exactly 41 fails: SP and 38 zeros is
    a candidate and has 40 characters. *)
Lemma C9_counterexample :
  ~ (forall m, ParserTs.isRegistrationMessage m <> None <-> contains_address_41 (trim m)).
Proof.
  intros H. destruct (H example_address_40) as [H1 _].
  destruct H1 as (pre & a & post & Hs & _ & Hlen).
  - vm_compute. discriminate.
  - apply (f_equal (@length N)) in Hs. rewrite !length_app, Hlen in Hs.
    assert (Hl : length (trim example_address_40) = 40) by (vm_compute; reflexivity).
    rewrite Hl in Hs. lia.
Qed.

(** ** What the handlers leave unchanged *)

Section Frames.
Context {X : Type} (f : World -> X).

Lemma keeps_lookup_user (g : World -> JsVal -> Res JsVal) (p : JsVal) :
  keeps f (lookup_user g p).
Proof. intros w. reflexivity. Qed.


End Frames.

Create HintDb handlers.

#[local] Hint Unfold
  through_client Imported.getByPhone Imported.setState Imported.getState
  Imported.clearState Imported.sendMessage
  EscrowService.saveEscrowToDatabase EscrowService.updateEscrowStatus
  StateService.getState StateService.hasActiveState StateService.setState_call
  UserService.exists_ UserService.addressExists
  StacksService.getBalance StacksService.getAccountInfo_nonce
  ContactService.getContactByName ContactService.getContacts
  ContactService.resolveRecipient ContactService.addContact
  TransactionService.createTransaction TransactionService.getTransactionsByPhone
  TransactionService.recordTransaction TransactionService.broadcastTransaction
  TransactionService.sendTransaction
  EscrowService.getEscrowsByPhone EscrowService.createEscrow
  EscrowService.contract_action EscrowService.releaseEscrow
  EscrowService.refundEscrow EscrowService.cancelEscrow
  PaymentHandler.handleBalance PaymentHandler.handleHistory
  PaymentHandler.handleListContacts PaymentHandler.handleAddContact
  PaymentHandler.handleSend
  EscrowHandler.handleCreateEscrow EscrowHandler.handleReleaseEscrow
  EscrowHandler.handleRefundEscrow EscrowHandler.handleCancelEscrow
  EscrowHandler.handleEscrowStatus EscrowHandler.handleListEscrows
  Webhook.sendHelpMessage Webhook.sendUnknownCommandMessage Webhook.deliver
  Webhook.registrationHandler_handleMessage : handlers.

(** The bindings of a given linking. *)
Ltac bindings :=
  cbn [userService_getByPhone stateService_methods whatsappService_methods
       databaseService_client callReadOnlyFunction_defined as_written linked].

(** The primitive computations that write one table. *)
Ltac frame_raw :=
  match goal with
  | |- keeps _ (StateService.setState _ _ _) => intros ?; reflexivity
  | |- keeps _ (StateService.clearState _) => intros ?; reflexivity
  | |- keeps _ (UserService.create _ _) =>
      let w := fresh "w" in
      intros w; unfold UserService.create;
      repeat match goal with |- context [if ?b then _ else _] => destruct b end;
      reflexivity
  | |- keeps _ (fun w => _) => intros ?; reflexivity
  | |- keeps _ (fun w => _) =>
      let w := fresh "w" in
      intros w; cbv zeta;
      match goal with |- context [match ?l with _ => _ end] =>
        destruct l as [|? [|? ?]] end; reflexivity
  end.

Ltac frame_step :=
  match goal with
  | |- keeps _ (ret _) => apply keeps_ret
  | |- keeps _ (throw _) => apply keeps_throw
  | |- keeps _ (lift _) => apply keeps_lift
  | |- keeps _ (read _) => apply keeps_read
  | |- keeps _ (lookup_user _ _) => apply keeps_lookup_user
  | |- keeps _ (sendMessage _ _ _) => apply keeps_sendMessage; intros; reflexivity
  | |- keeps _ (update _) => apply keeps_update; intros; reflexivity
  | |- keeps _ (bind (throw _) _) => intros ?; reflexivity
  | |- keeps _ (bind _ _) => apply keeps_bind; [|intros ?]
  | |- keeps _ (try_catch _ _) => apply keeps_try_catch; [|intros ?]
  | |- keeps _ (if ?b then _ else _) => first [progress bindings | destruct b]
  | |- keeps _ (match ?x with _ => _ end) => first [progress bindings | destruct x]
  | |- keeps _ _ => frame_raw
  | |- keeps _ _ => progress autounfold with handlers; cbv zeta
  end.

Ltac frame := repeat frame_step.

(** *** The chain *)

Section Chain.
Variable E : Env.
Variable L : Linking.




End Chain.


(** *** At most one broadcast *)

Lemma once_keeps {A} (m : M A) : keeps chain m -> at_most_once m.
Proof. intros H w. exists []. rewrite H, app_nil_r. simpl. split; [reflexivity|lia]. Qed.

Lemma once_bind_l {A B} (m : M A) (k : A -> M B) :
  keeps chain m -> (forall a, at_most_once (k a)) -> at_most_once (bind m k).
Proof.
  intros Hm Hk w. unfold bind. specialize (Hm w).
  destruct (m w) as [[a|e] w']; simpl in *.
  - rewrite <- Hm. apply Hk.
  - exists []. rewrite Hm, app_nil_r. simpl. split; [reflexivity|lia].
Qed.

Lemma once_bind_r {A B} (m : M A) (k : A -> M B) :
  at_most_once m -> (forall a, keeps chain (k a)) -> at_most_once (bind m k).
Proof.
  intros Hm Hk w. unfold bind. specialize (Hm w).
  destruct (m w) as [[a|e] w']; simpl in *; [|exact Hm].
  now rewrite Hk.
Qed.

Lemma once_try_catch {A} (body : M A) (handler : Error -> M A) :
  at_most_once body -> (forall e, keeps chain (handler e)) ->
  at_most_once (try_catch body handler).
Proof.
  intros Hm Hk w. unfold try_catch. specialize (Hm w).
  destruct (body w) as [[a|e] w']; simpl in *; [exact Hm|].
  now rewrite Hk.
Qed.

Lemma once_network_broadcast (E : Env) (tx : ChainTx) :
  at_most_once (network_broadcast E tx).
Proof.
  intros w. unfold network_broadcast.
  destruct (env_broadcast E tx) as [response|].
  - destruct (accepted response).
    + exists [tx]. simpl. split; [reflexivity|lia].
    + exists []. simpl. split; [now rewrite app_nil_r|lia].
  - exists []. simpl. split; [now rewrite app_nil_r|lia].
Qed.

Ltac once_step :=
  match goal with
  | |- at_most_once (network_broadcast _ _) => apply once_network_broadcast
  | |- at_most_once (bind _ _) =>
      first [ apply once_bind_l; [solve [frame]|intros ?]
            | apply once_bind_r; [|intros ?; solve [frame]] ]
  | |- at_most_once (try_catch _ _) =>
      apply once_try_catch; [|intros ?; solve [frame]]
  | |- at_most_once (if ?b then _ else _) => destruct b
  | |- at_most_once (match ?x with _ => _ end) => destruct x
  | |- at_most_once (ret _) => apply once_keeps, keeps_ret
  | |- at_most_once (throw _) => apply once_keeps, keeps_throw
  | |- at_most_once _ => progress autounfold with handlers; cbv zeta
  end.

Ltac broadcasts_once := repeat once_step.

(** *** Clearing the conversation state *)








(** ** Confirmation before any funds move (C3) *)

(** Evaluation by cases on the tests and property reads of a handler. *)
Ltac by_cases :=
  repeat first
    [ reflexivity
    | match goal with
      | |- context [match get ?v ?k with _ => _ end] => destruct (get v k)
      | |- context [if ?b then _ else _] => destruct b
      end;
      cbn beta iota delta [negb andb orb fst snd] ].

Section Confirmation.
Variable E : Env.
Variable L : Linking.







Lemma contract_action_once (functionName status : string) (x y z : JsVal) :
  at_most_once (EscrowService.contract_action E L functionName status x y z).
Proof. broadcasts_once. Qed.















End Confirmation.

(** The repository as it is: the confirmation flows fail on their first
    call of a service and leave the world as it was. *)
Lemma flows_as_written (E : Env) (phoneNumber message : jsstring) (state : JsVal)
    (w : World) :
  snd (PaymentHandler.handleStateFlow E as_written phoneNumber message state w) = w
  /\ snd (EscrowHandler.handleStateFlow E as_written phoneNumber message state w) = w.
Proof.
  split.
  - unfold PaymentHandler.handleStateFlow, PaymentHandler.executeSend, try_catch, bind, lift.
    cbv zeta. by_cases.
  - unfold EscrowHandler.handleStateFlow, EscrowHandler.executeReleaseEscrow,
      EscrowHandler.executeRefundEscrow, EscrowHandler.executeCancelEscrow,
      EscrowHandler.executeCreateEscrow, EscrowHandler.executeAction,
      try_catch, bind, lift.
    cbv zeta. by_cases.
Qed.



(** ** The confirmation flow through the webhook (C1, C2) *)

(** What [setState] stores for a call with four arguments: the third
    argument of the call is the data, the fourth is dropped. *)
Lemma setState_call_data (phoneNumber : jsstring) (stateType step payload : JsVal)
    (w : World) :
  option_map s_state_data
    (state_of phoneNumber
       (snd (StateService.setState_call phoneNumber [stateType; step; payload] w)))
  = Some (default_param (JObj []) step).
Proof.
  unfold StateService.setState_call, StateService.setState, state_of, set_states.
  cbn [snd conversation_states arg nth]. now rewrite lookup_insert_eq.
Qed.

(** C1.  The user has the contact John and 10 STX.  In the repository as
    it is, "send 5 to John" and the "yes" that follows change nothing and
    get no reply: the first service call of the webhook,
    [userService.getByPhone], throws.  [handleSend] itself, given the user,
    gets as far as the lookup of John, which throws as well.
    With the names bound to the service objects and a user lookup that
    returns the row the handlers read, "send 5 to John" stores a state
    of type [payment] whose data is "confirm_send": [setState] has three
    parameters and the call four arguments, so the amount and the recipient
    are not stored.  The "yes" that follows is answered as an unknown
    command; nothing is broadcast, no transaction is recorded and the state
    stays.  With the user lookup of the repository the handlers find no
    [stx_address] in its result: the balance request fails and nothing is
    staged.  Even for a stored state that holds the whole payload, "yes" is
    answered as an unknown command and broadcasts nothing. *)
Theorem C1_send_then_yes_moves_nothing :
  (forall phoneNumber stateType step payload w,
     option_map s_state_data
       (state_of phoneNumber
          (snd (StateService.setState_call phoneNumber [stateType; step; payload] w)))
     = Some (default_param (JObj []) step))
  /\ (option_map s_state_type
        (state_of example_phone (after_send (linked example_lookup)))
      = Some (jstr "payment")
      /\ option_map s_state_data
           (state_of example_phone (after_send (linked example_lookup)))
         = Some (jstr "confirm_send")
      /\ outbox (after_answer (linked example_lookup) "yes")
         = outbox (after_send (linked example_lookup))
           ++ [(example_phone, R_UnknownCommand)]
      /\ chain (after_answer (linked example_lookup) "yes") = []
      /\ transactions (after_answer (linked example_lookup) "yes") = []
      /\ state_of example_phone (after_answer (linked example_lookup) "yes")
         = state_of example_phone (after_send (linked example_lookup)))
  /\ (outbox (after_send (linked UserService.getByPhone))
      = [(example_phone, R_Fail (EWrap CtxGetBalance EExternal))]
      /\ state_of example_phone (after_send (linked UserService.getByPhone)) = None)
  /\ (forall getByPhone,
        In getByPhone [example_lookup; UserService.getByPhone] ->
        outbox (answer_staged (linked getByPhone) "yes")
        = [(example_phone, R_UnknownCommand)]
        /\ chain (answer_staged (linked getByPhone) "yes") = []
        /\ transactions (answer_staged (linked getByPhone) "yes") = []
        /\ state_of example_phone (answer_staged (linked getByPhone) "yes")
           = state_of example_phone example_world_staged)
  /\ (state_of example_phone (after_send as_written) = None
      /\ outbox (after_answer as_written "yes") = []
      /\ chain (after_answer as_written "yes") = []
      /\ transactions (after_answer as_written "yes") = []
      /\ PaymentHandler.handleSend example_env as_written example_phone
           (js "send 5 to John") example_user example_world
         = (Ok (HFailure (R_Fail (EWrap CtxGetContact ETypeError))), example_world)
      /\ outbox (answer_staged as_written "yes") = []
      /\ chain (answer_staged as_written "yes") = []
      /\ state_of example_phone (answer_staged as_written "yes")
         = state_of example_phone example_world_staged).
Proof.
  split; [apply setState_call_data|].
  split; [repeat split; vm_compute; reflexivity|].
  split; [repeat split; vm_compute; reflexivity|].
  split; [intros g [<-|[<-|[]]]; repeat split; vm_compute; reflexivity|].
  repeat split; vm_compute; reflexivity.
Qed.

(** C2.  [getState] returns an object without a [handler] property, so the
    test of the routers for a state of their own fails on every result.
    With the names bound to the service objects and an active payment
    state, "no" is answered as an unknown command and the state stays, and
    "balance" is answered with the balance: the shape of the text
    decides.  The state flow of the payment router, given the same state
    and "no", cancels and clears it.  In the repository as it is the
    routers do not get as far as the test: "no" gets no reply and the state
    stays. *)
Theorem C2_active_state_does_not_route :
  (forall phoneNumber w,
     exists state,
       StateService.getState phoneNumber w = (Ok state, w)
       /\ forall owner, PaymentHandler.owns_state owner state = false)
  /\ option_map s_state_type
       (StateService.active (Webhook.at_time 3000 example_world_staged) example_phone)
     = Some (jstr "payment")
  /\ (forall getByPhone,
        In getByPhone [example_lookup; UserService.getByPhone] ->
        outbox (answer_staged (linked getByPhone) "no")
        = [(example_phone, R_UnknownCommand)]
        /\ state_of example_phone (answer_staged (linked getByPhone) "no")
           = state_of example_phone example_world_staged)
  /\ outbox (answer_staged (linked example_lookup) "balance")
     = [(example_phone, R_Balance (JsNum.of_Z 10))]
  /\ (fst (PaymentHandler.handleStateFlow example_env (linked example_lookup)
             example_phone (js "no") example_state example_world_staged)
      = Ok HSuccess
      /\ state_of example_phone
           (snd (PaymentHandler.handleStateFlow example_env (linked example_lookup)
                   example_phone (js "no") example_state example_world_staged))
         = None)
  /\ (outbox (answer_staged as_written "no") = []
      /\ state_of example_phone (answer_staged as_written "no")
         = state_of example_phone example_world_staged
      /\ fst (PaymentHandler.handleMessage example_env as_written example_phone
                (js "no") (Webhook.at_time 3000 example_world_staged))
         = Ok (HFailure (R_HandlerError ETypeError))
      /\ fst (Webhook.processMessage example_env as_written example_phone
                (js "no") (Webhook.at_time 3000 example_world_staged))
         = Throw ETypeError).
Proof.
  split.
  { intros phoneNumber w. eexists. split; [reflexivity|].
    intros owner. cbv beta. destruct (StateService.active w phoneNumber); reflexivity. }
  split; [vm_compute; reflexivity|].
  split; [intros g [<-|[<-|[]]]; repeat split; vm_compute; reflexivity|].
  repeat split; vm_compute; reflexivity.
Qed.

(** ** Resolving a recipient (C8) *)

Lemma resolveRecipient_address (E : Env) (L : Linking) (userPhone token : jsstring)
    (w : World) :
  StacksService.isValidAddress E (JStr token) = true ->
  ContactService.resolveRecipient E L userPhone token w
  = (Ok (address_recipient token), w).
Proof.
  intros H. unfold ContactService.resolveRecipient, try_catch. now rewrite H.
Qed.

Lemma resolveRecipient_as_written (E : Env) (userPhone token : jsstring) (w : World) :
  StacksService.isValidAddress E (JStr token) = false ->
  ContactService.resolveRecipient E as_written userPhone token w
  = (Throw (EWrap CtxGetContact ETypeError), w).
Proof.
  intros H. unfold ContactService.resolveRecipient, try_catch. now rewrite H.
Qed.

Lemma handleSend_as_written (E : Env) (phoneNumber message : jsstring) (user : JsVal)
    (w : World) :
  snd (PaymentHandler.handleSend E as_written phoneNumber message user w) = w.
Proof.
  unfold PaymentHandler.handleSend, try_catch, bind, lift.
  destruct (exec re_send message) as [m|]; [|reflexivity].
  cbv zeta.
  destruct (JsNum.leb (parseFloat (group 1 m)) JsNum.zero); [reflexivity|].
  destruct (get user "stx_address") as [a|e]; [|reflexivity].
  unfold StacksService.getBalance.
  destruct (env_balance E a) as [b|]; [|reflexivity].
  cbn [ret throw].
  destruct (JsNum.ltb b _); [reflexivity|].
  destruct (StacksService.isValidAddress E (JStr (trim (group 2 m)))) eqn:Hv.
  - rewrite (resolveRecipient_address _ _ _ _ _ Hv). reflexivity.
  - rewrite (resolveRecipient_as_written _ _ _ _ Hv). reflexivity.
Qed.

(** C8.  A token that has the format of an address of the network is
    returned as it is, without a lookup, whatever the imports are bound
    to.  For every other token [resolveRecipient] fails, and the failure is
    that of [getContactByName], which reads [databaseService.client]: the
    contact John of the user is not returned for "John", and for the unknown
    "Jane" the error is not the recipient-not-found error.  In the send flow
    the failure is the reply and nothing is staged, as the claim says:
    [handleSend] leaves the world as it was for every message. *)
Theorem C8_contact_lookup_fails :
  (forall E L userPhone token w,
     StacksService.isValidAddress E (JStr token) = true ->
     ContactService.resolveRecipient E L userPhone token w
     = (Ok (address_recipient token), w))
  /\ (forall E userPhone token w,
        StacksService.isValidAddress E (JStr token) = false ->
        ContactService.resolveRecipient E as_written userPhone token w
        = (Throw (EWrap CtxGetContact ETypeError), w))
  /\ (map c_contact_name
        (List.filter (fun row => str_eqb (c_user_phone row) example_phone)
           (contacts example_world))
      = [js "John"]
      /\ fst (ContactService.resolveRecipient example_env as_written example_phone
                (js "John") example_world)
         = Throw (EWrap CtxGetContact ETypeError)
      /\ fst (ContactService.resolveRecipient example_env as_written example_phone
                (js "Jane") example_world)
         = Throw (EWrap CtxGetContact ETypeError)
      /\ PaymentHandler.handleSend example_env as_written example_phone
           (js "send 5 to Jane") example_user example_world
         = (Ok (HFailure (R_Fail (EWrap CtxGetContact ETypeError))), example_world))
  /\ (forall E phoneNumber message user w,
        snd (PaymentHandler.handleSend E as_written phoneNumber message user w) = w).
Proof.
  split; [intros; now apply resolveRecipient_address|].
  split; [intros; now apply resolveRecipient_as_written|].
  split; [repeat split; vm_compute; reflexivity|].
  intros. apply handleSend_as_written.
Qed.

(** ** The escrow contract *)

Ltac contract_unfold :=
  unfold EscrowContract.call_public, EscrowContract.create_escrow,
    EscrowContract.release_escrow, EscrowContract.refund_escrow,
    EscrowContract.cancel_escrow, EscrowContract.get_next_escrow_id,
    EscrowContract.seq, EscrowContract.asserts, EscrowContract.unwrap,
    EscrowContract.try, EscrowContract.uadd, EscrowContract.stx_transfer,
    EscrowContract.map_set, EscrowContract.pure.

Ltac contract_case :=
  match goal with
  | |- context [match ?o with Some _ => _ | None => _ end] =>
      lazymatch o with
      | context [match _ with _ => _ end] => fail
      | _ => destruct o eqn:?
      end
  | |- context [if ?b then _ else _] =>
      lazymatch b with
      | context [if _ then _ else _] => fail
      | context [match _ with _ => _ end] => fail
      | _ => destruct b eqn:?
      end
  end.

Ltac contract_clean :=
  repeat match goal with
         | H : (_ <=? _)%N = true |- _ => apply N.leb_le in H
         | H : (_ <=? _)%N = false |- _ => apply N.leb_gt in H
         | H : (_ <? _)%N = true |- _ => apply N.ltb_lt in H
         | H : (_ <? _)%N = false |- _ => apply N.ltb_ge in H
         | H : (_ =? _)%N = false |- _ => apply N.eqb_neq in H
         | H : (_ =? _)%N = true |- _ => apply N.eqb_eq in H
         | H : bool_decide _ = true |- _ => apply bool_decide_eq_true in H
         | H : bool_decide _ = false |- _ => apply bool_decide_eq_false in H
         | H : (_ || _) = true |- _ => apply orb_true_iff in H as [H|H]
         | H : (_ || _) = false |- _ => apply orb_false_iff in H as [? ?]
         end.

Section EscrowContractFacts.
Import EscrowContract.

(** *** What the contract holds *)

Lemma held_comm (e1 e2 : escrow) (y : N) :
  (held e1 + (held e2 + y) = held e2 + (held e1 + y))%N.
Proof. lia. Qed.

Lemma locked_insert_fresh (m : gmap N escrow) (i : N) (e : escrow) :
  m !! i = None -> locked (<[i:=e]> m) = (held e + locked m)%N.
Proof.
  intros H. unfold locked.
  apply (map_fold_insert_L (fun _ e acc => (held e + acc)%N)); [|exact H].
  intros; apply held_comm.
Qed.

Lemma locked_lookup (m : gmap N escrow) (i : N) (e : escrow) :
  m !! i = Some e -> locked m = (held e + locked (delete i m))%N.
Proof.
  intros H. unfold locked.
  apply (map_fold_delete_L (fun _ e acc => (held e + acc)%N)); [|exact H].
  intros; apply held_comm.
Qed.

Lemma locked_update (m : gmap N escrow) (i : N) (e e' : escrow) :
  m !! i = Some e ->
  (locked (<[i:=e']> m) + held e = held e' + locked m)%N.
Proof.
  intros H. rewrite <- insert_delete_eq.
  rewrite locked_insert_fresh by apply lookup_delete_eq.
  rewrite (locked_lookup m i e H). lia.
Qed.

(** *** The public functions, case by case *)


(** A call either answers [ok] or leaves everything as it was. *)
Lemma call_public_unchanged {A} (body : C (response A)) (s : storage) :
  (exists v s', call_public body s = (Responded (ok v), s'))
  \/ snd (call_public body s) = s.
Proof.
  unfold call_public. destruct (body s) as [[[v|c]|c|] s']; simpl; eauto.
Qed.

Lemma create_escrow_ok (c : principal) (h : N) (r : principal) (a b : N)
    (m : list N) (s s' : storage) (id : N) :
  call_public (create_escrow c h r a b m) s = (Responded (ok id), s') ->
  id = escrow_nonce s
  /\ (escrow_nonce s + 1 <= uint_max)%N /\ (h + b <= uint_max)%N
  /\ (0 < a)%N /\ c <> ThisContract /\ (a <= stx s c)%N
  /\ (stx s ThisContract + a <= uint_max)%N
  /\ s' = {| escrow_nonce := escrow_nonce s + 1;
             escrows := <[escrow_nonce s :=
                          {| sender := c; recipient := r; amount := a;
                             timeout_height := h + b; status := "active";
                             memo := m; created_at := h |}]> (escrows s);
             stx := moved a c ThisContract (stx s) |}.
Proof.
  contract_unfold. cbn [fst snd].
  repeat (contract_case; cbn [fst snd escrow_nonce]); try discriminate.
  intros [= <- <-].
  repeat match goal with
         | H : (_ <=? _)%N = true |- _ => apply N.leb_le in H
         | H : (_ <? _)%N = true |- _ => apply N.ltb_lt in H
         | H : (_ <? _)%N = false |- _ => apply N.ltb_ge in H
         | H : (_ =? _)%N = false |- _ => apply N.eqb_neq in H
         end.
  repeat split; auto.
Qed.

Lemma release_escrow_ok (c : principal) (i : N) (s s' : storage) (v : bool) :
  call_public (release_escrow c i) s = (Responded (ok v), s') ->
  exists e,
    escrows s !! i = Some e
    /\ (c = sender e \/ c = recipient e) /\ active e = true
    /\ amount e <> 0%N /\ recipient e <> ThisContract
    /\ (amount e <= stx s ThisContract)%N
    /\ (stx s (recipient e) + amount e <= uint_max)%N
    /\ v = true /\ s' = settled "released" i e (recipient e) s.
Proof.
  contract_unfold. cbn [fst snd].
  repeat (contract_case; cbn [fst snd escrows stx set_escrows]); try discriminate.
  intros [= <- <-]. contract_clean; (eexists; repeat split; eauto).
Qed.

Lemma refund_escrow_ok (c : principal) (h i : N) (s s' : storage) (v : bool) :
  call_public (refund_escrow c h i) s = (Responded (ok v), s') ->
  exists e,
    escrows s !! i = Some e
    /\ c = sender e /\ active e = true /\ (timeout_height e <= h)%N
    /\ amount e <> 0%N /\ sender e <> ThisContract
    /\ (amount e <= stx s ThisContract)%N
    /\ (stx s (sender e) + amount e <= uint_max)%N
    /\ v = true /\ s' = settled "refunded" i e (sender e) s.
Proof.
  contract_unfold. cbn [fst snd].
  repeat (contract_case; cbn [fst snd escrows stx set_escrows]); try discriminate.
  intros [= <- <-]. contract_clean; (eexists; repeat split; eauto).
Qed.

Lemma cancel_escrow_ok (c : principal) (i : N) (s s' : storage) (v : bool) :
  call_public (cancel_escrow c i) s = (Responded (ok v), s') ->
  exists e,
    escrows s !! i = Some e
    /\ c = sender e /\ active e = true
    /\ amount e <> 0%N /\ sender e <> ThisContract
    /\ (amount e <= stx s ThisContract)%N
    /\ (stx s (sender e) + amount e <= uint_max)%N
    /\ v = true /\ s' = settled "cancelled" i e (sender e) s.
Proof.
  contract_unfold. cbn [fst snd].
  repeat (contract_case; cbn [fst snd escrows stx set_escrows]); try discriminate.
  intros [= <- <-]. contract_clean; (eexists; repeat split; eauto).
Qed.

Lemma exec_effect (s : storage) (t : tx) : effect s (exec s t).
Proof.
  unfold exec. destruct (tx_call t) as [r a b m|i|i|i].
  - destruct (call_public_unchanged
                (create_escrow (tx_caller t) (tx_height t) r a b m) s)
      as [(v & s' & H)|H]; [|rewrite H; constructor].
    rewrite H. apply create_escrow_ok in H as (_ & _ & _ & ? & ? & ? & _ & ->).
    now constructor.
  - destruct (call_public_unchanged (release_escrow (tx_caller t) i) s)
      as [(v & s' & H)|H]; [|rewrite H; constructor].
    rewrite H. apply release_escrow_ok in H
      as (e & ? & _ & ? & _ & ? & ? & _ & _ & ->).
    constructor; simpl; auto.
  - destruct (call_public_unchanged
                (refund_escrow (tx_caller t) (tx_height t) i) s)
      as [(v & s' & H)|H]; [|rewrite H; constructor].
    rewrite H. apply refund_escrow_ok in H
      as (e & ? & _ & ? & _ & _ & ? & ? & _ & _ & ->).
    constructor; simpl; auto.
  - destruct (call_public_unchanged (cancel_escrow (tx_caller t) i) s)
      as [(v & s' & H)|H]; [|rewrite H; constructor].
    rewrite H. apply cancel_escrow_ok in H
      as (e & ? & _ & ? & _ & ? & ? & _ & _ & ->).
    constructor; simpl; auto.
Qed.

(** *** Invariants *)

Lemma held_le_locked (m : gmap N escrow) (i : N) (e : escrow) :
  m !! i = Some e -> (held e <= locked m)%N.
Proof. intros H. rewrite (locked_lookup m i e H). lia. Qed.

Lemma held_active (e : escrow) : active e = true -> held e = amount e.
Proof. unfold held. now intros ->. Qed.

Lemma held_settled (st : string) (e : escrow) :
  terminal st -> held (with_status st e) = 0%N.
Proof.
  unfold terminal. intros [<-|[<-|[<-|[]]]]; reflexivity.
Qed.

Lemma moved_to (a : N) (from to : principal) (bal : principal -> N) :
  from <> to -> moved a from to bal to = (bal to + a)%N.
Proof.
  intros H. unfold moved. rewrite decide_False by congruence.
  now rewrite decide_True.
Qed.

Lemma moved_from (a : N) (from to : principal) (bal : principal -> N) :
  moved a from to bal from = (bal from - a)%N.
Proof. unfold moved. now rewrite decide_True. Qed.

Lemma moved_other (a : N) (from to p : principal) (bal : principal -> N) :
  p <> from -> p <> to -> moved a from to bal p = bal p.
Proof. intros H1 H2. unfold moved. now rewrite !decide_False. Qed.

Lemma deployed_consistent (balances : principal -> N) :
  consistent (deployed balances).
Proof.
  split; simpl; try (intros id e H; now rewrite lookup_empty in H).
  - intros id H. lia.
  - unfold locked. rewrite map_fold_empty. lia.
Qed.

Lemma effect_consistent (s s' : storage) :
  consistent s -> effect s s' -> consistent s'.
Proof.
  intros [Hid Hall Ham Hse Hst Hso]
    [|c r a th m h Ha Hc Hbal|st i e to Hi Hact Hterm Hto Hbal];
    [now split| |].
  - assert (Hfresh : escrows s !! escrow_nonce s = None).
    { destruct (escrows s !! escrow_nonce s) as [e|] eqn:He; [|reflexivity].
      apply Hid in He. lia. }
    split; cbn [escrow_nonce escrows stx].
    + intros id e. rewrite lookup_insert. case_decide as Hd; intros Hl.
      * subst. lia.
      * apply Hid in Hl. lia.
    + intros id Hlt. rewrite lookup_insert. case_decide as Hd; [eauto|].
      apply Hall. lia.
    + intros id e. rewrite lookup_insert. case_decide as Hd; intros Hl.
      * injection Hl as <-. exact Ha.
      * eauto.
    + intros id e. rewrite lookup_insert. case_decide as Hd; intros Hl.
      * injection Hl as <-. exact Hc.
      * eauto.
    + intros id e. rewrite lookup_insert. case_decide as Hd; intros Hl.
      * injection Hl as <-. simpl. auto.
      * eauto.
    + rewrite locked_insert_fresh by exact Hfresh.
      rewrite moved_to by exact Hc. unfold held, active. simpl. lia.
  - unfold settled. split; cbn [escrow_nonce escrows stx].
    + intros id e0. rewrite lookup_insert. case_decide as Hd; intros Hl.
      * subst. eauto.
      * eauto.
    + intros id Hlt. rewrite lookup_insert. case_decide as Hd; [eauto|].
      now apply Hall.
    + intros id e0. rewrite lookup_insert. case_decide as Hd; intros Hl.
      * injection Hl as <-. simpl. eauto.
      * eauto.
    + intros id e0. rewrite lookup_insert. case_decide as Hd; intros Hl.
      * injection Hl as <-. simpl. eauto.
      * eauto.
    + intros id e0. rewrite lookup_insert. case_decide as Hd; intros Hl.
      * injection Hl as <-. simpl. unfold terminal in Hterm. simpl in Hterm. tauto.
      * eauto.
    + pose proof (locked_update (escrows s) i e (with_status st e) Hi) as Hl.
      rewrite (held_settled st e Hterm), (held_active e Hact) in Hl.
      rewrite moved_from. lia.
Qed.

Lemma run_consistent (txs : list tx) (s : storage) :
  consistent s -> consistent (run s txs).
Proof.
  revert s. induction txs as [|t txs IH]; intros s H; [exact H|].
  apply IH. eapply effect_consistent; [exact H|apply exec_effect].
Qed.

Lemma evolves_trans (e1 e2 e3 : escrow) :
  evolves e1 e2 -> evolves e2 e3 -> evolves e1 e3.
Proof.
  intros [->|(Ht & Ha & Hterm)] H23; [exact H23|].
  destruct H23 as [->|(_ & Ha2 & _)]; [right; auto|].
  exfalso. unfold terminal, active in *.
  destruct Hterm as [Hs|[Hs|[Hs|[]]]]; rewrite <- Hs in Ha2; discriminate.
Qed.

Lemma effect_evolves (s s' : storage) (i : N) (e : escrow) :
  consistent s -> effect s s' -> escrows s !! i = Some e ->
  exists e', escrows s' !! i = Some e' /\ evolves e e'.
Proof.
  intros Hc [|c r a th m h Ha Hcc Hbal|st j e0 to Hj Hact Hterm Hto Hbal] Hi.
  - exists e. split; [exact Hi|now left].
  - exists e. split; [|now left]. cbn [escrows].
    rewrite lookup_insert_ne; [exact Hi|].
    intros <-. apply (ids_below_nonce s Hc) in Hi. lia.
  - unfold settled. cbn [escrows]. rewrite lookup_insert. case_decide as Hd.
    + subst j. rewrite Hi in Hj. injection Hj as <-.
      exists (with_status st e). split; [reflexivity|].
      right. repeat split; auto.
    + exists e. split; [exact Hi|now left].
Qed.

Lemma run_evolves (txs : list tx) (s : storage) (i : N) (e : escrow) :
  consistent s -> escrows s !! i = Some e ->
  exists e', escrows (run s txs) !! i = Some e' /\ evolves e e'.
Proof.
  revert s e. induction txs as [|t txs IH]; intros s e Hc Hi.
  - exists e. split; [exact Hi|now left].
  - destruct (effect_evolves s (exec s t) i e Hc (exec_effect s t) Hi)
      as (e1 & H1 & Hev1).
    destruct (IH (exec s t) e1) as (e2 & H2 & Hev2); [|exact H1|].
    { eapply effect_consistent; [exact Hc|apply exec_effect]. }
    exists e2. split; [exact H2|]. eapply evolves_trans; eauto.
Qed.

Lemma run_app (s : storage) (txs1 txs2 : list tx) :
  run s (txs1 ++ txs2) = run (run s txs1) txs2.
Proof. apply fold_left_app. Qed.

Lemma moved_pays (a : N) (from to : principal) (s s' : storage) :
  from <> to -> (a <= stx s from)%N ->
  stx s' = moved a from to (stx s) -> pays a from to s s'.
Proof.
  intros Hne Hle Hs. unfold pays. rewrite Hs. repeat split.
  - exact Hle.
  - apply moved_from.
  - now apply moved_to.
  - intros p H1 H2. now apply moved_other.
Qed.

(** What an active escrow needs to be paid out to [to]. *)
Lemma settle_ready (s : storage) (i : N) (e : escrow) :
  consistent s -> escrows s !! i = Some e -> active e = true ->
  (amount e =? 0)%N = false /\ (stx s ThisContract <? amount e)%N = false.
Proof.
  intros Hc Hi Hact.
  pose proof (amounts_positive s Hc i e Hi).
  pose proof (held_le_locked _ _ _ Hi) as Hh. rewrite (held_active e Hact) in Hh.
  pose proof (solvent s Hc).
  split; [apply N.eqb_neq|apply N.ltb_ge]; lia.
Qed.

End EscrowContractFacts.

(** *** What the contract guarantees *)

Section EscrowContractProperties.
Import EscrowContract.

(** The contract can always pay: after any sequence of transactions from
    its deployment, the STX it holds cover the amounts of the escrows that
    are still active; besides, the escrow ids are exactly the numbers below
    the nonce, every amount is positive, no escrow was sent by the contract
    itself and every status is one of active, released, refunded and
    cancelled. *)
Theorem escrow_contract_consistent (balances : principal -> N) (txs : list tx) :
  consistent (run (deployed balances) txs).
Proof. apply run_consistent, deployed_consistent. Qed.

(** An escrow that is released, refunded or cancelled stays as it is,
    whatever transactions follow. *)
Theorem settled_escrow_is_final (balances : principal -> N) (txs1 txs2 : list tx)
    (i : N) (e : escrow) :
  escrows (run (deployed balances) txs1) !! i = Some e ->
  active e = false ->
  escrows (run (deployed balances) (txs1 ++ txs2)) !! i = Some e.
Proof.
  intros Hi Hact. rewrite run_app.
  destruct (run_evolves txs2 _ i e (run_consistent txs1 _ (deployed_consistent balances)) Hi)
    as (e' & He' & [->|(_ & Ha & _)]); [exact He'|congruence].
Qed.

Lemma settled_escrow_is_final_witness :
  escrows (run (deployed example_balances)
             ([example_create; example_tx wallet_2 120 (ReleaseEscrow 0)]
              ++ [example_tx wallet_1 130 (CancelEscrow 0);
                  example_tx wallet_1 300 (RefundEscrow 0);
                  example_tx wallet_2 300 (ReleaseEscrow 0)])) !! 0%N
  = Some (example_record "released").
Proof.
  apply (settled_escrow_is_final example_balances
           [example_create; example_tx wallet_2 120 (ReleaseEscrow 0)]);
    vm_compute; reflexivity.
Defined.

(** An escrow is never deleted and its sender, recipient, amount, time-out,
    memo and creation height never change; its status changes at most once,
    from active to released, refunded or cancelled. *)
Theorem escrow_record_evolves (balances : principal -> N) (txs1 txs2 : list tx)
    (i : N) (e : escrow) :
  escrows (run (deployed balances) txs1) !! i = Some e ->
  exists e',
    escrows (run (deployed balances) (txs1 ++ txs2)) !! i = Some e'
    /\ evolves e e'.
Proof.
  intros Hi. rewrite run_app.
  exact (run_evolves txs2 _ i e (run_consistent txs1 _ (deployed_consistent balances)) Hi).
Qed.

Lemma escrow_record_evolves_witness :
  exists e',
    escrows (run (deployed example_balances)
               ([example_create] ++ [example_tx wallet_1 130 (CancelEscrow 0)]))
      !! 0%N = Some e'
    /\ evolves (example_record "active") e'.
Proof.
  apply (escrow_record_evolves example_balances [example_create]).
  vm_compute. reflexivity.
Defined.

(** A successful [create-escrow] returns an id that was not in use, stores
    under it an active escrow with the caller as sender and the time-out at
    the current height plus [timeout-blocks], leaves every other escrow as it
    was and moves exactly [amount], which is positive, from the caller to the
    contract. *)
Theorem create_escrow_stores_fresh (balances : principal -> N) (txs : list tx)
    (c : principal) (h : N) (r : principal) (a b : N) (m : list N)
    (s' : storage) (id : N) :
  call_public (create_escrow c h r a b m) (run (deployed balances) txs)
    = (Responded (ok id), s') ->
  escrows (run (deployed balances) txs) !! id = None
  /\ get_escrow id s'
     = Some {| sender := c; recipient := r; amount := a;
               timeout_height := h + b; status := "active"; memo := m;
               created_at := h |}
  /\ (forall j, j <> id ->
        get_escrow j s' = get_escrow j (run (deployed balances) txs))
  /\ get_escrow_nonce s' = ok (id + 1)%N
  /\ (0 < a)%N
  /\ pays a c ThisContract (run (deployed balances) txs) s'.
Proof.
  intros H.
  pose proof (run_consistent txs _ (deployed_consistent balances)) as Hc.
  apply create_escrow_ok in H as (-> & _ & _ & Ha & Hcc & Hbal & _ & ->).
  unfold get_escrow, get_escrow_nonce. cbn [escrows escrow_nonce].
  split.
  { destruct (escrows _ !! escrow_nonce _) as [e|] eqn:He; [|reflexivity].
    apply (ids_below_nonce _ Hc) in He. lia. }
  split; [apply lookup_insert_eq|].
  split; [intros j Hj; now apply lookup_insert_ne|].
  split; [reflexivity|]. split; [exact Ha|].
  now apply moved_pays.
Qed.

Lemma create_escrow_stores_fresh_witness :
  escrows example_created !! 1%N = None
  /\ get_escrow 1 (run example_created
                     [example_tx wallet_1 110 (CreateEscrow wallet_3 2000000 10 [])])
     = Some {| sender := wallet_1; recipient := wallet_3; amount := 2000000;
               timeout_height := 110 + 10; status := "active"; memo := [];
               created_at := 110 |}
  /\ (forall j, j <> 1%N ->
        get_escrow j (run example_created
                        [example_tx wallet_1 110 (CreateEscrow wallet_3 2000000 10 [])])
        = get_escrow j example_created)
  /\ get_escrow_nonce (run example_created
                         [example_tx wallet_1 110 (CreateEscrow wallet_3 2000000 10 [])])
     = ok (1 + 1)%N
  /\ (0 < 2000000)%N
  /\ pays 2000000 wallet_1 ThisContract example_created
       (run example_created
          [example_tx wallet_1 110 (CreateEscrow wallet_3 2000000 10 [])]).
Proof.
  assert (H : call_public (create_escrow wallet_1 110 wallet_3 2000000 10 [])
                 (run (deployed example_balances) [example_create])
               = (Responded (ok 1%N),
                  run example_created
                    [example_tx wallet_1 110 (CreateEscrow wallet_3 2000000 10 [])]))
    by reflexivity.
  exact (create_escrow_stores_fresh example_balances [example_create]
           wallet_1 110 wallet_3 2000000 10 [] _ 1%N H).
Defined.

(** [release-escrow] answers [ok] only to the sender or the recipient of an
    active escrow; it then marks that escrow released and moves exactly its
    amount from the contract to the recipient, changing no other balance. *)
Theorem release_escrow_pays_recipient (c : principal) (i : N) (s s' : storage)
    (v : bool) :
  call_public (release_escrow c i) s = (Responded (ok v), s') ->
  exists e,
    get_escrow i s = Some e
    /\ active e = true
    /\ (c = sender e \/ c = recipient e)
    /\ escrows s' = <[i := with_status "released" e]> (escrows s)
    /\ escrow_nonce s' = escrow_nonce s
    /\ pays (amount e) ThisContract (recipient e) s s'.
Proof.
  intros H. apply release_escrow_ok in H
    as (e & Hi & Hauth & Hact & _ & Hr & Hbal & _ & _ & ->).
  exists e. repeat split; auto; try (now apply moved_to); try apply moved_from.
  intros p H1 H2. now apply moved_other.
Qed.

Lemma release_escrow_pays_recipient_witness :
  exists e,
    get_escrow 0 example_created = Some e
    /\ active e = true
    /\ (wallet_2 = sender e \/ wallet_2 = recipient e)
    /\ escrows (run example_created [example_tx wallet_2 120 (ReleaseEscrow 0)])
       = <[0%N := with_status "released" e]> (escrows example_created)
    /\ escrow_nonce (run example_created [example_tx wallet_2 120 (ReleaseEscrow 0)])
       = escrow_nonce example_created
    /\ pays (amount e) ThisContract (recipient e) example_created
         (run example_created [example_tx wallet_2 120 (ReleaseEscrow 0)]).
Proof.
  assert (H : call_public (release_escrow wallet_2 0) example_created
               = (Responded (ok true),
                  run example_created [example_tx wallet_2 120 (ReleaseEscrow 0)]))
    by reflexivity.
  exact (release_escrow_pays_recipient wallet_2 0 example_created _ true H).
Defined.

(** [cancel-escrow] and [refund-escrow] answer [ok] only to the sender of an
    active escrow, the refund only from the time-out height on; the escrow is
    then marked cancelled or refunded and exactly its amount moves from the
    contract back to the sender, changing no other balance. *)
Theorem cancel_and_refund_return_to_sender (c : principal) (h i : N)
    (s s' : storage) (v : bool) :
  (call_public (cancel_escrow c i) s = (Responded (ok v), s') ->
   exists e,
     get_escrow i s = Some e /\ active e = true /\ c = sender e
     /\ escrows s' = <[i := with_status "cancelled" e]> (escrows s)
     /\ escrow_nonce s' = escrow_nonce s
     /\ pays (amount e) ThisContract c s s')
  /\ (call_public (refund_escrow c h i) s = (Responded (ok v), s') ->
      exists e,
        get_escrow i s = Some e /\ active e = true /\ c = sender e
        /\ (timeout_height e <= h)%N
        /\ escrows s' = <[i := with_status "refunded" e]> (escrows s)
        /\ escrow_nonce s' = escrow_nonce s
        /\ pays (amount e) ThisContract c s s').
Proof.
  split; intros H.
  - apply cancel_escrow_ok in H
      as (e & Hi & -> & Hact & _ & Hr & Hbal & _ & _ & ->).
    exists e. repeat split; auto; try (now apply moved_to); try apply moved_from.
    intros p H1 H2. now apply moved_other.
  - apply refund_escrow_ok in H
      as (e & Hi & -> & Hact & Ht & _ & Hr & Hbal & _ & _ & ->).
    exists e. repeat split; auto; try (now apply moved_to); try apply moved_from.
    intros p H1 H2. now apply moved_other.
Qed.

Lemma cancel_and_refund_return_to_sender_witness :
  (exists e,
     get_escrow 0 example_created = Some e /\ active e = true
     /\ wallet_1 = sender e
     /\ escrows (run example_created [example_tx wallet_1 120 (CancelEscrow 0)])
        = <[0%N := with_status "cancelled" e]> (escrows example_created)
     /\ escrow_nonce (run example_created [example_tx wallet_1 120 (CancelEscrow 0)])
        = escrow_nonce example_created
     /\ pays (amount e) ThisContract wallet_1 example_created
          (run example_created [example_tx wallet_1 120 (CancelEscrow 0)]))
  /\ (exists e,
        get_escrow 0 example_created = Some e /\ active e = true
        /\ wallet_1 = sender e
        /\ (timeout_height e <= 300)%N
        /\ escrows (run example_created [example_tx wallet_1 300 (RefundEscrow 0)])
           = <[0%N := with_status "refunded" e]> (escrows example_created)
        /\ escrow_nonce (run example_created [example_tx wallet_1 300 (RefundEscrow 0)])
           = escrow_nonce example_created
        /\ pays (amount e) ThisContract wallet_1 example_created
             (run example_created [example_tx wallet_1 300 (RefundEscrow 0)])).
Proof.
  split.
  - assert (H : call_public (cancel_escrow wallet_1 0) example_created
                 = (Responded (ok true),
                    run example_created [example_tx wallet_1 120 (CancelEscrow 0)]))
      by reflexivity.
    exact (proj1 (cancel_and_refund_return_to_sender wallet_1 300 0
                    example_created _ true) H).
  - assert (H : call_public (refund_escrow wallet_1 300 0) example_created
                 = (Responded (ok true),
                    run example_created [example_tx wallet_1 300 (RefundEscrow 0)]))
      by reflexivity.
    exact (proj2 (cancel_and_refund_return_to_sender wallet_1 300 0
                    example_created _ true) H).
Defined.

(** In a storage the contract can reach, [refund-escrow] answers [(ok true)]
    exactly when the escrow exists, the caller is its sender and
    [can-refund] answers [(ok true)] at that height, as long as the refund
    does not take the sender's balance over the largest [uint]. *)
Theorem refund_escrow_iff_can_refund (balances : principal -> N) (txs : list tx)
    (c : principal) (h i : N) :
  (forall e, get_escrow i (run (deployed balances) txs) = Some e ->
     (stx (run (deployed balances) txs) (sender e) + amount e <= uint_max)%N) ->
  fst (call_public (refund_escrow c h i) (run (deployed balances) txs))
    = Responded (ok true)
  <-> can_refund h i (run (deployed balances) txs) = Some true
      /\ exists e, get_escrow i (run (deployed balances) txs) = Some e
                   /\ c = sender e.
Proof.
  intros Hmax.
  pose proof (run_consistent txs _ (deployed_consistent balances)) as Hc.
  unfold get_escrow in *. unfold can_refund.
  split.
  - destruct (call_public _ _) as [o s'] eqn:H. cbn [fst]. intros ->.
    apply refund_escrow_ok in H as (e & Hi & -> & Hact & Ht & _).
    rewrite Hi. split; [|exists e; auto].
    unfold active in Hact. rewrite Hact.
    apply N.leb_le in Ht. now rewrite Ht.
  - intros [Hcan (e & Hi & ->)]. rewrite Hi in Hcan. injection Hcan as Hcan.
    apply andb_true_iff in Hcan as [Hact Ht].
    destruct (settle_ready _ i e Hc Hi Hact) as [Hz Hb].
    pose proof (senders_standard _ Hc i e Hi) as Hs.
    specialize (Hmax e Hi). apply N.leb_le in Hmax.
    contract_unfold. rewrite Hi. cbn [fst snd].
    rewrite bool_decide_eq_true_2 by reflexivity.
    rewrite Hact, Ht. cbn [fst snd stx set_escrows].
    rewrite Hz. rewrite decide_False by congruence.
    rewrite decide_True by reflexivity.
    rewrite Hb, Hmax. reflexivity.
Qed.

Lemma refund_escrow_iff_can_refund_witness :
  fst (call_public (refund_escrow wallet_1 244 0)
         (run (deployed example_balances) [example_create]))
    = Responded (ok true)
  <-> can_refund 244 0 (run (deployed example_balances) [example_create])
      = Some true
      /\ exists e,
           get_escrow 0 (run (deployed example_balances) [example_create]) = Some e
           /\ wallet_1 = sender e.
Proof.
  apply (refund_escrow_iff_can_refund example_balances [example_create]
           wallet_1 244 0).
  intros e He. vm_compute in He. injection He as <-. vm_compute. discriminate.
Defined.

(** The funds of an active escrow are never stuck: in a storage the contract
    can reach, its sender can cancel it and, when the recipient is not the
    contract itself, its sender and its recipient can release it; the call
    answers [(ok true)] as long as the payment does not take the payee's
    balance over the largest [uint]. *)
Theorem active_escrow_can_be_settled (balances : principal -> N) (txs : list tx)
    (i : N) (e : escrow) :
  get_escrow i (run (deployed balances) txs) = Some e ->
  active e = true ->
  ((stx (run (deployed balances) txs) (sender e) + amount e <= uint_max)%N ->
   fst (call_public (cancel_escrow (sender e) i) (run (deployed balances) txs))
     = Responded (ok true))
  /\ (forall c, c = sender e \/ c = recipient e ->
        recipient e <> ThisContract ->
        (stx (run (deployed balances) txs) (recipient e) + amount e <= uint_max)%N ->
        fst (call_public (release_escrow c i) (run (deployed balances) txs))
          = Responded (ok true)).
Proof.
  intros Hi Hact.
  pose proof (run_consistent txs _ (deployed_consistent balances)) as Hc.
  unfold get_escrow in Hi.
  destruct (settle_ready _ i e Hc Hi Hact) as [Hz Hb].
  pose proof (senders_standard _ Hc i e Hi) as Hs.
  unfold active in Hact.
  split.
  - intros Hmax. apply N.leb_le in Hmax.
    contract_unfold. rewrite Hi. cbn [fst snd].
    rewrite bool_decide_eq_true_2 by reflexivity.
    rewrite Hact. cbn [fst snd stx set_escrows].
    rewrite Hz. rewrite decide_False by congruence.
    rewrite decide_True by reflexivity.
    rewrite Hb, Hmax. reflexivity.
  - intros c Hauth Hr Hmax. apply N.leb_le in Hmax.
    contract_unfold. rewrite Hi. cbn [fst snd].
    assert (Hb2 : bool_decide (c = sender e) || bool_decide (c = recipient e) = true).
    { apply orb_true_iff.
      destruct Hauth; [left|right]; now apply bool_decide_eq_true_2. }
    rewrite Hb2, Hact. cbn [fst snd stx set_escrows].
    rewrite Hz. rewrite decide_False by congruence.
    rewrite decide_True by reflexivity.
    rewrite Hb, Hmax. reflexivity.
Qed.

Lemma active_escrow_can_be_settled_witness :
  fst (call_public (cancel_escrow wallet_1 0)
         (run (deployed example_balances) [example_create]))
    = Responded (ok true).
Proof.
  refine (proj1 (active_escrow_can_be_settled example_balances [example_create]
                   0 (example_record "active") _ _) _).
  - vm_compute. reflexivity.
  - vm_compute. reflexivity.
  - vm_compute. discriminate.
Defined.

End EscrowContractProperties.

(** ** The validators *)

Lemma after_prefix_some (p s r : jsstring) :
  after_prefix p s = Some r <-> s = p ++ r.
Proof.
  revert s. induction p as [|x p IH]; intros s; simpl.
  - split; [intros [= ->]|intros ->]; reflexivity.
  - destruct s as [|y s]; [split; discriminate|].
    destruct (N.eqb_spec x y) as [->|Hne].
    + rewrite IH. split; [intros ->; reflexivity|intros [= ->]; reflexivity].
    + split; [discriminate|intros [= -> _]; contradiction].
Qed.

Lemma after_prefix_startsWith (p s : jsstring) :
  startsWith s p = true <-> after_prefix p s <> None.
Proof.
  revert s. induction p as [|x p IH]; intros s.
  - destruct s; simpl; split; auto; discriminate.
  - destruct s as [|y s]; simpl.
    + split; [discriminate|contradiction].
    + unfold cu_eqb. rewrite (N.eqb_sym x y).
      destruct (N.eqb y x); simpl; [apply IH|].
      split; [discriminate|contradiction].
Qed.

Lemma rmatch_lit {R} (p : jsstring) :
  forall (pos : nat) (s : jsstring) (c : caps)
         (k : nat -> jsstring -> caps -> option R),
  rmatch (lit p) pos s c k
  = match after_prefix p s with
    | Some r => k (pos + length p) r c
    | None => None
    end.
Proof.
  unfold lit. induction p as [|x p IH]; intros pos s c k.
  - simpl. f_equal. lia.
  - destruct p as [|x' p].
    + simpl. destruct s as [|y s]; [reflexivity|].
      unfold is_lit. destruct (N.eqb x y); [|reflexivity].
      f_equal. lia.
    + change (rcat (map (fun x => RChr (is_lit x)) (x :: x' :: p)))
        with (RSeq (RChr (is_lit x)) (rcat (map (fun x => RChr (is_lit x)) (x' :: p)))).
      cbn [rmatch]. destruct s as [|y s]; [reflexivity|].
      change (after_prefix (x :: x' :: p) (y :: s))
        with (if N.eqb x y then after_prefix (x' :: p) s else None).
      unfold is_lit at 1. destruct (N.eqb x y); [|reflexivity].
      rewrite IH.
      destruct (after_prefix (x' :: p) s); [|reflexivity].
      f_equal. cbn [length]. lia.
Qed.

(** A run of exactly-bounded length of one class, as a whole. *)
Lemma rmatch_rep_chr_complete {R} (p : N -> bool) (lo hi j pos : nat)
    (s : jsstring) (c : caps) (k : nat -> jsstring -> caps -> option R) :
  lo <= j <= hi -> j <= length s ->
  Forall (fun x => p x = true) (firstn j s) ->
  k (pos + j) (skipn j s) c <> None ->
  rmatch (rep lo hi (RChr p)) pos s c k <> None.
Proof.
  intros Hj Hlen Hall Hk. unfold rep. cbn [rmatch].
  apply (rep_chr_complete _ _ _ _ _ j); simpl; auto; lia.
Qed.

Lemma test_phoneRegex (s : jsstring) :
  test ValidatorTs.phoneRegex s = true <-> phone_shaped s.
Proof.
  unfold test, ValidatorTs.phoneRegex. cbn [rcat]. rewrite exec_bol.
  unfold match_at.
  remember (lit (js "+234")) as pre eqn:Hpre.
  remember (rep 10 10 digit) as body eqn:Hbody.
  cbn [rmatch Nat.eqb]. change (skipn 0 s) with s.
  subst pre. rewrite rmatch_lit.
  destruct (after_prefix (js "+234") s) as [r|] eqn:Hr.
  - apply after_prefix_some in Hr. subst body. split.
    + intros H.
      destruct (rmatch _ _ _ _ _) as [res|] eqn:Hm; [|discriminate].
      unfold rep, digit in Hm.
      apply rep_chr_sound in Hm as (u & s' & Hs & Hall & Hlo & Hhi & Hk).
      simpl in Hhi. destruct s'; [|discriminate]. rewrite app_nil_r in Hs.
      subst u. exists r. repeat split; auto. lia.
    + intros (d & Hd & Hlen & Hall). rewrite Hr in Hd.
      apply app_inv_head in Hd. subst d.
      match goal with |- match ?a with _ => _ end = true =>
        assert (Hne : a <> None); [|destruct a; [reflexivity|contradiction]] end.
      unfold digit.
      apply (rmatch_rep_chr_complete _ 10 10 10); [lia|lia| |].
      * rewrite <- Hlen. now rewrite firstn_all.
      * rewrite <- Hlen, skipn_all. discriminate.
  - split; [discriminate|].
    intros (d & Hd & _). apply after_prefix_some in Hd. congruence.
Qed.

Lemma test_networkRegex (p s : jsstring) :
  test (rcat [RBol; lit p; re_address_body 38 41; REol]) s = true
  <-> exists r, s = p ++ r /\ 38 <= length r <= 41
                /\ Forall (fun c => is_upper_alnum c = true) r.
Proof.
  unfold test. cbn [rcat]. rewrite exec_bol. unfold match_at.
  remember (lit p) as pre eqn:Hpre.
  remember (re_address_body 38 41) as body eqn:Hbody.
  cbn [rmatch Nat.eqb]. change (skipn 0 s) with s.
  subst pre. rewrite rmatch_lit.
  destruct (after_prefix p s) as [r|] eqn:Hr.
  - apply after_prefix_some in Hr. subst body. split.
    + intros H.
      destruct (rmatch _ _ _ _ _) as [res|] eqn:Hm; [|discriminate].
      apply rmatch_body_sound in Hm as (u & s' & Hs & Hall & Hlen & Hk).
      destruct s'; [|discriminate]. rewrite app_nil_r in Hs. subst u.
      exists r. auto.
    + intros (d & Hd & Hlen & Hall). rewrite Hr in Hd.
      apply app_inv_head in Hd. subst d.
      match goal with |- match ?a with _ => _ end = true =>
        assert (Hne : a <> None); [|destruct a; [reflexivity|contradiction]] end.
      apply (rmatch_body_complete 38 41 (length r)); [lia|lia| |].
      * now rewrite firstn_all.
      * rewrite skipn_all. discriminate.
  - split; [discriminate|].
    intros (d & Hd & _). apply after_prefix_some in Hd. congruence.
Qed.

Lemma isValidAddress_spec (E : Env) (a : jsstring) :
  StacksService.isValidAddress E (JStr a) = true
  <-> exists r, a = network_prefix E ++ r /\ 38 <= length r <= 41
                /\ Forall (fun c => is_upper_alnum c = true) r.
Proof.
  unfold StacksService.isValidAddress, network_prefix,
    StacksService.mainnetRegex, StacksService.testnetRegex.
  destruct (str_eqb (env_network E) (js "mainnet")); apply test_networkRegex.
Qed.

(** The three phone checks are one: [isValidPhoneNumber] of validator.ts and
    [validatePhone] of validator.js accept exactly the strings made of +234
    and ten digits, and [sendMessage] hands a message to Twilio only for such
    a number. *)
Theorem phone_checks_agree (E : Env) (phone : jsstring) (message : Reply)
    (w : World) :
  (ValidatorTs.isValidPhoneNumber phone = true <-> phone_shaped phone)
  /\ ValidatorJsAddr.validatePhone phone = ValidatorTs.isValidPhoneNumber phone
  /\ (outbox (snd (sendMessage E (JStr phone) message w)) <> outbox w ->
      phone_shaped phone).
Proof.
  split; [apply test_phoneRegex|]. split.
  - destruct phone; reflexivity.
  - unfold sendMessage. intros H. apply test_phoneRegex.
    destruct (test ValidatorTs.phoneRegex phone); [reflexivity|].
    now contradiction H.
Qed.

Lemma phone_checks_agree_witness : phone_shaped example_phone.
Proof.
  apply (proj2 (proj2 (phone_checks_agree example_env example_phone R_UnknownCommand
                         example_world))).
  vm_compute. discriminate.
Defined.

(** An address that registration accepts is one the Stacks service accepts
    exactly when it has the prefix of the configured network: SP on mainnet,
    ST otherwise. *)
Theorem registered_address_needs_network_prefix (E : Env) (address : jsstring) :
  ValidatorJsAddr.valid (ValidatorJsAddr.validateStxAddress address) = true ->
  StacksService.isValidAddress E (JStr (trim address))
  = startsWith (trim address) (network_prefix E).
Proof.
  intros H.
  assert (Hv : ValidatorJsAddr.validateStxAddress address = ValidatorJsAddr.AddressValid)
    by (destruct (ValidatorJsAddr.validateStxAddress address); try discriminate;
        reflexivity).
  apply validateStxAddress_spec in Hv as [_ (r & Hr & Hlen & Hall)].
  destruct (startsWith (trim address) (network_prefix E)) eqn:Hs.
  - apply isValidAddress_spec.
    apply after_prefix_startsWith in Hs.
    destruct (after_prefix (network_prefix E) (trim address)) as [r'|] eqn:Hr';
      [|contradiction].
    apply after_prefix_some in Hr'. exists r'.
    apply address_rest_some in Hr.
    assert (Hl : length (network_prefix E) = 2)
      by (unfold network_prefix; destruct (str_eqb _ _); reflexivity).
    assert (r' = r).
    { destruct Hr as [Hr|Hr]; rewrite Hr in Hr';
        unfold network_prefix in Hr'; destruct (str_eqb _ _);
        simpl in Hr'; congruence. }
    subst r'. repeat split; auto; lia.
  - destruct (StacksService.isValidAddress E (JStr (trim address))) eqn:Hv;
      [|reflexivity].
    apply isValidAddress_spec in Hv as (r' & Hr' & _).
    assert (Hn : after_prefix (network_prefix E) (trim address) <> None).
    { apply after_prefix_some in Hr'. congruence. }
    apply after_prefix_startsWith in Hn. congruence.
Qed.

Lemma registered_address_needs_network_prefix_witness :
  StacksService.isValidAddress example_env (JStr (trim example_address_A))
  = startsWith (trim example_address_A) (network_prefix example_env).
Proof.
  apply (registered_address_needs_network_prefix example_env example_address_A).
  vm_compute. reflexivity.
Defined.

(** ** The conversation states *)

Lemma getState_active (p : jsstring) (w : World) :
  fst (StateService.getState p w)
  = Ok (match StateService.active w p with
        | Some r => state_result p r
        | None => StateService.no_state
        end).
Proof.
  unfold StateService.getState, read. cbn [fst].
  destruct (StateService.active w p); reflexivity.
Qed.

Lemma active_later (t : Z) (w : World) (p : jsstring) :
  StateService.active (later t w) p
  = match state_of p w with
    | Some r => if (Z.max (now w) t <? s_expires_at r)%Z then Some r else None
    | None => None
    end.
Proof. reflexivity. Qed.

(** A state stored by [setState] is what [getState] returns for the next ten
    minutes, with the type and the data it was given (the empty object when
    no data was given), and is not returned from then on; [getStateType]
    returns its type, then [null]; after [clearState] there is no state; the
    states of the other users are untouched by both. *)
Theorem setState_then_getState (phoneNumber : jsstring) (stateType stateData : JsVal)
    (w : World) (t : Z) :
  (exists createdAt,
     fst (StateService.getState phoneNumber
            (later t (snd (StateService.setState_call phoneNumber
                             [stateType; stateData] w))))
     = Ok (if (t <? now w + 600000)%Z
           then state_result phoneNumber
                  {| s_state_type := stateType;
                     s_state_data := default_param (JObj []) stateData;
                     s_created_at := createdAt;
                     s_expires_at := (now w + 600000)%Z |}
           else StateService.no_state))
  /\ fst (getStateType phoneNumber
            (later t (snd (StateService.setState_call phoneNumber
                             [stateType; stateData] w))))
     = Ok (if (t <? now w + 600000)%Z then stateType else JNull)
  /\ fst (StateService.getState phoneNumber
            (later t (snd (StateService.clearState phoneNumber w))))
     = Ok StateService.no_state
  /\ (forall other, other <> phoneNumber ->
        fst (StateService.getState other
               (later t (snd (StateService.setState_call phoneNumber
                             [stateType; stateData] w))))
        = fst (StateService.getState other (later t w))
        /\ fst (StateService.getState other
                  (later t (snd (StateService.clearState phoneNumber w))))
           = fst (StateService.getState other (later t w))).
Proof.
  change (StateService.setState_call phoneNumber [stateType; stateData])
    with (StateService.setState phoneNumber stateType
            (default_param (JObj []) stateData)).
  generalize (default_param (JObj []) stateData). clear stateData.
  intros stateData.
  assert (Hmax : (Z.max (now w) t <? now w + 600000)%Z = (t <? now w + 600000)%Z).
  { destruct (Z.ltb_spec t (now w + 600000)); [apply Z.ltb_lt|apply Z.ltb_ge]; lia. }
  assert (Hset : forall q,
             state_of q (snd (StateService.setState phoneNumber stateType stateData w))
             = <[phoneNumber :=
                   {| s_state_type := stateType; s_state_data := stateData;
                      s_created_at := match conversation_states w !! phoneNumber with
                                      | Some r => s_created_at r
                                      | None => now w
                                      end;
                      s_expires_at := (now w + 600000)%Z |}]>
                 (conversation_states w) !! q) by reflexivity.
  assert (Hnow : now (snd (StateService.setState phoneNumber stateType stateData w))
                 = now w) by reflexivity.
  assert (Hclear : forall q,
             state_of q (snd (StateService.clearState phoneNumber w))
             = delete phoneNumber (conversation_states w) !! q) by reflexivity.
  assert (Hnow' : now (snd (StateService.clearState phoneNumber w)) = now w)
    by reflexivity.
  split; [|split; [|split]].
  - eexists. rewrite getState_active, active_later, Hset, Hnow, lookup_insert_eq.
    cbn [s_expires_at]. rewrite Hmax.
    destruct (t <? now w + 600000)%Z; reflexivity.
  - unfold getStateType, bind, lift.
    pose proof (getState_active phoneNumber
                  (later t (snd (StateService.setState phoneNumber stateType
                                   stateData w)))) as Hg.
    rewrite active_later, Hset, Hnow, lookup_insert_eq in Hg.
    cbn [s_expires_at] in Hg. rewrite Hmax in Hg.
    destruct (StateService.getState phoneNumber _) as [res w'].
    cbn [fst] in Hg. subst res.
    destruct (t <? now w + 600000)%Z; reflexivity.
  - rewrite getState_active, active_later, Hclear, lookup_delete_eq. reflexivity.
  - intros other Hne. split.
    + rewrite !getState_active, !active_later, Hset, Hnow.
      rewrite lookup_insert_ne by congruence. reflexivity.
    + rewrite !getState_active, !active_later, Hclear, Hnow'.
      rewrite lookup_delete_ne by congruence. reflexivity.
Qed.

Lemma setState_then_getState_witness :
  fst (StateService.getState (js "+2348000000000")
         (later 5000 (snd (StateService.setState_call example_phone
                             [jstr "payment"; example_state] example_world_staged))))
  = fst (StateService.getState (js "+2348000000000") (later 5000 example_world_staged))
  /\ fst (StateService.getState (js "+2348000000000")
            (later 5000 (snd (StateService.clearState example_phone
                                example_world_staged))))
     = fst (StateService.getState (js "+2348000000000")
              (later 5000 example_world_staged)).
Proof.
  apply (proj2 (proj2 (proj2
           (setState_then_getState example_phone (jstr "payment") example_state
              example_world_staged 5000)))).
  vm_compute. discriminate.
Defined.

(** [cleanExpiredStates] deletes only states that [getState] no longer
    returns: the answer of [getState] is the same before and after, for every
    user.  It returns the number of rows it deleted, it leaves no row that
    expired before now, and run again at once it deletes nothing. *)
Theorem cleanExpiredStates_is_invisible (w : World) :
  (forall phoneNumber,
     fst (StateService.getState phoneNumber (snd (cleanExpiredStates w)))
     = fst (StateService.getState phoneNumber w))
  /\ (forall phoneNumber r,
        state_of phoneNumber (snd (cleanExpiredStates w)) = Some r ->
        state_of phoneNumber w = Some r /\ (now w <= s_expires_at r)%Z)
  /\ (exists n,
        fst (cleanExpiredStates w) = Ok n
        /\ size (conversation_states w)
           = n + size (conversation_states (snd (cleanExpiredStates w))))
  /\ fst (cleanExpiredStates (snd (cleanExpiredStates w))) = Ok 0.
Proof.
  assert (Hst : forall q,
             state_of q (snd (cleanExpiredStates w))
             = filter (fun kr : jsstring * StateRow =>
                         ~ (s_expires_at kr.2 < now w)%Z)
                 (conversation_states w) !! q) by reflexivity.
  split; [|split; [|split]].
  - intros p. rewrite !getState_active. f_equal.
    unfold StateService.active.
    change (conversation_states (snd (cleanExpiredStates w)) !! p)
      with (state_of p (snd (cleanExpiredStates w))).
    change (now (snd (cleanExpiredStates w))) with (now w).
    rewrite Hst.
    destruct (conversation_states w !! p) as [r|] eqn:Hp.
    + destruct (decide (s_expires_at r < now w)%Z) as [Hlt|Hge].
      * rewrite (proj2 (map_lookup_filter_None _ _ _)).
        -- destruct (Z.ltb_spec (now w) (s_expires_at r)); [lia|reflexivity].
        -- right. intros x Hx. rewrite Hp in Hx. injection Hx as <-. simpl. tauto.
      * rewrite (map_lookup_filter_Some_2 _ _ _ r Hp Hge). reflexivity.
    + rewrite (proj2 (map_lookup_filter_None _ _ _)); [reflexivity|now left].
  - intros p r. rewrite Hst. intros H.
    apply map_lookup_filter_Some in H as [H1 H2]. simpl in H2.
    split; [exact H1|lia].
  - eexists. split; [reflexivity|].
    cbn [snd cleanExpiredStates conversation_states set_states].
    rewrite <- map_size_disj_union by apply map_disjoint_filter_complement.
    now rewrite map_filter_union_complement.
  - unfold cleanExpiredStates at 1. cbn [fst]. f_equal.
    apply map_size_empty_iff. apply map_empty. intros p.
    apply map_lookup_filter_None. right. intros r Hr.
    change (conversation_states (snd (cleanExpiredStates w)) !! p)
      with (state_of p (snd (cleanExpiredStates w))) in Hr.
    rewrite Hst in Hr. apply map_lookup_filter_Some in Hr as [_ H2].
    exact H2.
Qed.

Lemma cleanExpiredStates_is_invisible_witness :
  state_of example_phone example_world_staged
  = Some {| s_state_type := jstr "payment"; s_state_data := example_state;
            s_created_at := 1000; s_expires_at := 601000 |}
  /\ (now example_world_staged <= 601000)%Z.
Proof.
  apply (proj1 (proj2 (cleanExpiredStates_is_invisible example_world_staged))
           example_phone
           {| s_state_type := jstr "payment"; s_state_data := example_state;
              s_created_at := 1000; s_expires_at := 601000 |}).
  vm_compute. reflexivity.
Defined.

(** ** Registration *)

Lemma sendMessage_world (E : Env) (to : JsVal) (message : Reply) (w : World) :
  exists g, sendMessage E to message w = (Ok tt, set_outbox g w).
Proof.
  unfold sendMessage.
  destruct to; try (exists (fun o => o); destruct w; reflexivity).
  destruct (test _ _); [|exists (fun o => o); destruct w; reflexivity].
  destruct (env_twilio E s); [|exists (fun o => o); destruct w; reflexivity].
  eexists. reflexivity.
Qed.

Lemma filter_phone_unused (w : World) (p : jsstring) :
  phone_unused w p ->
  List.filter (UserService.phone_is (JStr p)) (users w) = []
  /\ existsb (UserService.phone_is (JStr p)) (users w) = false.
Proof.
  unfold phone_unused. induction (users w) as [|u us IH]; intros H; [now split|].
  apply Forall_cons in H as [Hu H]. destruct (IH H) as [IH1 IH2].
  assert (Hn : UserService.phone_is (JStr p) u = false)
    by (unfold UserService.phone_is; cbn [strict_eq]; now apply str_eqb_neq).
  cbn [List.filter existsb]. rewrite Hn. now split.
Qed.

Lemma filter_address_unused (w : World) (a : jsstring) :
  address_unused w a ->
  List.filter (UserService.address_is (JStr a)) (users w) = []
  /\ existsb (UserService.address_is (JStr a)) (users w) = false.
Proof.
  unfold address_unused. induction (users w) as [|u us IH]; intros H; [now split|].
  apply Forall_cons in H as [Hu H]. destruct (IH H) as [IH1 IH2].
  assert (Hn : UserService.address_is (JStr a) u = false)
    by (unfold UserService.address_is; cbn [strict_eq]; now apply str_eqb_neq).
  cbn [List.filter existsb]. rewrite Hn. now split.
Qed.

Lemma handleRegistration_starts (E : Env) (p m : jsstring) (w : World) :
  ValidatorJsAddr.validatePhone p = true ->
  fst (UserService.exists_ p w) = Ok false ->
  StateService.active w p = None ->
  exists g,
    RegistrationHandler.handleRegistration E p m w
    = (Ok RegistrationHandler.RegistrationStarted,
       set_outbox g
         (snd (StateService.setState p (jstr "registration")
                 (obj [("step", JNum (JsNum.of_Z 1)); ("awaitingAddress", JBool true);
                       ("startedAt", JNum (JsNum.of_Z (now w)))]) w))).
Proof.
  intros Hp Hex Hst.
  unfold RegistrationHandler.handleRegistration, try_catch.
  rewrite Hp. cbn [negb].
  rewrite (bind_returns _ _ false) by exact Hex.
  change (snd (UserService.exists_ p w)) with w. cbv iota.
  rewrite (bind_returns _ _ StateService.no_state)
    by (rewrite getState_active, Hst; reflexivity).
  change (snd (StateService.getState p w)) with w.
  rewrite (bind_returns _ _ (JBool false)) by reflexivity.
  cbn [truthy negb lift snd].
  unfold RegistrationHandler.startRegistration.
  rewrite (bind_returns _ _ (now w)) by reflexivity.
  change (snd (read now w)) with w.
  rewrite (bind_returns _ _ StateService.success) by reflexivity.
  destruct (sendMessage_world E (JStr p) R_RegistrationPrompt
              (snd (StateService.setState_call p
                      [jstr "registration";
                       obj [("step", JNum (JsNum.of_Z 1)); ("awaitingAddress", JBool true);
                            ("startedAt", JNum (JsNum.of_Z (now w)))]] w)))
    as [g Hg].
  unfold bind at 1. rewrite Hg. exists g. reflexivity.
Qed.

Lemma bind_read {A B} (f : World -> A) (k : A -> M B) (w : World) :
  bind (read f) k w = k (f w) w.
Proof. reflexivity. Qed.

Lemma create_fresh (p a : jsstring) (w : World) :
  phone_unused w p -> address_unused w a ->
  UserService.create p a w
  = (Ok (obj [("success", JBool true);
              ("user", UserService.mapToUser
                         {| u_phone_number := p; u_stx_address := a;
                            u_created_at := now w |})]),
     set_users (fun us => us ++ [{| u_phone_number := p; u_stx_address := a;
                                    u_created_at := now w |}]) w).
Proof.
  intros Hp Ha. unfold UserService.create.
  rewrite (proj2 (filter_phone_unused w p Hp)).
  rewrite (proj2 (filter_address_unused w a Ha)). reflexivity.
Qed.

Lemma handleRegistration_completes (E : Env) (p m : jsstring) (w : World)
    (r : StateRow) :
  ValidatorJsAddr.validatePhone p = true ->
  phone_unused w p -> address_unused w (trim m) ->
  StateService.active w p = Some r ->
  ValidatorJsAddr.valid (ValidatorJsAddr.validateStxAddress (trim m)) = true ->
  exists g,
    RegistrationHandler.handleRegistration E p m w
    = (Ok (RegistrationHandler.RegistrationCompleted (trim m)),
       set_outbox g
         (set_states (delete p)
            (set_users (fun us => us ++ [{| u_phone_number := p;
                                            u_stx_address := trim m;
                                            u_created_at := now w |}]) w))).
Proof.
  intros Hp Hpu Hau Hst Hv.
  unfold RegistrationHandler.handleRegistration, try_catch.
  rewrite Hp. cbn [negb].
  unfold UserService.exists_. rewrite bind_read.
  rewrite (proj1 (filter_phone_unused w p Hpu)).
  rewrite (bind_returns _ _ (state_result p r))
    by (rewrite getState_active, Hst; reflexivity).
  change (snd (StateService.getState p w)) with w.
  rewrite (bind_returns _ _ (JBool true)) by reflexivity.
  cbn [truthy negb lift snd].
  unfold RegistrationHandler.completeRegistration. cbv zeta.
  rewrite Hv. cbn [negb].
  unfold UserService.addressExists. rewrite bind_read.
  rewrite (proj1 (filter_address_unused w (trim m) Hau)).
  unfold bind at 1. rewrite (create_fresh p (trim m) w Hpu Hau).
  rewrite (bind_returns _ _ (JBool true)) by reflexivity.
  cbn [truthy negb lift snd].
  rewrite (bind_returns _ _ StateService.success) by reflexivity.
  match goal with |- context [bind (sendMessage E ?to ?msg) _ ?w0] =>
    destruct (sendMessage_world E to msg w0) as [g Hg] end.
  unfold bind at 1. rewrite Hg. exists g. reflexivity.
Qed.

Lemma exists_unused (w : World) (p : jsstring) :
  phone_unused w p -> fst (UserService.exists_ p w) = Ok false.
Proof.
  intros H. unfold UserService.exists_, read. cbn [fst].
  now rewrite (proj1 (filter_phone_unused w p H)).
Qed.

(** Registration takes two messages.  A user with a well-formed number, not
    yet registered and with no conversation in progress, gets the prompt on
    any first message.  If the next message arrives less than ten minutes
    later and is a well-formed address that nobody has registered, the user
    is stored with that address, trimmed, the conversation state is cleared
    and [getByPhone] finds the user; if it arrives later than that, nothing
    is stored and the registration starts again. *)
Theorem registration_in_two_messages (E : Env) (phoneNumber m1 m2 : jsstring)
    (w : World) (t : Z) :
  ValidatorJsAddr.validatePhone phoneNumber = true ->
  phone_unused w phoneNumber ->
  StateService.active w phoneNumber = None ->
  ValidatorJsAddr.valid (ValidatorJsAddr.validateStxAddress (trim m2)) = true ->
  address_unused w (trim m2) ->
  fst (RegistrationHandler.handleRegistration E phoneNumber m1 w)
  = Ok RegistrationHandler.RegistrationStarted
  /\ ((t < now w + 600000)%Z ->
      fst (RegistrationHandler.handleRegistration E phoneNumber m2
             (registering E phoneNumber m1 t w))
      = Ok (RegistrationHandler.RegistrationCompleted (trim m2))
      /\ users (snd (RegistrationHandler.handleRegistration E phoneNumber m2
                       (registering E phoneNumber m1 t w)))
         = users w ++ [{| u_phone_number := phoneNumber; u_stx_address := trim m2;
                          u_created_at := Z.max (now w) t |}]
      /\ cleared phoneNumber
           (snd (RegistrationHandler.handleRegistration E phoneNumber m2
                   (registering E phoneNumber m1 t w)))
      /\ UserService.getByPhone
           (snd (RegistrationHandler.handleRegistration E phoneNumber m2
                   (registering E phoneNumber m1 t w)))
           (JStr phoneNumber)
         = Ok (obj [("success", JBool true);
                    ("user", UserService.mapToUser
                               {| u_phone_number := phoneNumber;
                                  u_stx_address := trim m2;
                                  u_created_at := Z.max (now w) t |})]))
  /\ ((now w + 600000 <= t)%Z ->
      fst (RegistrationHandler.handleRegistration E phoneNumber m2
             (registering E phoneNumber m1 t w))
      = Ok RegistrationHandler.RegistrationStarted
      /\ users (snd (RegistrationHandler.handleRegistration E phoneNumber m2
                       (registering E phoneNumber m1 t w)))
         = users w).
Proof.
  intros Hp Hpu Hst Hv Hau.
  destruct (handleRegistration_starts E phoneNumber m1 w Hp
              (exists_unused w phoneNumber Hpu) Hst) as [g1 H1].
  unfold registering. rewrite H1. cbn [fst snd].
  set (W := later t _).
  assert (HuW : users W = users w) by reflexivity.
  assert (HnW : now W = Z.max (now w) t) by reflexivity.
  assert (HpuW : phone_unused W phoneNumber) by exact Hpu.
  assert (HauW : address_unused W (trim m2)) by exact Hau.
  assert (HsW : state_of phoneNumber W
                = Some {| s_state_type := jstr "registration";
                          s_state_data :=
                            obj [("step", JNum (JsNum.of_Z 1));
                                 ("awaitingAddress", JBool true);
                                 ("startedAt", JNum (JsNum.of_Z (now w)))];
                          s_created_at :=
                            match conversation_states w !! phoneNumber with
                            | Some r => s_created_at r
                            | None => now w
                            end;
                          s_expires_at := (now w + 600000)%Z |}).
  { unfold state_of, W. cbn [later Webhook.at_time conversation_states set_outbox
                             StateService.setState snd set_states].
    apply lookup_insert_eq. }
  split; [reflexivity|]. split.
  - intros Ht.
    assert (Hact : StateService.active W phoneNumber <> None).
    { unfold StateService.active. fold (state_of phoneNumber W). rewrite HsW, HnW.
      cbn [s_expires_at].
      destruct (Z.ltb_spec (Z.max (now w) t) (now w + 600000)); [discriminate|lia]. }
    destruct (StateService.active W phoneNumber) as [r|] eqn:Hr; [|contradiction].
    destruct (handleRegistration_completes E phoneNumber m2 W r Hp HpuW HauW Hr Hv)
      as [g2 H2].
    rewrite H2. cbn [fst snd]. split; [reflexivity|].
    split; [cbn [users set_outbox set_states set_users]; now rewrite HuW, HnW|].
    split.
    + unfold cleared, state_of.
      cbn [conversation_states set_outbox set_states set_users].
      apply lookup_delete_eq.
    + unfold UserService.getByPhone.
      cbn [users set_outbox set_states set_users]. rewrite HuW, HnW.
      rewrite List.filter_app, (proj1 (filter_phone_unused w phoneNumber Hpu)).
      cbn [List.filter app]. unfold UserService.phone_is at 1.
      cbn [strict_eq u_phone_number]. rewrite str_eqb_refl. reflexivity.
  - intros Ht.
    assert (Hact : StateService.active W phoneNumber = None).
    { unfold StateService.active. fold (state_of phoneNumber W). rewrite HsW, HnW.
      cbn [s_expires_at].
      destruct (Z.ltb_spec (Z.max (now w) t) (now w + 600000)); [lia|reflexivity]. }
    destruct (handleRegistration_starts E phoneNumber m2 W Hp
                (exists_unused W phoneNumber HpuW) Hact) as [g2 H2].
    rewrite H2. split; reflexivity.
Qed.

Lemma registration_in_two_messages_witness :
  fst (RegistrationHandler.handleRegistration example_env (js "+2348000000000")
         (js "hello") example_world)
  = Ok RegistrationHandler.RegistrationStarted
  /\ users (snd (RegistrationHandler.handleRegistration example_env
                   (js "+2348000000000") example_address_A
                   (registering example_env (js "+2348000000000") (js "hello")
                      60000 example_world)))
     = users example_world
       ++ [{| u_phone_number := js "+2348000000000";
              u_stx_address := trim example_address_A;
              u_created_at := Z.max (now example_world) 60000 |}]
  /\ users (snd (RegistrationHandler.handleRegistration example_env
                   (js "+2348000000000") example_address_A
                   (registering example_env (js "+2348000000000") (js "hello")
                      700000 example_world)))
     = users example_world.
Proof.
  assert (Hp : ValidatorJsAddr.validatePhone (js "+2348000000000") = true)
    by (vm_compute; reflexivity).
  assert (Hu : phone_unused example_world (js "+2348000000000")).
  { repeat constructor. vm_compute. discriminate. }
  assert (Hs : StateService.active example_world (js "+2348000000000") = None)
    by (vm_compute; reflexivity).
  assert (Hv : ValidatorJsAddr.valid
                 (ValidatorJsAddr.validateStxAddress (trim example_address_A)) = true)
    by (vm_compute; reflexivity).
  assert (Ha : address_unused example_world (trim example_address_A)).
  { repeat constructor. vm_compute. discriminate. }
  split; [|split].
  - exact (proj1 (registration_in_two_messages example_env (js "+2348000000000")
                    (js "hello") example_address_A example_world 60000
                    Hp Hu Hs Hv Ha)).
  - refine (proj1 (proj2 (proj1 (proj2
              (registration_in_two_messages example_env (js "+2348000000000")
                 (js "hello") example_address_A example_world 60000
                 Hp Hu Hs Hv Ha)) _))).
    vm_compute. reflexivity.
  - refine (proj2 (proj2 (proj2
              (registration_in_two_messages example_env (js "+2348000000000")
                 (js "hello") example_address_A example_world 700000
                 Hp Hu Hs Hv Ha)) _)).
    vm_compute. discriminate.
Defined.

Ltac send_step E :=
  match goal with
  | |- context [bind (sendMessage E ?to ?msg) _ ?w0] =>
      let g := fresh "g" in
      let Hg := fresh "Hg" in
      destruct (sendMessage_world E to msg w0) as [g Hg];
      unfold bind at 1; rewrite Hg; clear Hg
  end.

Lemma existsb_phone_unused (w : World) (p : jsstring) :
  existsb (UserService.phone_is (JStr p)) (users w) = false -> phone_unused w p.
Proof.
  unfold phone_unused. induction (users w) as [|u us IH]; intros H; [constructor|].
  cbn [existsb] in H. apply orb_false_iff in H as [Hu H].
  constructor; [|now apply IH].
  unfold UserService.phone_is in Hu. cbn [strict_eq] in Hu. now apply str_eqb_neq.
Qed.

Lemma existsb_address_unused (w : World) (a : jsstring) :
  existsb (UserService.address_is (JStr a)) (users w) = false -> address_unused w a.
Proof.
  unfold address_unused. induction (users w) as [|u us IH]; intros H; [constructor|].
  cbn [existsb] in H. apply orb_false_iff in H as [Hu H].
  constructor; [|now apply IH].
  unfold UserService.address_is in Hu. cbn [strict_eq] in Hu. now apply str_eqb_neq.
Qed.

Lemma try_catch_keeps {A X} (f : World -> X) (body : M A) (handler : Error -> M A)
    (w : World) :
  (forall e, keeps f (handler e)) ->
  f (snd (try_catch body handler w)) = f (snd (body w)).
Proof.
  intros H. unfold try_catch. destruct (body w) as [[a|e] w']; [reflexivity|].
  apply H.
Qed.

Lemma try_catch_ok {A} (body : M A) (handler : Error -> M A) (w w' : World) (a : A) :
  body w = (Ok a, w') -> try_catch body handler w = (Ok a, w').
Proof. intros H. unfold try_catch. now rewrite H. Qed.

Lemma completeRegistration_cases (E : Env) (p m : jsstring) (w : World) :
  users (snd (RegistrationHandler.completeRegistration E p m w)) = users w
  \/ (ValidatorJsAddr.valid (ValidatorJsAddr.validateStxAddress (trim m)) = true
      /\ phone_unused w p /\ address_unused w (trim m)
      /\ exists g,
           RegistrationHandler.completeRegistration E p m w
           = (Ok (RegistrationHandler.RegistrationCompleted (trim m)),
              set_outbox g
                (set_states (delete p)
                   (set_users (fun us => us ++ [{| u_phone_number := p;
                                                   u_stx_address := trim m;
                                                   u_created_at := now w |}]) w)))).
Proof.
  destruct (ValidatorJsAddr.valid (ValidatorJsAddr.validateStxAddress (trim m)))
    eqn:Hv.
  2: { left. now apply completeRegistration_invalid. }
  unfold RegistrationHandler.completeRegistration. cbv zeta.
  rewrite Hv. cbn [negb].
  unfold UserService.addressExists. rewrite bind_read.
  unfold RegistrationHandler.sendErrorMessage.
  destruct (List.filter _ _) as [|u [|u' us']] eqn:Hf.
  2: { left. send_step E. reflexivity. }
  all: destruct (existsb (UserService.phone_is (JStr p)) (users w)) eqn:Hep;
    [left; unfold bind at 1; unfold UserService.create; rewrite Hep;
     rewrite (bind_returns _ _ (JBool false)) by reflexivity;
     cbn [truthy negb lift snd]; send_step E; reflexivity|].
  all: destruct (existsb (UserService.address_is (JStr (trim m))) (users w)) eqn:Hea;
    [left; unfold bind at 1; unfold UserService.create; rewrite Hep, Hea;
     rewrite (bind_returns _ _ (JBool false)) by reflexivity;
     cbn [truthy negb lift snd]; send_step E; reflexivity|].
  - right. split; [reflexivity|].
    apply existsb_phone_unused in Hep. apply existsb_address_unused in Hea.
    split; [exact Hep|]. split; [exact Hea|].
    unfold bind at 1. rewrite (create_fresh p (trim m) w Hep Hea).
    rewrite (bind_returns _ _ (JBool true)) by reflexivity.
    cbn [truthy negb lift snd].
    rewrite (bind_returns _ _ StateService.success) by reflexivity.
    send_step E. exists g. reflexivity.
  - exfalso.
    apply existsb_address_unused in Hea.
    rewrite (proj1 (filter_address_unused w (trim m) Hea)) in Hf. discriminate.
Qed.

Lemma validatePhone_shaped (p : jsstring) :
  ValidatorJsAddr.validatePhone p = true -> phone_shaped p.
Proof.
  intros H. apply test_phoneRegex. destruct p; [discriminate|exact H].
Qed.

(** [handleRegistration] changes the users in one way only: it adds, at the
    end, the sender of the message with the trimmed message as address; this
    happens only when the number is +234 and ten digits, the address is SP or
    ST and 39 characters of 0-9 and A-Z, neither is registered and the sender
    has an active conversation state, which is cleared. *)
Theorem registration_stores_only_checked_users (E : Env) (phoneNumber m : jsstring)
    (w : World) :
  users (snd (RegistrationHandler.handleRegistration E phoneNumber m w)) = users w
  \/ (fst (RegistrationHandler.handleRegistration E phoneNumber m w)
      = Ok (RegistrationHandler.RegistrationCompleted (trim m))
      /\ users (snd (RegistrationHandler.handleRegistration E phoneNumber m w))
         = users w ++ [{| u_phone_number := phoneNumber; u_stx_address := trim m;
                          u_created_at := now w |}]
      /\ phone_shaped phoneNumber
      /\ address_shaped 39 39 (trim m)
      /\ phone_unused w phoneNumber
      /\ address_unused w (trim m)
      /\ StateService.active w phoneNumber <> None
      /\ cleared phoneNumber
           (snd (RegistrationHandler.handleRegistration E phoneNumber m w))).
Proof.
  assert (Hh : forall e,
             keeps users
               (bind (RegistrationHandler.sendErrorMessage E phoneNumber
                        "Registration failed. Please try again.")
                  (fun _ => ret (RegistrationHandler.RegistrationFailed
                                   (RegistrationHandler.HandlerFailed e))))).
  { intros e. unfold RegistrationHandler.sendErrorMessage. frame. }
  unfold RegistrationHandler.handleRegistration.
  destruct (ValidatorJsAddr.validatePhone phoneNumber) eqn:Hp; cbn [negb].
  2: { left. rewrite try_catch_keeps by exact Hh.
       unfold RegistrationHandler.sendErrorMessage. send_step E. reflexivity. }
  destruct (List.filter (UserService.phone_is (JStr phoneNumber)) (users w))
    as [|u [|u' us']] eqn:Hf.
  2: { left. rewrite try_catch_keeps by exact Hh.
       unfold UserService.exists_. rewrite bind_read, Hf.
       unfold RegistrationHandler.sendErrorMessage. send_step E. reflexivity. }
  all: destruct (StateService.active w phoneNumber) as [r|] eqn:Hst.
  all: try (left; rewrite try_catch_keeps by exact Hh;
            unfold UserService.exists_; rewrite bind_read, Hf;
            rewrite (bind_returns _ _ StateService.no_state)
              by (rewrite getState_active, Hst; reflexivity);
            change (snd (StateService.getState phoneNumber w)) with w;
            rewrite (bind_returns _ _ (JBool false)) by reflexivity;
            cbn [truthy negb lift snd];
            unfold RegistrationHandler.startRegistration;
            rewrite (bind_returns _ _ (now w)) by reflexivity;
            change (snd (read now w)) with w;
            rewrite (bind_returns _ _ StateService.success) by reflexivity;
            send_step E; reflexivity).
  all: destruct (completeRegistration_cases E phoneNumber m w)
         as [Hk|(Hv & Hpu & Hau & g & Hc)].
  all: try (left; rewrite try_catch_keeps by exact Hh;
            unfold UserService.exists_; rewrite bind_read, Hf;
            rewrite (bind_returns _ _ (state_result phoneNumber r))
              by (rewrite getState_active, Hst; reflexivity);
            change (snd (StateService.getState phoneNumber w)) with w;
            rewrite (bind_returns _ _ (JBool true)) by reflexivity;
            cbn [truthy negb lift snd]; exact Hk).
  - right.
    erewrite try_catch_ok.
    2: { unfold UserService.exists_. rewrite bind_read, Hf.
         rewrite (bind_returns _ _ (state_result phoneNumber r))
           by (rewrite getState_active, Hst; reflexivity).
         change (snd (StateService.getState phoneNumber w)) with w.
         rewrite (bind_returns _ _ (JBool true)) by reflexivity.
         cbn [truthy negb lift snd]. exact Hc. }
    cbn [fst snd]. split; [reflexivity|]. split; [reflexivity|].
    split; [now apply validatePhone_shaped|].
    split.
    { assert (Hv' : ValidatorJsAddr.validateStxAddress (trim m)
                    = ValidatorJsAddr.AddressValid)
        by (destruct (ValidatorJsAddr.validateStxAddress (trim m));
            try discriminate; reflexivity).
      apply validateStxAddress_spec in Hv' as [_ Hs].
      now rewrite (trim_id _ (trim_trimmed m)) in Hs. }
    split; [exact Hpu|]. split; [exact Hau|]. split; [discriminate|].
    unfold cleared, state_of. cbn [conversation_states set_outbox set_states set_users].
    apply lookup_delete_eq.
  - exfalso. rewrite (proj1 (filter_phone_unused w phoneNumber Hpu)) in Hf.
    discriminate.
Qed.

Lemma startRegistration_run (E : Env) (p : jsstring) (w : World) :
  exists g,
    RegistrationHandler.startRegistration E p w
    = (Ok RegistrationHandler.RegistrationStarted,
       set_outbox g
         (snd (StateService.setState p (jstr "registration")
                 (obj [("step", JNum (JsNum.of_Z 1)); ("awaitingAddress", JBool true);
                       ("startedAt", JNum (JsNum.of_Z (now w)))]) w))).
Proof.
  unfold RegistrationHandler.startRegistration.
  rewrite (bind_returns _ _ (now w)) by reflexivity.
  change (snd (read now w)) with w.
  rewrite (bind_returns _ _ StateService.success) by reflexivity.
  send_step E. exists g. reflexivity.
Qed.

(** The commands around the registration.  [initiateRegistration] for a
    number that no user has stores a registration state, and for the next ten
    minutes [getRegistrationStatus] reports the registration in progress and
    the user not registered; for a registered user it answers "Already
    registered" and stores nothing.  [cancelRegistration] reports success
    whether or not a registration was in progress, and afterwards
    [getRegistrationStatus] reports none in progress. *)
Theorem registration_commands (E : Env) (phoneNumber : jsstring) (w : World) (t : Z) :
  (phone_unused w phoneNumber ->
   fst (RegistrationCommands.initiateRegistration E phoneNumber w)
   = Ok (RegistrationCommands.Initiated RegistrationHandler.RegistrationStarted)
   /\ ((t < now w + 600000)%Z ->
       exists st,
         fst (RegistrationCommands.getRegistrationStatus phoneNumber
                (later t (snd (RegistrationCommands.initiateRegistration E
                                 phoneNumber w))))
         = Ok st
         /\ RegistrationCommands.registered st = false
         /\ RegistrationCommands.inProgress st = JBool true))
  /\ (fst (UserService.exists_ phoneNumber w) = Ok true ->
      fst (RegistrationCommands.initiateRegistration E phoneNumber w)
      = Ok RegistrationCommands.AlreadyRegistered
      /\ conversation_states
           (snd (RegistrationCommands.initiateRegistration E phoneNumber w))
         = conversation_states w)
  /\ fst (RegistrationCommands.cancelRegistration E phoneNumber w) = Ok true
  /\ (exists st,
        fst (RegistrationCommands.getRegistrationStatus phoneNumber
               (later t (snd (RegistrationCommands.cancelRegistration E
                                phoneNumber w))))
        = Ok st
        /\ RegistrationCommands.inProgress st = JBool false
        /\ RegistrationCommands.state st = JNull).
Proof.
  split; [|split; [|split]].
  - intros Hpu.
    assert (Hinit : exists g,
               RegistrationCommands.initiateRegistration E phoneNumber w
               = (Ok (RegistrationCommands.Initiated
                        RegistrationHandler.RegistrationStarted),
                  set_outbox g
                    (snd (StateService.setState phoneNumber (jstr "registration")
                            (obj [("step", JNum (JsNum.of_Z 1));
                                  ("awaitingAddress", JBool true);
                                  ("startedAt", JNum (JsNum.of_Z (now w)))]) w)))).
    { unfold RegistrationCommands.initiateRegistration.
      rewrite (bind_returns _ _ false) by now apply exists_unused.
      change (snd (UserService.exists_ phoneNumber w)) with w. cbv iota.
      destruct (startRegistration_run E phoneNumber w) as [g Hg].
      exists g. unfold bind. rewrite Hg. reflexivity. }
    destruct Hinit as [g Hinit]. rewrite Hinit. cbn [fst snd].
    split; [reflexivity|]. intros Ht.
    set (W := later t _).
    assert (Hact : StateService.active W phoneNumber
                   = Some {| s_state_type := jstr "registration";
                             s_state_data :=
                               obj [("step", JNum (JsNum.of_Z 1));
                                    ("awaitingAddress", JBool true);
                                    ("startedAt", JNum (JsNum.of_Z (now w)))];
                             s_created_at :=
                               match conversation_states w !! phoneNumber with
                               | Some r => s_created_at r
                               | None => now w
                               end;
                             s_expires_at := (now w + 600000)%Z |}).
    { unfold StateService.active, W.
      cbn [later Webhook.at_time conversation_states set_outbox now
           StateService.setState snd set_states].
      rewrite lookup_insert_eq. cbn [s_expires_at].
      destruct (Z.ltb_spec (Z.max (now w) t) (now w + 600000)); [reflexivity|lia]. }
    unfold RegistrationCommands.getRegistrationStatus.
    rewrite (bind_returns _ _ false) by (apply exists_unused; exact Hpu).
    change (snd (UserService.exists_ phoneNumber W)) with W.
    rewrite (bind_returns _ _ (state_result phoneNumber _))
      by (rewrite getState_active, Hact; reflexivity).
    eexists. split; [reflexivity|]. split; reflexivity.
  - intros Hex.
    unfold RegistrationCommands.initiateRegistration.
    rewrite (bind_returns _ _ true) by exact Hex.
    change (snd (UserService.exists_ phoneNumber w)) with w. cbv iota.
    unfold RegistrationHandler.sendErrorMessage.
    split; send_step E; reflexivity.
  - unfold RegistrationCommands.cancelRegistration.
    rewrite (bind_returns _ _ StateService.success) by reflexivity.
    rewrite (bind_returns _ _ (JBool true)) by reflexivity.
    cbn [truthy lift snd]. send_step E. reflexivity.
  - assert (Hc : exists g,
               RegistrationCommands.cancelRegistration E phoneNumber w
               = (Ok true, set_outbox g (snd (StateService.clearState phoneNumber w)))).
    { unfold RegistrationCommands.cancelRegistration.
      rewrite (bind_returns _ _ StateService.success) by reflexivity.
      rewrite (bind_returns _ _ (JBool true)) by reflexivity.
      cbn [truthy lift snd]. send_step E. exists g. reflexivity. }
    destruct Hc as [g Hc]. rewrite Hc. cbn [snd].
    set (W := later t _).
    assert (Hact : StateService.active W phoneNumber = None).
    { unfold StateService.active, W.
      cbn [later Webhook.at_time conversation_states set_outbox now
           StateService.clearState snd set_states].
      now rewrite lookup_delete_eq. }
    unfold RegistrationCommands.getRegistrationStatus.
    unfold UserService.exists_. rewrite bind_read.
    rewrite (bind_returns _ _ StateService.no_state)
      by (rewrite getState_active, Hact; reflexivity).
    eexists. split; [reflexivity|]. split; reflexivity.
Qed.

Lemma registration_commands_witness :
  (fst (RegistrationCommands.initiateRegistration example_env (js "+2348000000000")
          example_world)
   = Ok (RegistrationCommands.Initiated RegistrationHandler.RegistrationStarted)
   /\ exists st,
        fst (RegistrationCommands.getRegistrationStatus (js "+2348000000000")
               (later 60000
                  (snd (RegistrationCommands.initiateRegistration example_env
                          (js "+2348000000000") example_world))))
        = Ok st
        /\ RegistrationCommands.registered st = false
        /\ RegistrationCommands.inProgress st = JBool true)
  /\ fst (RegistrationCommands.initiateRegistration example_env example_phone
            example_world)
     = Ok RegistrationCommands.AlreadyRegistered.
Proof.
  assert (Hu : phone_unused example_world (js "+2348000000000")).
  { repeat constructor. vm_compute. discriminate. }
  split; [split|].
  - exact (proj1 (proj1 (registration_commands example_env (js "+2348000000000")
                           example_world 60000) Hu)).
  - refine (proj2 (proj1 (registration_commands example_env (js "+2348000000000")
                            example_world 60000) Hu) _).
    vm_compute. reflexivity.
  - refine (proj1 (proj1 (proj2 (registration_commands example_env example_phone
                                   example_world 0)) _)).
    vm_compute. reflexivity.
Defined.

Lemma handleRegistration_continues (E : Env) (p m : jsstring) (w : World)
    (r : StateRow) :
  ValidatorJsAddr.validatePhone p = true ->
  fst (UserService.exists_ p w) = Ok false ->
  StateService.active w p = Some r ->
  RegistrationHandler.handleRegistration E p m w
  = try_catch (RegistrationHandler.completeRegistration E p m)
      (fun e =>
         bind (RegistrationHandler.sendErrorMessage E p
                 "Registration failed. Please try again.")
           (fun _ => ret (RegistrationHandler.RegistrationFailed
                            (RegistrationHandler.HandlerFailed e)))) w.
Proof.
  intros Hp Hex Hst.
  unfold RegistrationHandler.handleRegistration, try_catch.
  rewrite Hp. cbn [negb].
  rewrite (bind_returns _ _ false) by exact Hex.
  change (snd (UserService.exists_ p w)) with w. cbv iota.
  rewrite (bind_returns _ _ (state_result p r))
    by (rewrite getState_active, Hst; reflexivity).
  change (snd (StateService.getState p w)) with w.
  rewrite (bind_returns _ _ (JBool true)) by reflexivity.
  reflexivity.
Qed.

(** A wrong address during registration.  When the message is not a
    well-formed address the user gets the format error and the registration
    stays in progress, as it was, so that the next message within the ten
    minutes is taken as the address again; when it is a well-formed address
    that is already registered the registration is cancelled: the state is
    cleared and the next message starts over.  No user is stored in either
    case. *)
Theorem registration_after_a_wrong_address (E : Env) (phoneNumber m : jsstring)
    (w : World) (r : StateRow) :
  ValidatorJsAddr.validatePhone phoneNumber = true ->
  fst (UserService.exists_ phoneNumber w) = Ok false ->
  StateService.active w phoneNumber = Some r ->
  (ValidatorJsAddr.valid (ValidatorJsAddr.validateStxAddress (trim m)) = false ->
   fst (RegistrationHandler.handleRegistration E phoneNumber m w)
   = Ok (RegistrationHandler.RegistrationFailed
           (RegistrationHandler.InvalidAddress
              (ValidatorJsAddr.validateStxAddress (trim m))))
   /\ conversation_states (snd (RegistrationHandler.handleRegistration E phoneNumber
                                  m w))
      = conversation_states w
   /\ users (snd (RegistrationHandler.handleRegistration E phoneNumber m w))
      = users w)
  /\ (ValidatorJsAddr.valid (ValidatorJsAddr.validateStxAddress (trim m)) = true ->
      fst (UserService.addressExists (trim m) w) = Ok true ->
      fst (RegistrationHandler.handleRegistration E phoneNumber m w)
      = Ok (RegistrationHandler.RegistrationFailed
              RegistrationHandler.AddressAlreadyRegistered)
      /\ cleared phoneNumber
           (snd (RegistrationHandler.handleRegistration E phoneNumber m w))
      /\ users (snd (RegistrationHandler.handleRegistration E phoneNumber m w))
         = users w).
Proof.
  intros Hp Hex Hst.
  rewrite (handleRegistration_continues E phoneNumber m w r Hp Hex Hst).
  split.
  - intros Hv.
    assert (Hrun : exists g,
               RegistrationHandler.completeRegistration E phoneNumber m w
               = (Ok (RegistrationHandler.RegistrationFailed
                        (RegistrationHandler.InvalidAddress
                           (ValidatorJsAddr.validateStxAddress (trim m)))),
                  set_outbox g w)).
    { unfold RegistrationHandler.completeRegistration. cbv zeta.
      rewrite Hv. cbn [negb]. unfold RegistrationHandler.sendErrorMessage.
      send_step E. exists g. reflexivity. }
    destruct Hrun as [g Hrun]. rewrite (try_catch_ok _ _ _ _ _ Hrun).
    repeat split.
  - intros Hv Hdup.
    assert (Hrun : exists g,
               RegistrationHandler.completeRegistration E phoneNumber m w
               = (Ok (RegistrationHandler.RegistrationFailed
                        RegistrationHandler.AddressAlreadyRegistered),
                  set_states (delete phoneNumber) (set_outbox g w))).
    { unfold RegistrationHandler.completeRegistration. cbv zeta.
      rewrite Hv. cbn [negb].
      rewrite (bind_returns _ _ true) by exact Hdup.
      change (snd (UserService.addressExists (trim m) w)) with w. cbv iota.
      unfold RegistrationHandler.sendErrorMessage.
      send_step E. exists g. reflexivity. }
    destruct Hrun as [g Hrun]. rewrite (try_catch_ok _ _ _ _ _ Hrun).
    split; [reflexivity|]. split; [|reflexivity].
    unfold cleared, state_of. cbn [snd conversation_states set_states].
    apply lookup_delete_eq.
Qed.

Lemma registration_after_a_wrong_address_witness :
  (fst (RegistrationHandler.handleRegistration example_env (js "+2348000000000")
          (js "SP123")
          (registering example_env (js "+2348000000000") (js "hi") 5000 example_world))
   = Ok (RegistrationHandler.RegistrationFailed
           (RegistrationHandler.InvalidAddress
              (ValidatorJsAddr.validateStxAddress (trim (js "SP123")))))
   /\ conversation_states
        (snd (RegistrationHandler.handleRegistration example_env
                (js "+2348000000000") (js "SP123")
                (registering example_env (js "+2348000000000") (js "hi") 5000
                   example_world)))
      = conversation_states
          (registering example_env (js "+2348000000000") (js "hi") 5000 example_world)
   /\ users (snd (RegistrationHandler.handleRegistration example_env
                    (js "+2348000000000") (js "SP123")
                    (registering example_env (js "+2348000000000") (js "hi") 5000
                       example_world)))
      = users (registering example_env (js "+2348000000000") (js "hi") 5000
                 example_world))
  /\ cleared (js "+2348000000000")
       (snd (RegistrationHandler.handleRegistration example_env
               (js "+2348000000000") example_address_U
               (registering example_env (js "+2348000000000") (js "hi") 5000
                  example_world))).
Proof.
  assert (Hp : ValidatorJsAddr.validatePhone (js "+2348000000000") = true)
    by (vm_compute; reflexivity).
  assert (He : fst (UserService.exists_ (js "+2348000000000")
                      (registering example_env (js "+2348000000000") (js "hi") 5000
                         example_world)) = Ok false)
    by (vm_compute; reflexivity).
  split.
  - refine (proj1 (registration_after_a_wrong_address example_env
                     (js "+2348000000000") (js "SP123")
                     (registering example_env (js "+2348000000000") (js "hi") 5000
                        example_world) _ Hp He _) _).
    + vm_compute. reflexivity.
    + vm_compute. reflexivity.
  - refine (proj1 (proj2 (proj2 (registration_after_a_wrong_address example_env
                     (js "+2348000000000") example_address_U
                     (registering example_env (js "+2348000000000") (js "hi") 5000
                        example_world) _ Hp He _) _ _))).
    + vm_compute. reflexivity.
    + vm_compute. reflexivity.
    + vm_compute. reflexivity.
Defined.

(** ** What the services hand to the network *)

Lemma bind_run {A B} (m : M A) (k : A -> M B) (w w' : World) (a : A) :
  m w = (Ok a, w') -> bind m k w = k a w'.
Proof. intros H. unfold bind. now rewrite H. Qed.

Lemma bind_ret {A B} (a : A) (k : A -> M B) (w : World) :
  bind (ret a) k w = k a w.
Proof. reflexivity. Qed.

Lemma bind_fails {A B} (m : M A) (k : A -> M B) (w w' : World) (e : Error) :
  m w = (Throw e, w') -> bind m k w = (Throw e, w').
Proof. intros H. unfold bind. now rewrite H. Qed.

Lemma network_broadcast_cases (E : Env) (tx : ChainTx) (w : World) :
  (exists response,
     env_broadcast E tx = Some response /\ accepted response = true
     /\ network_broadcast E tx w = (Ok response, set_chain (fun c => c ++ [tx]) w))
  \/ (chain (snd (network_broadcast E tx w)) = chain w
      /\ forall response, fst (network_broadcast E tx w) = Ok response ->
           accepted response = false /\ snd (network_broadcast E tx w) = w).
Proof.
  unfold network_broadcast.
  destruct (env_broadcast E tx) as [response|]; [|right; split; [reflexivity|discriminate]].
  destruct (accepted response) eqn:Ha.
  - left. exists response. repeat split; auto.
  - right. split; [reflexivity|]. intros r [= <-]. split; [exact Ha|reflexivity].
Qed.

Lemma accepted_error (response : JsVal) :
  accepted response = true ->
  exists err, get response "error" = Ok err /\ truthy err = false.
Proof.
  unfold accepted. destruct (get response "error") as [err|]; [|discriminate].
  intros H. exists err. split; [reflexivity|]. now destruct (truthy err).
Qed.

(** The runs of [sendTransaction]: a failure that leaves the world as it
    was, or an accepted broadcast followed by the record step. *)
Lemma sendTransaction_cases (E : Env) (L : Linking)
    (senderAddress senderKey senderPhone recipientAddress recipientPhone
       amountMicroStx memo : JsVal) (w : World) :
  (exists e,
     TransactionService.sendTransaction E L senderAddress senderKey senderPhone
       recipientAddress recipientPhone amountMicroStx memo w
     = (Throw e, w))
  \/ (StacksService.isValidAddress E senderAddress = true
      /\ StacksService.isValidAddress E recipientAddress = true
      /\ le_zero E amountMicroStx = false
      /\ exists nonce txId,
           env_nonce E senderAddress = Some nonce
           /\ TransactionService.sendTransaction E L senderAddress senderKey
                senderPhone recipientAddress recipientPhone amountMicroStx memo w
              = let w1 :=
                  set_chain
                    (fun c => c ++ [TxTransfer senderKey recipientAddress
                                      amountMicroStx memo nonce
                                      (fst (StacksService.estimateFee E))]) w in
                if databaseService_client L then
                  (Ok txId,
                   set_transactions
                     (fun ts => ts ++
                        [{| t_tx_id := txId; t_sender_phone := senderPhone;
                            t_recipient_phone := recipientPhone;
                            t_sender_address := senderAddress;
                            t_recipient_address := recipientAddress;
                            t_amount_micro_stx := amountMicroStx;
                            t_fee_micro_stx := fst (StacksService.estimateFee E);
                            t_memo := memo; t_status := jstr "pending" |}]) w1)
                else
                  (Throw (EWrap CtxSendTransaction
                            (EWrap CtxRecordTransaction ETypeError)), w1)).
Proof.
  unfold TransactionService.sendTransaction, TransactionService.createTransaction.
  destruct (StacksService.isValidAddress E senderAddress) eqn:Hs;
    [|left; eexists; reflexivity].
  destruct (StacksService.isValidAddress E recipientAddress) eqn:Hr;
    [|left; eexists; reflexivity].
  destruct (le_zero E amountMicroStx) eqn:Hz; [left; eexists; reflexivity|].
  cbn [negb truthy]. unfold StacksService.getAccountInfo_nonce.
  destruct (env_nonce E senderAddress) as [nonce|] eqn:Hn;
    [|left; eexists; reflexivity].
  set (tx := TxTransfer senderKey recipientAddress amountMicroStx memo nonce
               (fst (StacksService.estimateFee E))).
  unfold TransactionService.broadcastTransaction, TransactionService.recordTransaction,
    through_client, network_broadcast.
  unfold try_catch, bind, ret, throw, lift, update. cbn [fst snd]. fold tx.
  destruct (env_build E tx) eqn:Hb; [|left; eexists; reflexivity].
  destruct (env_broadcast E tx) as [response|]; [|left; eexists; reflexivity].
  destruct (accepted response) eqn:Ha.
  - destruct (accepted_error response Ha) as (err & Herr & Ht).
    rewrite Herr, Ht.
    destruct (get response "txid") as [txid|e] eqn:Htx.
    2:{ exfalso. unfold get in Herr, Htx. destruct response; discriminate. }
    right. repeat split; auto. exists nonce, txid. split; [reflexivity|].
    cbv zeta. destruct (databaseService_client L); reflexivity.
  - left. unfold accepted in Ha.
    destruct (get response "error") as [err|e]; [|eexists; reflexivity].
    destruct (truthy err); [|discriminate].
    destruct (get response "reason"); eexists; reflexivity.
Qed.

(** [sendTransaction], called with a memo and without a fee as the payment
    handler calls it, hands at most one transaction to the network: the
    transfer of the given amount to the given recipient with the given memo,
    signed with the given key, at the estimated medium fee, and only when
    both addresses are valid for the configured network and the amount is
    positive.  What follows depends on [databaseService.client].  In the
    repository, where it is [undefined], the transfer is on the chain,
    nothing is recorded and the caller gets the failure of
    [recordTransaction]: [sendTransaction] never returns normally.  With a
    client it returns the transaction id and records the transfer as
    pending. *)
Theorem sendTransaction_sends_the_request (E : Env) (L : Linking)
    (senderAddress senderKey senderPhone recipientAddress recipientPhone
       amountMicroStx memo : JsVal) (w : World) :
  memo <> JUndef ->
  (chain (snd (TransactionService.sendTransaction E L senderAddress senderKey
                 senderPhone recipientAddress recipientPhone amountMicroStx memo w))
   = chain w
   \/ (StacksService.isValidAddress E senderAddress = true
       /\ StacksService.isValidAddress E recipientAddress = true
       /\ le_zero E amountMicroStx = false
       /\ exists nonce txId,
            env_nonce E senderAddress = Some nonce
            /\ chain (snd (TransactionService.sendTransaction E L senderAddress
                             senderKey senderPhone recipientAddress recipientPhone
                             amountMicroStx memo w))
               = chain w ++ [TxTransfer senderKey recipientAddress amountMicroStx memo
                               nonce (fst (StacksService.estimateFee E))]
            /\ if databaseService_client L then
                 fst (TransactionService.sendTransaction E L senderAddress senderKey
                        senderPhone recipientAddress recipientPhone amountMicroStx
                        memo w)
                 = Ok txId
                 /\ transactions
                      (snd (TransactionService.sendTransaction E L senderAddress
                              senderKey senderPhone recipientAddress recipientPhone
                              amountMicroStx memo w))
                    = transactions w
                      ++ [{| t_tx_id := txId; t_sender_phone := senderPhone;
                             t_recipient_phone := recipientPhone;
                             t_sender_address := senderAddress;
                             t_recipient_address := recipientAddress;
                             t_amount_micro_stx := amountMicroStx;
                             t_fee_micro_stx := fst (StacksService.estimateFee E);
                             t_memo := memo; t_status := jstr "pending" |}]
               else
                 fst (TransactionService.sendTransaction E L senderAddress senderKey
                        senderPhone recipientAddress recipientPhone amountMicroStx
                        memo w)
                 = Throw (EWrap CtxSendTransaction
                            (EWrap CtxRecordTransaction ETypeError))
                 /\ transactions
                      (snd (TransactionService.sendTransaction E L senderAddress
                              senderKey senderPhone recipientAddress recipientPhone
                              amountMicroStx memo w))
                    = transactions w))
  /\ (databaseService_client L = false ->
      forall r,
        fst (TransactionService.sendTransaction E L senderAddress senderKey
               senderPhone recipientAddress recipientPhone amountMicroStx memo w)
        <> Ok r).
Proof.
  intros _.
  destruct (sendTransaction_cases E L senderAddress senderKey senderPhone
              recipientAddress recipientPhone amountMicroStx memo w)
    as [(e & ->)|(Hs & Hr & Hz & nonce & txId & Hn & ->)].
  - split; [left; reflexivity|discriminate].
  - cbv zeta. split.
    + right. repeat split; auto. exists nonce, txId. split; [exact Hn|].
      destruct (databaseService_client L); repeat split; reflexivity.
    + intros ->. discriminate.
Qed.

Lemma sendTransaction_sends_the_request_witness :
  jstr "rent" <> JUndef
  /\ TransactionService.sendTransaction example_env as_written
       (JStr example_address_U) (jstr "key") (JStr example_phone)
       (JStr example_address_A) JNull (JNum (JsNum.of_Z 5000000)) (jstr "rent")
       example_world
     = (Throw (EWrap CtxSendTransaction (EWrap CtxRecordTransaction ETypeError)),
        set_chain
          (fun c => c ++ [TxTransfer (jstr "key") (JStr example_address_A)
                            (JNum (JsNum.of_Z 5000000)) (jstr "rent")
                            (JNum (JsNum.of_Z 0)) (JNum (JsNum.of_Z 250))])
          example_world)
  /\ forall r,
       fst (TransactionService.sendTransaction example_env as_written
              (JStr example_address_U) (jstr "key") (JStr example_phone)
              (JStr example_address_A) JNull (JNum (JsNum.of_Z 5000000))
              (jstr "rent") example_world)
       <> Ok r.
Proof.
  assert (H : jstr "rent" <> JUndef) by discriminate.
  split; [exact H|]. split; [vm_compute; reflexivity|].
  exact (proj2 (sendTransaction_sends_the_request example_env as_written
                  (JStr example_address_U) (jstr "key") (JStr example_phone)
                  (JStr example_address_A) JNull (JNum (JsNum.of_Z 5000000))
                  (jstr "rent") example_world H) eq_refl).
Defined.

Lemma contract_action_cases (E : Env) (L : Linking) (f st : string) (id addr key : JsVal)
    (w : World) :
  chain (snd (EscrowService.contract_action E L f st id addr key w)) = chain w
  \/ exists nonce,
       env_nonce E addr = Some nonce
       /\ chain (snd (EscrowService.contract_action E L f st id addr key w))
          = chain w ++ [TxContractCall f [id] key nonce].
Proof.
  unfold EscrowService.contract_action, StacksService.getAccountInfo_nonce.
  destruct (env_nonce E addr) as [nonce|] eqn:Hn; [|left; reflexivity].
  rewrite bind_ret. cbv zeta.
  destruct (env_build E (TxContractCall f [id] key nonce)) eqn:Hb;
    [|left; reflexivity].
  cbn [negb].
  assert (Hk : forall r, keeps chain
             (let* txId := lift (get r "txid") in
              let* err := lift (get r "error") in
              if truthy err then throw (EBroadcastFailed err)
              else
                bind (EscrowService.updateEscrowStatus L id (jstr st) txId)
                  (fun _ => ret txId))) by (intros r; frame).
  destruct (network_broadcast_cases E (TxContractCall f [id] key nonce) w)
    as [(response & He & Ha & Hrun)|[Hc _]].
  - right. exists nonce. split; [reflexivity|].
    rewrite (bind_run _ _ _ _ _ Hrun). rewrite Hk. reflexivity.
  - left.
    destruct (network_broadcast E _ w) as [[r|e] w'] eqn:Hrun; cbn [snd] in *.
    + rewrite (bind_run _ _ _ _ _ Hrun). rewrite Hk. exact Hc.
    + rewrite (bind_fails _ _ _ _ _ Hrun). exact Hc.
Qed.

(** The escrow service hands at most one transaction to the network per
    call, a call of the contract function of the same name: [create-escrow]
    with the recipient, the amount, the time-out and the memo, in the order
    of the contract's parameters and only for addresses valid on the
    configured network and a positive amount; [release-escrow],
    [refund-escrow] and [cancel-escrow] with the escrow id, the refund only
    when [canRefund] answers true.  This holds whatever the imports are
    bound to. *)
Theorem escrow_service_calls_the_contract (E : Env) (L : Linking)
    (senderAddress senderKey recipientAddress amountMicroStx timeoutBlocks memo
       senderPhone recipientPhone contractEscrowId : JsVal) (w : World) :
  (chain (snd (EscrowService.createEscrow E L senderAddress senderKey recipientAddress
                 amountMicroStx timeoutBlocks memo senderPhone recipientPhone w))
   = chain w
   \/ (StacksService.isValidAddress E senderAddress = true
       /\ StacksService.isValidAddress E recipientAddress = true
       /\ le_zero E amountMicroStx = false
       /\ exists nonce,
            chain (snd (EscrowService.createEscrow E L senderAddress senderKey
                          recipientAddress amountMicroStx timeoutBlocks memo
                          senderPhone recipientPhone w))
            = chain w ++ [TxContractCall "create-escrow"
                            [recipientAddress; amountMicroStx; timeoutBlocks; memo]
                            senderKey nonce]))
  /\ (chain (snd (EscrowService.releaseEscrow E L contractEscrowId senderAddress
                    senderKey w))
      = chain w
      \/ exists nonce,
           chain (snd (EscrowService.releaseEscrow E L contractEscrowId senderAddress
                         senderKey w))
           = chain w ++ [TxContractCall "release-escrow" [contractEscrowId]
                           senderKey nonce])
  /\ (chain (snd (EscrowService.refundEscrow E L contractEscrowId senderAddress
                    senderKey w))
      = chain w
      \/ (truthy (EscrowService.canRefund E L contractEscrowId) = true
          /\ exists nonce,
               chain (snd (EscrowService.refundEscrow E L contractEscrowId
                             senderAddress senderKey w))
               = chain w ++ [TxContractCall "refund-escrow" [contractEscrowId]
                               senderKey nonce]))
  /\ (chain (snd (EscrowService.cancelEscrow E L contractEscrowId senderAddress
                    senderKey w))
      = chain w
      \/ exists nonce,
           chain (snd (EscrowService.cancelEscrow E L contractEscrowId senderAddress
                         senderKey w))
           = chain w ++ [TxContractCall "cancel-escrow" [contractEscrowId]
                           senderKey nonce]).
Proof.
  split; [|split; [|split]].
  - unfold EscrowService.createEscrow.
    rewrite try_catch_keeps by (intros e; frame).
    destruct (StacksService.isValidAddress E senderAddress) eqn:Hs;
      [|left; reflexivity].
    destruct (StacksService.isValidAddress E recipientAddress) eqn:Hr;
      [|left; reflexivity].
    destruct (le_zero E amountMicroStx) eqn:Hz; [left; reflexivity|].
    cbn [negb]. unfold StacksService.getAccountInfo_nonce.
    destruct (env_nonce E senderAddress) as [nonce|] eqn:Hn; [|left; reflexivity].
    rewrite bind_ret. cbv zeta.
    destruct (env_build E _) eqn:Hb; [|left; reflexivity].
    cbn [negb].
    assert (Hk : forall r, keeps chain
               (let* txId := lift (get r "txid") in
                let* err := lift (get r "error") in
                if truthy err then throw (EBroadcastFailed err)
                else
                  let* escrowRecord :=
                    EscrowService.saveEscrowToDatabase L senderPhone senderAddress
                      (default_param JNull recipientPhone) recipientAddress
                      amountMicroStx timeoutBlocks memo txId (jstr "pending") in
                  ret (txId, e_id escrowRecord))) by (intros r; frame).
    match goal with |- context [network_broadcast E ?tx] =>
      destruct (network_broadcast_cases E tx w)
        as [(response & He & Ha & Hrun)|[Hc _]] end.
    + right. repeat split; auto. exists nonce.
      rewrite (bind_run _ _ _ _ _ Hrun). rewrite Hk. reflexivity.
    + left.
      destruct (network_broadcast E _ w) as [[r|e] w'] eqn:Hrun; cbn [snd] in *.
      * rewrite (bind_run _ _ _ _ _ Hrun). rewrite Hk. exact Hc.
      * rewrite (bind_fails _ _ _ _ _ Hrun). exact Hc.
  - unfold EscrowService.releaseEscrow.
    rewrite try_catch_keeps by (intros e; frame).
    destruct (contract_action_cases E L "release-escrow" "released" contractEscrowId
                senderAddress senderKey w) as [H|(nonce & _ & H)];
      [left|right; exists nonce]; exact H.
  - unfold EscrowService.refundEscrow.
    rewrite try_catch_keeps by (intros e; frame).
    destruct (truthy (EscrowService.canRefund E L contractEscrowId)) eqn:Hc;
      [|left; reflexivity].
    cbn [negb].
    destruct (contract_action_cases E L "refund-escrow" "refunded" contractEscrowId
                senderAddress senderKey w) as [H|(nonce & _ & H)];
      [left|right; split; [reflexivity|exists nonce]]; exact H.
  - unfold EscrowService.cancelEscrow.
    rewrite try_catch_keeps by (intros e; frame).
    destruct (contract_action_cases E L "cancel-escrow" "cancelled" contractEscrowId
                senderAddress senderKey w) as [H|(nonce & _ & H)];
      [left|right; exists nonce]; exact H.
Qed.

(** *** The escrow service in the repository *)

(** [createEscrow] and the contract actions, where [databaseService.client]
    is [undefined]: a failure that leaves the world as it was, or an
    accepted broadcast followed by the failure of the record step. *)
Lemma createEscrow_as_written (E : Env)
    (senderAddress senderKey recipientAddress amountMicroStx timeoutBlocks memo
       senderPhone recipientPhone : JsVal) (w : World) :
  (exists e,
     EscrowService.createEscrow E as_written senderAddress senderKey recipientAddress
       amountMicroStx timeoutBlocks memo senderPhone recipientPhone w
     = (Throw e, w))
  \/ exists nonce,
       EscrowService.createEscrow E as_written senderAddress senderKey
         recipientAddress amountMicroStx timeoutBlocks memo senderPhone
         recipientPhone w
       = (Throw (EWrap CtxCreateEscrow (EWrap CtxSaveEscrow ETypeError)),
          set_chain
            (fun c => c ++ [TxContractCall "create-escrow"
                              [recipientAddress; amountMicroStx; timeoutBlocks; memo]
                              senderKey nonce]) w).
Proof.
  unfold EscrowService.createEscrow.
  destruct (StacksService.isValidAddress E senderAddress);
    [|left; eexists; reflexivity].
  destruct (StacksService.isValidAddress E recipientAddress);
    [|left; eexists; reflexivity].
  destruct (le_zero E amountMicroStx); [left; eexists; reflexivity|].
  cbn [negb]. unfold StacksService.getAccountInfo_nonce.
  destruct (env_nonce E senderAddress) as [nonce|]; [|left; eexists; reflexivity].
  unfold EscrowService.saveEscrowToDatabase, through_client, network_broadcast.
  unfold try_catch, bind, ret, throw, lift, update. cbn [fst snd]. cbv zeta.
  destruct (env_build E _); [|left; eexists; reflexivity]. cbn [negb].
  destruct (env_broadcast E _) as [response|]; [|left; eexists; reflexivity].
  destruct (accepted response) eqn:Ha.
  - destruct (accepted_error response Ha) as (err & Herr & Ht).
    destruct (get response "txid") as [txid|e] eqn:Htx.
    2:{ exfalso. unfold get in Herr, Htx. destruct response; discriminate. }
    rewrite Herr, Ht. right. exists nonce. reflexivity.
  - left. unfold accepted in Ha.
    destruct (get response "txid") as [txid|e]; [|eexists; reflexivity].
    destruct (get response "error") as [err|e]; [|eexists; reflexivity].
    destruct (truthy err); [|discriminate]. eexists; reflexivity.
Qed.

Lemma contract_action_as_written (E : Env) (f st : string) (id addr key : JsVal)
    (w : World) :
  (exists e, EscrowService.contract_action E as_written f st id addr key w = (Throw e, w))
  \/ exists nonce,
       EscrowService.contract_action E as_written f st id addr key w
       = (Throw (EWrap CtxUpdateEscrowStatus ETypeError),
          set_chain (fun c => c ++ [TxContractCall f [id] key nonce]) w).
Proof.
  unfold EscrowService.contract_action, StacksService.getAccountInfo_nonce.
  destruct (env_nonce E addr) as [nonce|]; [|left; eexists; reflexivity].
  unfold EscrowService.updateEscrowStatus, through_client, network_broadcast.
  unfold try_catch, bind, ret, throw, lift, update. cbn [fst snd]. cbv zeta.
  destruct (env_build E _); [|left; eexists; reflexivity]. cbn [negb].
  destruct (env_broadcast E _) as [response|]; [|left; eexists; reflexivity].
  destruct (accepted response) eqn:Ha.
  - destruct (accepted_error response Ha) as (err & Herr & Ht).
    destruct (get response "txid") as [txid|e] eqn:Htx.
    2:{ exfalso. unfold get in Herr, Htx. destruct response; discriminate. }
    rewrite Herr, Ht. right. exists nonce. reflexivity.
  - left. unfold accepted in Ha.
    destruct (get response "txid") as [txid|e]; [|eexists; reflexivity].
    destruct (get response "error") as [err|e]; [|eexists; reflexivity].
    destruct (truthy err); [|discriminate]. eexists; reflexivity.
Qed.

(** The same through the [try]/[catch] of the three functions. *)
Lemma wrapped_action_as_written (E : Env) (c : Context) (f st : string)
    (id addr key : JsVal) (w : World) :
  (exists e,
     try_catch (EscrowService.contract_action E as_written f st id addr key)
       (fun e => throw (EWrap c e)) w
     = (Throw e, w))
  \/ exists nonce,
       try_catch (EscrowService.contract_action E as_written f st id addr key)
         (fun e => throw (EWrap c e)) w
       = (Throw (EWrap c (EWrap CtxUpdateEscrowStatus ETypeError)),
          set_chain (fun c => c ++ [TxContractCall f [id] key nonce]) w).
Proof.
  unfold try_catch.
  destruct (contract_action_as_written E f st id addr key w) as [(e & ->)|(n & ->)].
  - left. eexists. reflexivity.
  - right. exists n. reflexivity.
Qed.

(** In the repository the escrow service reports a failure for every call.
    [createEscrow], [releaseEscrow] and [cancelEscrow] hand their contract
    call to the network first and reach the record through
    [databaseService.client] afterwards: when the network took the call, it
    is on the chain, the table is as it was and the caller gets the failure
    to save or to update the record.  [refundEscrow] fails before any
    broadcast, because [canRefund] answers false. *)
Theorem escrow_service_fails_after_broadcast (E : Env)
    (senderAddress senderKey recipientAddress amountMicroStx timeoutBlocks memo
       senderPhone recipientPhone contractEscrowId : JsVal) (w : World) :
  ((exists e,
      EscrowService.createEscrow E as_written senderAddress senderKey
        recipientAddress amountMicroStx timeoutBlocks memo senderPhone
        recipientPhone w
      = (Throw e, w))
   \/ exists nonce,
        EscrowService.createEscrow E as_written senderAddress senderKey
          recipientAddress amountMicroStx timeoutBlocks memo senderPhone
          recipientPhone w
        = (Throw (EWrap CtxCreateEscrow (EWrap CtxSaveEscrow ETypeError)),
           set_chain
             (fun c => c ++ [TxContractCall "create-escrow"
                               [recipientAddress; amountMicroStx; timeoutBlocks; memo]
                               senderKey nonce]) w))
  /\ ((exists e,
         EscrowService.releaseEscrow E as_written contractEscrowId senderAddress
           senderKey w
         = (Throw e, w))
      \/ exists nonce,
           EscrowService.releaseEscrow E as_written contractEscrowId senderAddress
             senderKey w
           = (Throw (EWrap CtxReleaseEscrow (EWrap CtxUpdateEscrowStatus ETypeError)),
              set_chain
                (fun c => c ++ [TxContractCall "release-escrow" [contractEscrowId]
                                  senderKey nonce]) w))
  /\ EscrowService.refundEscrow E as_written contractEscrowId senderAddress senderKey w
     = (Throw (EWrap CtxRefundEscrow ERefundNotAllowed), w)
  /\ ((exists e,
         EscrowService.cancelEscrow E as_written contractEscrowId senderAddress
           senderKey w
         = (Throw e, w))
      \/ exists nonce,
           EscrowService.cancelEscrow E as_written contractEscrowId senderAddress
             senderKey w
           = (Throw (EWrap CtxCancelEscrow (EWrap CtxUpdateEscrowStatus ETypeError)),
              set_chain
                (fun c => c ++ [TxContractCall "cancel-escrow" [contractEscrowId]
                                  senderKey nonce]) w)).
Proof.
  split; [apply createEscrow_as_written|].
  split; [apply wrapped_action_as_written|].
  split; [reflexivity|apply wrapped_action_as_written].
Qed.

(** ** The messages the bot sends *)

Lemma polite_keeps {A} (m : M A) : keeps outbox m -> polite m.
Proof. intros H w. exists []. rewrite H, app_nil_r. split; [reflexivity|constructor]. Qed.

Lemma polite_bind {A B} (m : M A) (k : A -> M B) :
  polite m -> (forall a, polite (k a)) -> polite (bind m k).
Proof.
  intros Hm Hk w. unfold bind. destruct (Hm w) as (l & Hl & Hf).
  destruct (m w) as [[a|e] w']; cbn [snd] in *.
  - destruct (Hk a w') as (l' & Hl' & Hf'). exists (l ++ l').
    rewrite Hl', Hl, app_assoc. split; [reflexivity|]. now apply Forall_app.
  - exists l. auto.
Qed.

Lemma polite_try_catch {A} (body : M A) (handler : Error -> M A) :
  polite body -> (forall e, polite (handler e)) -> polite (try_catch body handler).
Proof.
  intros Hm Hk w. unfold try_catch. destruct (Hm w) as (l & Hl & Hf).
  destruct (body w) as [[a|e] w']; cbn [snd] in *.
  - exists l. auto.
  - destruct (Hk e w') as (l' & Hl' & Hf'). exists (l ++ l').
    rewrite Hl', Hl, app_assoc. split; [reflexivity|]. now apply Forall_app.
Qed.

Lemma polite_sendMessage (E : Env) (to : JsVal) (message : Reply) :
  polite (sendMessage E to message).
Proof.
  intros w. unfold sendMessage.
  destruct to; try (exists []; rewrite app_nil_r; split; [reflexivity|constructor]).
  destruct (test ValidatorTs.phoneRegex s) eqn:Ht;
    [|exists []; rewrite app_nil_r; split; [reflexivity|constructor]].
  destruct (env_twilio E s);
    [|exists []; rewrite app_nil_r; split; [reflexivity|constructor]].
  exists [(s, message)]. split; [reflexivity|].
  constructor; [|constructor]. now apply test_phoneRegex.
Qed.

Ltac polite_step :=
  match goal with
  | |- polite (sendMessage _ _ _) => apply polite_sendMessage
  | |- polite (bind _ _) => apply polite_bind; [|intros ?]
  | |- polite (try_catch _ _) => apply polite_try_catch; [|intros ?]
  | |- polite (if ?b then _ else _) => destruct b
  | |- polite (match ?x with _ => _ end) => destruct x
  | |- polite (ret _) => apply polite_keeps, keeps_ret
  | |- polite (throw _) => apply polite_keeps, keeps_throw
  | |- polite (lift _) => apply polite_keeps, keeps_lift
  | |- polite (read _) => apply polite_keeps, keeps_read
  | |- polite (lookup_user _ _) => apply polite_keeps, keeps_lookup_user
  | |- polite (update _) => apply polite_keeps, keeps_update; intros; reflexivity
  | |- polite (network_broadcast _ _) =>
      apply polite_keeps; unfold network_broadcast; solve [frame]
  | |- polite _ => apply polite_keeps; solve [frame_raw]
  | |- polite _ => progress autounfold with handlers; cbv zeta
  end.

Ltac politely := repeat polite_step.

Section Polite.
Variable E : Env.
Variable L : Linking.

Lemma polite_payment_handleStateFlow (phoneNumber message : jsstring) (state : JsVal) :
  polite (PaymentHandler.handleStateFlow E L phoneNumber message state).
Proof.
  unfold PaymentHandler.handleStateFlow, PaymentHandler.executeSend. cbv zeta.
  politely.
Qed.

Lemma polite_escrow_handleStateFlow (phoneNumber message : jsstring) (state : JsVal) :
  polite (EscrowHandler.handleStateFlow E L phoneNumber message state).
Proof.
  unfold EscrowHandler.handleStateFlow, EscrowHandler.executeReleaseEscrow,
    EscrowHandler.executeRefundEscrow, EscrowHandler.executeCancelEscrow,
    EscrowHandler.executeCreateEscrow, EscrowHandler.executeAction. cbv zeta.
  politely.
Qed.

Lemma polite_payment_handleMessage (phoneNumber message : jsstring) :
  polite (PaymentHandler.handleMessage E L phoneNumber message).
Proof.
  unfold PaymentHandler.handleMessage. cbv zeta.
  repeat first [apply polite_payment_handleStateFlow | polite_step].
Qed.

Lemma polite_escrow_handleMessage (phoneNumber message : jsstring) :
  polite (EscrowHandler.handleMessage E L phoneNumber message).
Proof.
  unfold EscrowHandler.handleMessage. cbv zeta.
  repeat first [apply polite_escrow_handleStateFlow | polite_step].
Qed.

Lemma polite_processMessage (phoneNumber messageText : jsstring) :
  polite (Webhook.processMessage E L phoneNumber messageText).
Proof.
  unfold Webhook.processMessage. cbv zeta.
  repeat first [apply polite_payment_handleMessage
               | apply polite_escrow_handleMessage | polite_step].
Qed.

Lemma polite_handleRegistration (phoneNumber messageBody : jsstring) :
  polite (RegistrationHandler.handleRegistration E phoneNumber messageBody).
Proof.
  unfold RegistrationHandler.handleRegistration,
    RegistrationHandler.completeRegistration, RegistrationHandler.startRegistration,
    RegistrationHandler.sendErrorMessage. cbv zeta.
  politely.
Qed.

(** When [whatsappService] is the service object the webhook never fails. *)
Lemma processMessage_returns (phoneNumber messageText : jsstring) (w : World) :
  whatsappService_methods L = true ->
  fst (Webhook.processMessage E L phoneNumber messageText w) = Ok tt.
Proof.
  intros HL. unfold Webhook.processMessage, try_catch.
  match goal with |- fst (match ?b with _ => _ end) = _ =>
    destruct b as [[[]|e] w'] end; [reflexivity|].
  unfold Imported.sendMessage. rewrite HL. apply sendMessage_returns.
Qed.

End Polite.

(** The webhook of the repository: the help texts need the user lookup,
    whose failure is caught, and every other message fails at its first
    service call and again in the [catch] block. *)
Lemma processMessage_as_written (E : Env) (phoneNumber messageText : jsstring)
    (w : World) :
  Webhook.processMessage E as_written phoneNumber messageText w
  = (if str_eqb (trim (toLowerCase messageText)) (js "help")
        || str_eqb (trim (toLowerCase messageText)) (js "menu")
     then Ok tt else Throw ETypeError, w).
Proof.
  unfold Webhook.processMessage, try_catch. cbv zeta.
  destruct (_ || _); reflexivity.
Qed.

Lemma polite_run (L : Linking) (msgs : list Webhook.Inbound) (w : World) :
  Forall (fun e => phone_shaped (fst e)) (outbox w) ->
  Forall (fun e => phone_shaped (fst e)) (outbox (Webhook.run L w msgs)).
Proof.
  revert w. induction msgs as [|i msgs IH]; intros w H; [exact H|].
  unfold Webhook.run in *. cbn [fold_left]. apply IH.
  unfold Webhook.step.
  destruct (polite_processMessage (Webhook.in_env i) L (Webhook.in_from i)
              (Webhook.in_body i) (Webhook.at_time (Webhook.in_time i) w))
    as (l & Hl & Hf).
  rewrite Hl. apply Forall_app. split; [exact H|exact Hf].
Qed.

(** The bot writes only to numbers made of +234 and ten digits: whatever the
    imports are bound to and whatever the webhook, the payment and escrow
    handlers (their confirmation flows included) and the registration
    handler are given, every message they hand to Twilio goes to such a
    number, and so does every message of any run of the webhook.  When
    [whatsappService] is the service object the webhook never fails.  In
    the repository it changes nothing and answers nothing: [processMessage]
    returns normally for "help" and "menu" and fails with the TypeError of
    its [catch] block for every other message. *)
Theorem bot_writes_to_valid_numbers_only (E : Env) (L : Linking)
    (phoneNumber message : jsstring) (state : JsVal) (msgs : list Webhook.Inbound)
    (w : World) :
  polite (Webhook.processMessage E L phoneNumber message)
  /\ polite (PaymentHandler.handleMessage E L phoneNumber message)
  /\ polite (PaymentHandler.handleStateFlow E L phoneNumber message state)
  /\ polite (EscrowHandler.handleMessage E L phoneNumber message)
  /\ polite (EscrowHandler.handleStateFlow E L phoneNumber message state)
  /\ polite (RegistrationHandler.handleRegistration E phoneNumber message)
  /\ (whatsappService_methods L = true ->
      fst (Webhook.processMessage E L phoneNumber message w) = Ok tt)
  /\ Webhook.processMessage E as_written phoneNumber message w
     = (if str_eqb (trim (toLowerCase message)) (js "help")
           || str_eqb (trim (toLowerCase message)) (js "menu")
        then Ok tt else Throw ETypeError, w)
  /\ (Forall (fun e => phone_shaped (fst e)) (outbox w) ->
      Forall (fun e => phone_shaped (fst e)) (outbox (Webhook.run L w msgs))).
Proof.
  split; [apply polite_processMessage|].
  split; [apply polite_payment_handleMessage|].
  split; [apply polite_payment_handleStateFlow|].
  split; [apply polite_escrow_handleMessage|].
  split; [apply polite_escrow_handleStateFlow|].
  split; [apply polite_handleRegistration|].
  split; [apply processMessage_returns|].
  split; [apply processMessage_as_written|apply polite_run].
Qed.

(** ** The contact service in the repository *)

Lemma isValidAddress_empty (E : Env) : StacksService.isValidAddress E (JStr []) = false.
Proof.
  unfold StacksService.isValidAddress. destruct (str_eqb _ _); reflexivity.
Qed.

Lemma addContact_as_written (E : Env)
    (userPhone contactName contactStxAddress : jsstring) (contactPhone : JsVal)
    (w : World) :
  ContactService.addContact E as_written userPhone contactName contactStxAddress
    contactPhone w
  = (Throw (EWrap CtxAddContact
              (match userPhone, contactName, contactStxAddress with
               | _ :: _, _ :: _, _ :: _ =>
                   if StacksService.isValidAddress E (JStr contactStxAddress)
                   then EWrap CtxGetContact ETypeError
                   else EInvalidStxAddress
               | _, _, _ => EMissingFields
               end)), w).
Proof.
  unfold ContactService.addContact, try_catch.
  destruct userPhone, contactName, contactStxAddress; try reflexivity.
  destruct (StacksService.isValidAddress E _); reflexivity.
Qed.

Lemma handleAddContact_as_written (E : Env) (phoneNumber message : jsstring)
    (w : World) :
  PaymentHandler.handleAddContact E as_written phoneNumber message w
  = (Ok (HFailure
           (if Nat.ltb (length (split_ws message)) 4 then R_AddContactFormat
            else if StacksService.isValidAddress E (JStr (nth 3 (split_ws message) []))
            then R_Fail (EWrap CtxAddContact
                           (match phoneNumber, nth 2 (split_ws message) [] with
                            | _ :: _, _ :: _ => EWrap CtxGetContact ETypeError
                            | _, _ => EMissingFields
                            end))
            else R_InvalidAddress)), w).
Proof.
  unfold PaymentHandler.handleAddContact, try_catch. cbv zeta.
  destruct (Nat.ltb _ 4); [reflexivity|].
  destruct (StacksService.isValidAddress E (JStr (nth 3 (split_ws message) [])))
    eqn:Hv; [|reflexivity].
  cbn [negb]. unfold bind. rewrite addContact_as_written, Hv.
  destruct (nth 3 (split_ws message) []) as [|c a];
    [now rewrite isValidAddress_empty in Hv|].
  destruct phoneNumber, (nth 2 (split_ws message) []); reflexivity.
Qed.

(** In the repository the contacts cannot be read or written: every
    function of the contact service that goes to the table fails at
    [databaseService.client] and leaves the world as it was.
    [getContactByName] and [getContacts] fail for every argument;
    [addContact] reports a missing field first, then an address that is
    not valid on the configured network, and for a complete request the
    failure of its duplicate check.  So "add contact [Name] [Address]" is
    answered with the format error, the address error or that failure, and
    "contacts" with the failure to get the contacts; neither changes
    anything. *)
Theorem contact_service_fails_at_the_table (E : Env)
    (userPhone contactName contactStxAddress message : jsstring)
    (contactPhone : JsVal) (w : World) :
  ContactService.getContactByName as_written userPhone contactName w
  = (Throw (EWrap CtxGetContact ETypeError), w)
  /\ ContactService.getContacts as_written userPhone w
     = (Throw (EWrap CtxGetContacts ETypeError), w)
  /\ ContactService.addContact E as_written userPhone contactName contactStxAddress
       contactPhone w
     = (Throw (EWrap CtxAddContact
                 (match userPhone, contactName, contactStxAddress with
                  | _ :: _, _ :: _, _ :: _ =>
                      if StacksService.isValidAddress E (JStr contactStxAddress)
                      then EWrap CtxGetContact ETypeError
                      else EInvalidStxAddress
                  | _, _, _ => EMissingFields
                  end)), w)
  /\ PaymentHandler.handleAddContact E as_written userPhone message w
     = (Ok (HFailure
              (if Nat.ltb (length (split_ws message)) 4 then R_AddContactFormat
               else if StacksService.isValidAddress E
                         (JStr (nth 3 (split_ws message) []))
               then R_Fail (EWrap CtxAddContact
                              (match userPhone, nth 2 (split_ws message) [] with
                               | _ :: _, _ :: _ => EWrap CtxGetContact ETypeError
                               | _, _ => EMissingFields
                               end))
               else R_InvalidAddress)), w)
  /\ PaymentHandler.handleListContacts E as_written userPhone w
     = (Ok (HFailure R_ContactsFailed), w).
Proof.
  split; [reflexivity|]. split; [reflexivity|].
  split; [apply addContact_as_written|].
  split; [apply handleAddContact_as_written|reflexivity].
Qed.

(** ** The queries *)

Lemma answers_keeps {A} (p : jsstring) (m : M A) : keeps outbox m -> answers p m.
Proof. intros H w. left. apply H. Qed.

Lemma answers_bind_l {A B} (p : jsstring) (m : M A) (k : A -> M B) :
  keeps outbox m -> (forall a, answers p (k a)) -> answers p (bind m k).
Proof.
  intros Hm Hk w. unfold bind. specialize (Hm w).
  destruct (m w) as [[a|e] w']; cbn [snd] in *.
  - rewrite <- Hm. apply Hk.
  - left. exact Hm.
Qed.

Lemma answers_bind_r {A B} (p : jsstring) (m : M A) (k : A -> M B) :
  answers p m -> (forall a, keeps outbox (k a)) -> answers p (bind m k).
Proof.
  intros Hm Hk w. unfold bind. specialize (Hm w).
  destruct (m w) as [[a|e] w']; cbn [snd] in *; [|exact Hm].
  pose proof (Hk a w') as Ha. destruct Hm as [Hm|[r Hm]].
  - left. congruence.
  - right. exists r. congruence.
Qed.

Lemma answers_try_catch {A} (p : jsstring) (body : M A) (handler : Error -> M A) :
  answers p body -> (forall e, keeps outbox (handler e)) ->
  answers p (try_catch body handler).
Proof.
  intros Hm Hk w. unfold try_catch. specialize (Hm w).
  destruct (body w) as [[a|e] w']; cbn [snd] in *; [exact Hm|].
  pose proof (Hk e w') as Ha. destruct Hm as [Hm|[r Hm]].
  - left. congruence.
  - right. exists r. congruence.
Qed.

Lemma answers_sendMessage (E : Env) (p : jsstring) (message : Reply) :
  answers p (sendMessage E (JStr p) message).
Proof.
  intros w. unfold sendMessage.
  destruct (test _ _); [|now left].
  destruct (env_twilio E p); [|now left].
  right. exists message. reflexivity.
Qed.

Ltac answers_step :=
  match goal with
  | |- answers _ (sendMessage _ _ _) => apply answers_sendMessage
  | |- answers _ (bind _ _) =>
      first [ apply answers_bind_l; [solve [frame]|intros ?]
            | apply answers_bind_r; [|intros ?; solve [frame]] ]
  | |- answers _ (try_catch _ _) =>
      apply answers_try_catch; [|intros ?; solve [frame]]
  | |- answers _ (if ?b then _ else _) => destruct b
  | |- answers _ (match ?x with _ => _ end) => destruct x
  | |- answers _ (ret _) => apply answers_keeps, keeps_ret
  | |- answers _ (throw _) => apply answers_keeps, keeps_throw
  | |- answers _ _ => progress autounfold with handlers; cbv zeta
  end.

Ltac answer := repeat answers_step.

Ltac read_only := unfold reads_only; repeat split; frame.

(** A query changes nothing and costs nothing: the balance, the history,
    the contact list, the status of an escrow, the list of the escrows and
    the help text are answered without changing any table, without handing
    anything to the network, and with at most one message, sent to the number
    that asked.  This holds whatever the imports are bound to. *)
Theorem queries_only_answer (E : Env) (L : Linking)
    (phoneNumber message : jsstring) (user : JsVal) :
  (reads_only (PaymentHandler.handleBalance E L phoneNumber user)
   /\ answers phoneNumber (PaymentHandler.handleBalance E L phoneNumber user))
  /\ (reads_only (PaymentHandler.handleHistory E L phoneNumber user)
      /\ answers phoneNumber (PaymentHandler.handleHistory E L phoneNumber user))
  /\ (reads_only (PaymentHandler.handleListContacts E L phoneNumber)
      /\ answers phoneNumber (PaymentHandler.handleListContacts E L phoneNumber))
  /\ (reads_only (EscrowHandler.handleEscrowStatus E L phoneNumber message)
      /\ answers phoneNumber (EscrowHandler.handleEscrowStatus E L phoneNumber message))
  /\ (reads_only (EscrowHandler.handleListEscrows E L phoneNumber)
      /\ answers phoneNumber (EscrowHandler.handleListEscrows E L phoneNumber))
  /\ (reads_only (Webhook.sendHelpMessage E L phoneNumber)
      /\ answers phoneNumber (Webhook.sendHelpMessage E L phoneNumber)).
Proof.
  repeat split; try solve [frame]; answer.
Qed.

(** ** The status of an escrow record (C6) *)

Lemma run_as_written (msgs : list Webhook.Inbound) (w : World) :
  escrows (Webhook.run as_written w msgs) = escrows w.
Proof.
  revert w. induction msgs as [|i msgs IH]; intros w; [reflexivity|].
  unfold Webhook.run in *. cbn [fold_left]. rewrite IH.
  unfold Webhook.step. now rewrite processMessage_as_written.
Qed.

Lemma escrow_handleMessage_as_written (E : Env) (phoneNumber message : jsstring)
    (w : World) :
  EscrowHandler.handleMessage E as_written phoneNumber message w
  = (Ok (HFailure (R_HandlerError ETypeError)), w).
Proof. reflexivity. Qed.

(** C6.  The records of the table [escrows] are written by
    [saveEscrowToDatabase] and [updateEscrowStatus] only, and both reach
    the table through [databaseService.client], which is [undefined]: no
    operation of the escrow service, of the escrow handler or of the
    webhook changes a record, so no status ever moves, a terminal one
    included.  The record the contract keeps on the chain is created
    [active]; under any sequence of transactions of any callers it keeps
    its terms, its status moves at most once, from [active] to [released],
    [refunded] or [cancelled], and a record that is not active any more
    never changes again. *)
Theorem C6_escrow_status_is_final :
  (forall E senderAddress senderKey recipientAddress amountMicroStx timeoutBlocks
          memo senderPhone recipientPhone contractEscrowId w,
     escrows (snd (EscrowService.createEscrow E as_written senderAddress senderKey
                     recipientAddress amountMicroStx timeoutBlocks memo senderPhone
                     recipientPhone w))
     = escrows w
     /\ escrows (snd (EscrowService.releaseEscrow E as_written contractEscrowId
                        senderAddress senderKey w))
        = escrows w
     /\ escrows (snd (EscrowService.refundEscrow E as_written contractEscrowId
                        senderAddress senderKey w))
        = escrows w
     /\ escrows (snd (EscrowService.cancelEscrow E as_written contractEscrowId
                        senderAddress senderKey w))
        = escrows w)
  /\ (forall E phoneNumber message state w,
        snd (EscrowHandler.handleMessage E as_written phoneNumber message w) = w
        /\ snd (EscrowHandler.handleStateFlow E as_written phoneNumber message
                  state w) = w)
  /\ (forall w msgs, escrows (Webhook.run as_written w msgs) = escrows w)
  /\ (forall balances txs1 txs2 i e,
        EscrowContract.escrows
          (EscrowContract.run (EscrowContract.deployed balances) txs1) !! i = Some e ->
        exists e',
          EscrowContract.escrows
            (EscrowContract.run (EscrowContract.deployed balances) (txs1 ++ txs2)) !! i
          = Some e'
          /\ EscrowContract.evolves e e'
          /\ (EscrowContract.active e = false -> e' = e)).
Proof.
  split; [|split; [|split]].
  - intros. split; [|split; [|split]].
    + destruct (createEscrow_as_written E senderAddress senderKey recipientAddress
                  amountMicroStx timeoutBlocks memo senderPhone recipientPhone w)
        as [(e & ->)|(n & ->)]; reflexivity.
    + unfold EscrowService.releaseEscrow.
      destruct (wrapped_action_as_written E CtxReleaseEscrow "release-escrow"
                  "released" contractEscrowId senderAddress senderKey w)
        as [(e & ->)|(n & ->)]; reflexivity.
    + reflexivity.
    + unfold EscrowService.cancelEscrow.
      destruct (wrapped_action_as_written E CtxCancelEscrow "cancel-escrow"
                  "cancelled" contractEscrowId senderAddress senderKey w)
        as [(e & ->)|(n & ->)]; reflexivity.
  - intros. split; [reflexivity|]. apply flows_as_written.
  - intros. apply run_as_written.
  - intros balances txs1 txs2 i e Hi.
    rewrite run_app.
    destruct (run_evolves txs2 _ i e
                (run_consistent txs1 _
                   (deployed_consistent balances)) Hi)
      as (e' & He' & Hev).
    exists e'. split; [exact He'|]. split; [exact Hev|].
    intros Hact. destruct Hev as [->|(_ & Ha & _)]; [reflexivity|congruence].
Qed.

